(** * Record and replay of browser action logs

    A shallow embedding of the JavaScript classes [EventStreamPlayer]
    (src/EventStreamPlayer.js), [EventStreamWriter] and
    [ActionTrackingRecorder], with the properties of their timeline model.

    Conventions of the embedding.
    - A JavaScript number is an exact rational ([Q]); statements about
      numbers use [==] ([Qeq]).  Only finite numbers are covered (no [NaN],
      no infinities, no rounding), and a speed is never [0] where a
      quotient by it is taken.
    - [Date.now()] is the argument [now] of a call, for a call that reads
      the clock once or whose reads all give the same instant.  [play] and
      the callback of a timer read it more than once: [playOn], [loadOn] and
      [onTimeoutOn] take the reads one by one, as a function [clock].
    - [setTimeout(f, d)] at instant [now] adds a pending timer that the host
      fires at [now + d] when [1 <= d <= 2^31 - 1]; Node replaces any other
      delay, one above [2^31 - 1] ms as well as one below [1] ms, by [1] ms
      ([hostDelay]).  Among pending timers the earliest fires first, and of
      two with the same instant the one armed first.  The host's lateness
      and its dropping of the sub-millisecond part of a delay are left out.
    - An object is a record; a method is a function in the monad [M] that
      threads the object and may throw: like in JavaScript, what a method
      had assigned before it threw stays assigned.
    - [emit(name, payload)] appends to the emitter's list of emitted events;
      listeners are not modelled, except that emitting ['error'] without an
      ['error'] listener throws, as Node's EventEmitter does. *)

From Stdlib Require Import Ascii String QArith Qminmax ZArith List Bool Lia Lqa.
From Stdlib Require Import Permutation Sorted.
Import ListNotations.
Local Open Scope Q_scope.

(** ** Numbers *)

(** [x < y] on numbers, as a boolean. *)
Definition Qltb (x y : Q) : bool := negb (Qle_bool y x).

(** ** The event log *)

(** One entry of the action log: the [type] tag, the virtual [timestamp] in
    milliseconds, and the remaining fields, which no code here looks into. *)
Record ActionRecord : Type := mkAction {
  type : string;
  timestamp : Q;
  payload : string
}.

(** [Array.prototype.findIndex]: the first index whose element satisfies
    [p], [-1] when there is none. *)
Fixpoint findIndexFrom {A : Type} (p : A -> bool) (l : list A) (i : Z) : Z :=
  match l with
  | [] => (-1)%Z
  | a :: r => if p a then i else findIndexFrom p r (i + 1)%Z
  end.

Definition findIndex {A : Type} (p : A -> bool) (l : list A) : Z :=
  findIndexFrom p l 0%Z.

(** [l[i]] for an integer [i]: [undefined] ([None]) out of range. *)
Definition at_index {A : Type} (l : list A) (i : Z) : option A :=
  if (i <? 0)%Z then None else nth_error l (Z.to_nat i).

(** The log is sorted ascending by timestamp. *)
Inductive sorted_log : list ActionRecord -> Prop :=
| sorted_nil : sorted_log []
| sorted_cons : forall a l,
    Forall (fun b => timestamp a <= timestamp b) l ->
    sorted_log l -> sorted_log (a :: l).

(** The data model's invariant: timestamps are not negative. *)
Definition nonneg_log (l : list ActionRecord) : Prop :=
  Forall (fun a => 0 <= timestamp a) l.

(** ** The monad of methods *)

Inductive Exn : Type :=
| TypeError                       (* a property of [undefined], a [null] path *)
| RangeError                      (* call stack exhausted *)
| SystemError (code : string)     (* a file system error and its [code] *)
| UnhandledError                  (* ['error'] emitted with no listener *)
| Error (message : string).

Inductive Outcome (S A : Type) : Type :=
| Returned (v : A) (s : S)
| Thrown (e : Exn) (s : S).
Arguments Returned {S A} v s.
Arguments Thrown {S A} e s.

Definition Method (S A : Type) : Type := S -> Outcome S A.

Definition ret {S A} (v : A) : Method S A := fun s => Returned v s.
Definition bind {S A B} (m : Method S A) (k : A -> Method S B) : Method S B :=
  fun s => match m s with
           | Returned v s' => k v s'
           | Thrown e s' => Thrown e s'
           end.
Definition throw {S A} (e : Exn) : Method S A := fun s => Thrown e s.
Definition this {S} : Method S S := fun s => Returned s s.
Definition assign {S} (f : S -> S) : Method S unit := fun s => Returned tt (f s).

(** [try { m } catch (error) { handler error }] *)
Definition try_catch {S A} (m : Method S A) (handler : Exn -> Method S A) : Method S A :=
  fun s => match m s with
           | Returned v s' => Returned v s'
           | Thrown e s' => handler e s'
           end.

Notation "x <- m ;; k" := (bind m (fun x => k))
  (at level 61, m at next level, right associativity).
Notation "m ;; k" := (bind m (fun _ => k))
  (at level 61, right associativity).

(** [error.code === c] *)
Definition hasCode (error : Exn) (c : string) : bool :=
  match error with
  | SystemError code => String.eqb code c
  | _ => false
  end.

(** The object a call leaves behind, whether it returned or threw. *)
Definition after {S A} (o : Outcome S A) : S :=
  match o with Returned _ s => s | Thrown _ s => s end.

Definition threw {S A} (o : Outcome S A) : option Exn :=
  match o with Returned _ _ => None | Thrown e _ => Some e end.

Definition returned {S A} (o : Outcome S A) : option A :=
  match o with Returned v _ => Some v | Thrown _ _ => None end.

Fixpoint forEach {S A : Type} (f : A -> Method S unit) (l : list A) : Method S unit :=
  match l with
  | [] => ret tt
  | x :: r => f x ;; forEach f r
  end.

Module Player.

(** *** State of an [EventStreamPlayer] *)

Record Options : Type := mkOptions {
  playbackSpeed : Q;
  autoPlay : bool;
  loop : bool;
  debugMode : bool
}.

Definition defaultOptions : Options := mkOptions 1 false false false.

(** Payload of an emitted event. *)
Inductive Payload : Type :=
| NoPayload
| Position (timestamp : Q) (actionIndex : Z)
| Loaded (totalActions : Z) (duration : Q)
| Speed (speed : Q)
| Action (action : ActionRecord)
| Failure (type : string) (error : Exn).

Record Event : Type := mkEvent { name : string; data : Payload }.

(** A timer armed by [scheduleNextActions]: the closure keeps [action] and
    the index [i]. *)
Record Timer : Type := mkTimer {
  timerId : nat;
  armedAt : Q;
  delay : Q;
  firesIndex : Z;
  firesAction : ActionRecord
}.

(** The host's timers.  Node takes the delay of [setTimeout] as it is only
    from [1] ms to [TIMEOUT_MAX = 2^31 - 1] ms; any other delay, above
    [TIMEOUT_MAX] or below [1], is replaced by [1] ms. *)
Definition TIMEOUT_MAX : Q := 2147483647.

Definition hostDelay (d : Q) : Q :=
  if Qle_bool 1 d && Qle_bool d TIMEOUT_MAX then d else 1.

(** The instant at which the host fires the timer. *)
Definition due (t : Timer) : Q := armedAt t + hostDelay (delay t).

Record EventStreamPlayer : Type := mkPlayer {
  options : Options;
  actionLog : list ActionRecord;
  videoPlayer : bool;              (* [null] or the placeholder object *)
  currentTimestamp : Q;
  startTime : Q;
  isPlaying : bool;
  isPaused : bool;
  actionIndex : Z;
  scheduledActions : list nat;
  (* the host: the emitter and the timers of the event loop *)
  errorListener : bool;
  emitted : list Event;
  timers : list Timer;
  nextTimerId : nat
}.

Definition constructor (opts : Options) : EventStreamPlayer :=
  mkPlayer opts [] false 0 0 false false 0%Z [] false [] [] 0%nat.

(** Field assignments. *)
Definition set_options v p :=
  mkPlayer v (actionLog p) (videoPlayer p) (currentTimestamp p)
    (startTime p) (isPlaying p) (isPaused p) (actionIndex p)
    (scheduledActions p) (errorListener p) (emitted p) (timers p)
    (nextTimerId p).
Definition set_actionLog v p :=
  mkPlayer (options p) v (videoPlayer p) (currentTimestamp p) (startTime p)
    (isPlaying p) (isPaused p) (actionIndex p) (scheduledActions p)
    (errorListener p) (emitted p) (timers p) (nextTimerId p).
Definition set_videoPlayer v p :=
  mkPlayer (options p) (actionLog p) v (currentTimestamp p) (startTime p)
    (isPlaying p) (isPaused p) (actionIndex p) (scheduledActions p)
    (errorListener p) (emitted p) (timers p) (nextTimerId p).
Definition set_currentTimestamp v p :=
  mkPlayer (options p) (actionLog p) (videoPlayer p) v (startTime p)
    (isPlaying p) (isPaused p) (actionIndex p) (scheduledActions p)
    (errorListener p) (emitted p) (timers p) (nextTimerId p).
Definition set_startTime v p :=
  mkPlayer (options p) (actionLog p) (videoPlayer p) (currentTimestamp p) v
    (isPlaying p) (isPaused p) (actionIndex p) (scheduledActions p)
    (errorListener p) (emitted p) (timers p) (nextTimerId p).
Definition set_isPlaying v p :=
  mkPlayer (options p) (actionLog p) (videoPlayer p) (currentTimestamp p)
    (startTime p) v (isPaused p) (actionIndex p) (scheduledActions p)
    (errorListener p) (emitted p) (timers p) (nextTimerId p).
Definition set_isPaused v p :=
  mkPlayer (options p) (actionLog p) (videoPlayer p) (currentTimestamp p)
    (startTime p) (isPlaying p) v (actionIndex p) (scheduledActions p)
    (errorListener p) (emitted p) (timers p) (nextTimerId p).
Definition set_actionIndex v p :=
  mkPlayer (options p) (actionLog p) (videoPlayer p) (currentTimestamp p)
    (startTime p) (isPlaying p) (isPaused p) v (scheduledActions p)
    (errorListener p) (emitted p) (timers p) (nextTimerId p).
Definition set_scheduledActions v p :=
  mkPlayer (options p) (actionLog p) (videoPlayer p) (currentTimestamp p)
    (startTime p) (isPlaying p) (isPaused p) (actionIndex p) v
    (errorListener p) (emitted p) (timers p) (nextTimerId p).
Definition set_errorListener v p :=
  mkPlayer (options p) (actionLog p) (videoPlayer p) (currentTimestamp p)
    (startTime p) (isPlaying p) (isPaused p) (actionIndex p)
    (scheduledActions p) v (emitted p) (timers p) (nextTimerId p).
Definition set_emitted v p :=
  mkPlayer (options p) (actionLog p) (videoPlayer p) (currentTimestamp p)
    (startTime p) (isPlaying p) (isPaused p) (actionIndex p)
    (scheduledActions p) (errorListener p) v (timers p) (nextTimerId p).
Definition set_timers v p :=
  mkPlayer (options p) (actionLog p) (videoPlayer p) (currentTimestamp p)
    (startTime p) (isPlaying p) (isPaused p) (actionIndex p)
    (scheduledActions p) (errorListener p) (emitted p) v (nextTimerId p).
Definition set_nextTimerId v p :=
  mkPlayer (options p) (actionLog p) (videoPlayer p) (currentTimestamp p)
    (startTime p) (isPlaying p) (isPaused p) (actionIndex p)
    (scheduledActions p) (errorListener p) (emitted p) (timers p) v.

Definition set_playbackSpeed (v : Q) (o : Options) : Options :=
  mkOptions v (autoPlay o) (loop o) (debugMode o).

(** *** Host operations *)

Local Abbreviation M := (Method EventStreamPlayer).

Definition emit (n : string) (d : Payload) : M unit :=
  assign (fun p => set_emitted (emitted p ++ [mkEvent n d]) p).

(** [this.on('error', listener)] *)
Definition onError : M unit := assign (set_errorListener true).

(** [this.emit('error', {type, error})] *)
Definition emitError (type : string) (error : Exn) : M unit :=
  p <- this ;;
  if errorListener p then emit "error" (Failure type error)
  else throw UnhandledError.

Definition setTimeout (now : Q) (i : Z) (action : ActionRecord) (d : Q)
  : M nat :=
  p <- this ;;
  assign (fun p =>
    set_nextTimerId (S (nextTimerId p))
      (set_timers (timers p ++ [mkTimer (nextTimerId p) now d i action]) p)) ;;
  ret (nextTimerId p).

Definition clearTimeout (id : nat) : M unit :=
  assign (fun p =>
    set_timers (filter (fun t => negb (Nat.eqb (timerId t) id)) (timers p)) p).

(** *** Methods of src/EventStreamPlayer.js

    The calls on [videoPlayer] are left out: it is a placeholder whose
    methods have empty bodies. *)

Definition clearScheduledActions : M unit :=
  p <- this ;;
  forEach clearTimeout (scheduledActions p) ;;
  assign (set_scheduledActions []).

Definition emitAction (action : ActionRecord) : M unit :=
  emit "action" (Action action) ;;
  emit ("action:" ++ type action)%string (Action action).

Definition calculateCurrentTimestamp (now : Q) (p : EventStreamPlayer) : Q :=
  if negb (isPlaying p) then currentTimestamp p
  else if isPaused p then currentTimestamp p
  else (now - startTime p) * playbackSpeed (options p).

Definition getDuration (p : EventStreamPlayer) : Q :=
  if (length (actionLog p) =? 0)%nat then 0
  else match nth_error (actionLog p) (length (actionLog p) - 1) with
       | Some a => timestamp a
       | None => 0
       end.

Definition findActionIndex (ts : Q) (p : EventStreamPlayer) : Z :=
  findIndex (fun action => Qle_bool ts (timestamp action)) (actionLog p).

Definition stop : M unit :=
  p <- this ;;
  if negb (isPlaying p) then ret tt
  else
    assign (set_isPlaying false) ;;
    assign (set_isPaused false) ;;
    assign (set_currentTimestamp 0) ;;
    assign (set_actionIndex 0%Z) ;;
    clearScheduledActions ;;
    emit "stop" NoPayload.

(** [actionIndex >= actionLog.length] *)
Definition atEnd (p : EventStreamPlayer) : bool :=
  (Z.of_nat (length (actionLog p)) <=? actionIndex p)%Z.

(** The [for] loop of [scheduleNextActions], at index [i] with the entries
    [rest] of the log from [i] on still to visit. *)
Fixpoint scheduleLoop (now currentTime : Q) (i : Z) (rest : list ActionRecord)
  : M unit :=
  match rest with
  | [] => ret tt
  | action :: rest' =>
      p <- this ;;
      let adjustedTime := timestamp action / playbackSpeed (options p) in
      let delay := adjustedTime - currentTime in
      (if Qltb delay 0 then
         (if debugMode (options p) then emitAction action else ret tt) ;;
         assign (set_actionIndex (i + 1)%Z)
       else
         timerId <- setTimeout now i action delay ;;
         assign (fun p =>
           set_scheduledActions (scheduledActions p ++ [timerId]) p)) ;;
      scheduleLoop now currentTime (i + 1)%Z rest'
  end.

(** The loop from [actionIndex]: at a negative index [actionLog[i]] is
    [undefined] and reading its [timestamp] throws. *)
Definition scheduleUpcoming (now currentTime : Q) : M unit :=
  p <- this ;;
  if (actionIndex p <? 0)%Z then throw TypeError
  else scheduleLoop now currentTime (actionIndex p)
         (skipn (Z.to_nat (actionIndex p)) (actionLog p)).

(** [scheduleNextActions], with [depth] nested calls of itself left on the
    call stack; when they are used up the call throws, as a JavaScript
    engine does. *)
Fixpoint scheduleNextActionsAt (depth : nat) (now : Q) : M unit :=
  clearScheduledActions ;;
  p <- this ;;
  if negb (isPlaying p) || isPaused p || atEnd p then
    if atEnd p && loop (options p) then
      assign (set_currentTimestamp 0) ;;
      assign (set_actionIndex 0%Z) ;;
      assign (set_startTime now) ;;
      match depth with
      | O => throw RangeError
      | S d => scheduleNextActionsAt d now
      end
    else ret tt
  else
    let currentTime := calculateCurrentTimestamp now p in
    scheduleUpcoming now currentTime.

(** One nested call is all a call on a log with entries makes
    ([PlayerFacts.scheduleNextActionsAt_depth]); on an empty log with
    looping on the nesting has no end
    ([PlayerFacts.scheduleNextActionsAt_empty]). *)
Definition scheduleNextActions (now : Q) : M unit :=
  scheduleNextActionsAt 1 now.

Definition play (now : Q) : M unit :=
  p <- this ;;
  if isPlaying p && negb (isPaused p) then ret tt
  else
    (if isPaused p then
       assign (set_isPaused false) ;;
       assign (fun p => set_startTime
         (now - currentTimestamp p / playbackSpeed (options p)) p)
     else
       assign (fun p => set_startTime
         (now - currentTimestamp p / playbackSpeed (options p)) p) ;;
       assign (fun p => set_actionIndex
         (findActionIndex (currentTimestamp p) p) p)) ;;
    assign (set_isPlaying true) ;;
    scheduleNextActions now ;;
    p <- this ;;
    emit "play" (Position (currentTimestamp p) (actionIndex p)).

Definition pause (now : Q) : M unit :=
  p <- this ;;
  if negb (isPlaying p) || isPaused p then ret tt
  else
    assign (set_isPaused true) ;;
    assign (fun p =>
      set_currentTimestamp (calculateCurrentTimestamp now p) p) ;;
    clearScheduledActions ;;
    p <- this ;;
    emit "pause" (Position (currentTimestamp p) (actionIndex p)).

Definition seekTo (timestamp : Q) (now : Q) : M unit :=
  p <- this ;;
  let duration := getDuration p in
  let timestamp := Qmax 0 (Qmin timestamp duration) in
  let wasPlaying := isPlaying p && negb (isPaused p) in
  (if wasPlaying then pause now else ret tt) ;;
  assign (set_currentTimestamp timestamp) ;;
  assign (fun p => set_actionIndex (findActionIndex timestamp p) p) ;;
  p <- this ;;
  emit "seek" (Position (currentTimestamp p) (actionIndex p)) ;;
  if wasPlaying then play now else ret tt.

Definition setPlaybackSpeed (speed : Q) (now : Q) : M unit :=
  if Qle_bool speed 0 then ret tt
  else
    p <- this ;;
    let wasPlaying := isPlaying p && negb (isPaused p) in
    (if wasPlaying then pause now else ret tt) ;;
    assign (fun p => set_options (set_playbackSpeed speed (options p)) p) ;;
    (if wasPlaying then play now else ret tt) ;;
    p <- this ;;
    emit "speedChanged" (Speed (playbackSpeed (options p))).

(** [actionLog.sort((a, b) => a.timestamp - b.timestamp)]: the sort is
    stable, an entry stays before the later entries of the same timestamp. *)
Fixpoint insertByTimestamp (a : ActionRecord) (l : list ActionRecord)
  : list ActionRecord :=
  match l with
  | [] => [a]
  | b :: r =>
      if Qle_bool (timestamp a) (timestamp b) then a :: b :: r
      else b :: insertByTimestamp a r
  end.

Fixpoint sortByTimestamp (l : list ActionRecord) : list ActionRecord :=
  match l with
  | [] => []
  | a :: r => insertByTimestamp a (sortByTimestamp r)
  end.

(** [error.message] of the error that reading or parsing threw. *)
Definition messageOf (content : Exn * string + list ActionRecord) : string :=
  match content with
  | inl (_, message) => message
  | inr _ => EmptyString
  end.

(** [load(paths)]: [content] is what reading and parsing the file at
    [paths.actionLogPath] gave, the log, or the error thrown and its
    [message]; [videoPath] tells whether [paths.videoPath] is set. *)
Definition load (content : Exn * string + list ActionRecord)
  (videoPath : bool) (now : Q) : M unit :=
  try_catch
    (match content with
     | inr log =>
         assign (set_actionLog log) ;;
         assign (fun p => set_actionLog (sortByTimestamp (actionLog p)) p)
     | inl (error, _) => throw error
     end)
    (fun error =>
       emitError "actionLogLoad" error ;;
       throw (Error ("Failed to load action log: " ++ messageOf content)%string)) ;;
  (if videoPath then assign (set_videoPlayer true) else ret tt) ;;
  p <- this ;;
  emit "loaded" (Loaded (Z.of_nat (length (actionLog p))) (getDuration p)) ;;
  p <- this ;;
  if autoPlay (options p) then play now else ret tt.

(** The callback of a timer, run by the host at the instant [now]. *)
Definition onTimeout (t : Timer) (now : Q) : M unit :=
  emitAction (firesAction t) ;;
  assign (set_actionIndex (firesIndex t + 1)%Z) ;;
  p <- this ;;
  if atEnd p then
    if loop (options p) then
      assign (set_currentTimestamp 0) ;;
      assign (set_actionIndex 0%Z) ;;
      assign (set_startTime now) ;;
      scheduleNextActions now
    else stop
  else ret tt.

(** *** The calls that read the clock more than once

    [play()] reads [Date.now()] when it sets [startTime] and once more in
    [scheduleNextActions], through [calculateCurrentTimestamp()]; a restart
    of the loop reads it in between.  Below, [clock k] is what the [k]-th
    [Date.now()] of a call returns, counted from [0].  The methods above
    are these with a clock that stands still during the call
    ([PlayerFacts.playOn_still]). *)

(** A clock that stands still at [now]. *)
Definition still (now : Q) : nat -> Q := fun _ => now.

(** [scheduleNextActions]: a restart reads the clock for [startTime] and
    leaves the later reads to the nested call; a pass reads it once, in
    [calculateCurrentTimestamp()], and arms its timers at that instant. *)
Fixpoint scheduleNextActionsOn (depth : nat) (clock : nat -> Q) : M unit :=
  clearScheduledActions ;;
  p <- this ;;
  if negb (isPlaying p) || isPaused p || atEnd p then
    if atEnd p && loop (options p) then
      assign (set_currentTimestamp 0) ;;
      assign (set_actionIndex 0%Z) ;;
      assign (set_startTime (clock 0%nat)) ;;
      match depth with
      | O => throw RangeError
      | S d => scheduleNextActionsOn d (fun k => clock (S k))
      end
    else ret tt
  else
    let currentTime := calculateCurrentTimestamp (clock 0%nat) p in
    scheduleUpcoming (clock 0%nat) currentTime.

(** [play]: the first read sets [startTime], the later ones are those of
    [scheduleNextActions]. *)
Definition playOn (clock : nat -> Q) : M unit :=
  p <- this ;;
  if isPlaying p && negb (isPaused p) then ret tt
  else
    (if isPaused p then
       assign (set_isPaused false) ;;
       assign (fun p => set_startTime
         (clock 0%nat - currentTimestamp p / playbackSpeed (options p)) p)
     else
       assign (fun p => set_startTime
         (clock 0%nat - currentTimestamp p / playbackSpeed (options p)) p) ;;
       assign (fun p => set_actionIndex
         (findActionIndex (currentTimestamp p) p) p)) ;;
    assign (set_isPlaying true) ;;
    scheduleNextActionsOn 1 (fun k => clock (S k)) ;;
    p <- this ;;
    emit "play" (Position (currentTimestamp p) (actionIndex p)).

(** [load]: it reads the clock only through [play], with [autoPlay]. *)
Definition loadOn (content : Exn * string + list ActionRecord)
  (videoPath : bool) (clock : nat -> Q) : M unit :=
  try_catch
    (match content with
     | inr log =>
         assign (set_actionLog log) ;;
         assign (fun p => set_actionLog (sortByTimestamp (actionLog p)) p)
     | inl (error, _) => throw error
     end)
    (fun error =>
       emitError "actionLogLoad" error ;;
       throw (Error ("Failed to load action log: " ++ messageOf content)%string)) ;;
  (if videoPath then assign (set_videoPlayer true) else ret tt) ;;
  p <- this ;;
  emit "loaded" (Loaded (Z.of_nat (length (actionLog p))) (getDuration p)) ;;
  p <- this ;;
  if autoPlay (options p) then playOn clock else ret tt.

(** The callback of a timer: on a restart the first read sets [startTime],
    the later ones are those of [scheduleNextActions]. *)
Definition onTimeoutOn (t : Timer) (clock : nat -> Q) : M unit :=
  emitAction (firesAction t) ;;
  assign (set_actionIndex (firesIndex t + 1)%Z) ;;
  p <- this ;;
  if atEnd p then
    if loop (options p) then
      assign (set_currentTimestamp 0) ;;
      assign (set_actionIndex 0%Z) ;;
      assign (set_startTime (clock 0%nat)) ;;
      scheduleNextActionsOn 1 (fun k => clock (S k))
    else stop
  else ret tt.

(** *** The host's event loop *)

(** The pending timer that fires next: the earliest, the first armed among
    equals. *)
Fixpoint earliest (t : Timer) (rest : list Timer) : Timer :=
  match rest with
  | [] => t
  | u :: r => if Qltb (due u) (due t) then earliest u r else earliest t r
  end.

Definition nextTimer (p : EventStreamPlayer) : option Timer :=
  match timers p with
  | [] => None
  | t :: r => Some (earliest t r)
  end.

(** Fire the next timer, at the instant it is due: the host drops it from
    the pending timers and runs its callback. *)
Definition fireNext : M bool :=
  p <- this ;;
  match nextTimer p with
  | None => ret false
  | Some t => clearTimeout (timerId t) ;; onTimeout t (due t) ;; ret true
  end.

(** Let the host fire timers, at most [n] of them, with no other call in
    between. *)
Fixpoint runTimers (n : nat) : M unit :=
  match n with
  | O => ret tt
  | S n' => fired <- fireNext ;; if fired then runTimers n' else ret tt
  end.

(** The actions handed to the listeners of ['action'], oldest first. *)
Fixpoint actionsOf (evs : list Event) : list ActionRecord :=
  match evs with
  | [] => []
  | mkEvent n (Action a) :: r =>
      if String.eqb n "action" then a :: actionsOf r else actionsOf r
  | _ :: r => actionsOf r
  end.

(** [getActionDetails(index)]: [null] out of range. *)
Definition getActionDetails (index : Z) (p : EventStreamPlayer)
  : option ActionRecord :=
  if (index <? 0)%Z || (Z.of_nat (length (actionLog p)) <=? index)%Z
  then None
  else nth_error (actionLog p) (Z.to_nat index).

End Player.

(** ** Paths *)

(** The functions of Node's [path] module and the string operations that
    the recorder and the writer call.  They are not part of the repository:
    the methods take them as a parameter. *)
Record PathOps : Type := mkPathOps {
  dirname : string -> string;
  basename : string -> string -> string;
  extname : string -> string;
  join : string -> string -> string;
  stripExtension : string -> string   (* [s.replace(/\.[^/.]+$/, '')] *)
}.

(** [s.endsWith(suffix)] *)
Definition endsWith (s suffix : string) : bool :=
  let n := String.length s in
  let m := String.length suffix in
  (m <=? n)%nat && String.eqb (substring (n - m) m s) suffix.

(** A plain POSIX reading of these functions, to run the methods on
    concrete paths. *)
Fixpoint splitLast (c : Ascii.ascii) (s : string) : option (string * string) :=
  match s with
  | EmptyString => None
  | String a r =>
      match splitLast c r with
      | Some (x, y) => Some (String a x, y)
      | None => if Ascii.eqb a c then Some (EmptyString, r) else None
      end
  end.

Definition lastSegment (s : string) : string :=
  match splitLast "/"%char s with Some (_, b) => b | None => s end.

Definition posix : PathOps :=
  mkPathOps
    (fun s => match splitLast "/"%char s with
              | Some (d, _) => if String.eqb d "" then "/" else d
              | None => "."
              end)%string
    (fun s ext =>
       let b := lastSegment s in
       if negb (String.eqb ext "") && negb (String.eqb b ext) && endsWith b ext
       then substring 0 (String.length b - String.length ext) b else b)
    (fun s => match splitLast "."%char (lastSegment s) with
              | Some (x, e) => if String.eqb x "" then "" else "." ++ e
              | None => ""
              end)%string
    (fun a b => a ++ "/" ++ b)%string
    (fun s => match splitLast "."%char (lastSegment s) with
              | Some (x, e) =>
                  if String.eqb e "" then s
                  else substring 0 (String.length s - String.length e - 1) s
              | None => s
              end).

Module Writer.

(** *** State of an [EventStreamWriter] *)

(** The options the writer reads. *)
Record Options : Type := mkOptions {
  opt_actionLogPath : option string;
  captureVideo : bool;
  immediateActionWrites : bool
}.

(** What [stop] returns. *)
Record StopResult : Type := mkStopResult {
  res_videoPath : option string;
  res_actionLogPath : option string;
  res_actionLog : list ActionRecord
}.

Inductive Payload : Type :=
| NoPayload
| Paths (outputPath actionLogPath : option string)
| Stopped (outputPath actionLogPath : option string) (totalActions : nat)
| Recorded (action : ActionRecord) (totalActions : nat)
| Failure (type : string) (error : Exn).

Record Event : Type := mkEvent { name : string; data : Payload }.

(** The file system the writer works on: which directories [fs.mkdir]
    cannot create and which files [fs.writeFile] cannot write (and the
    [code] of the error), and what has been created and written. *)
Record Disk : Type := mkDisk {
  mkdirError : string -> option string;
  writeError : string -> option string;
  directories : list string;
  files : list (string * list ActionRecord)
}.

Record EventStreamWriter : Type := mkWriter {
  options : Options;
  actionLog : list ActionRecord;
  videoWriter : bool;              (* [null] or the placeholder object *)
  outputPath : option string;
  actionLogPath : option string;
  isWriting : bool;
  (* the host: the emitter and the file system *)
  errorListener : bool;
  emitted : list Event;
  disk : Disk
}.

(** [new EventStreamWriter(options)], on the file system [d]. *)
Definition constructor (opts : Options) (d : Disk) : EventStreamWriter :=
  mkWriter opts [] false None None true false [] d.

Definition set_actionLog v w :=
  mkWriter (options w) v (videoWriter w) (outputPath w) (actionLogPath w)
    (isWriting w) (errorListener w) (emitted w) (disk w).
Definition set_videoWriter v w :=
  mkWriter (options w) (actionLog w) v (outputPath w) (actionLogPath w)
    (isWriting w) (errorListener w) (emitted w) (disk w).
Definition set_outputPath v w :=
  mkWriter (options w) (actionLog w) (videoWriter w) v (actionLogPath w)
    (isWriting w) (errorListener w) (emitted w) (disk w).
Definition set_actionLogPath v w :=
  mkWriter (options w) (actionLog w) (videoWriter w) (outputPath w) v
    (isWriting w) (errorListener w) (emitted w) (disk w).
Definition set_isWriting v w :=
  mkWriter (options w) (actionLog w) (videoWriter w) (outputPath w)
    (actionLogPath w) v (errorListener w) (emitted w) (disk w).
Definition set_errorListener v w :=
  mkWriter (options w) (actionLog w) (videoWriter w) (outputPath w)
    (actionLogPath w) (isWriting w) v (emitted w) (disk w).
Definition set_emitted v w :=
  mkWriter (options w) (actionLog w) (videoWriter w) (outputPath w)
    (actionLogPath w) (isWriting w) (errorListener w) v (disk w).
Definition set_disk v w :=
  mkWriter (options w) (actionLog w) (videoWriter w) (outputPath w)
    (actionLogPath w) (isWriting w) (errorListener w) (emitted w) v.

Local Abbreviation M := (Method EventStreamWriter).

(** *** Host operations *)

(** [this.on('error', listener)] *)
Definition onError : M unit := assign (set_errorListener true).

Definition emit (n : string) (d : Payload) : M unit :=
  assign (fun w => set_emitted (emitted w ++ [mkEvent n d]) w).

(** [this.emit('error', {type, error})] *)
Definition emitError (type : string) (error : Exn) : M unit :=
  w <- this ;;
  if errorListener w then emit "error" (Failure type error)
  else throw UnhandledError.

(** [fs.mkdir(dirPath, {recursive: true})] *)
Definition mkdir (dirPath : string) : M unit :=
  w <- this ;;
  match mkdirError (disk w) dirPath with
  | Some code => throw (SystemError code)
  | None =>
      assign (set_disk (mkDisk (mkdirError (disk w)) (writeError (disk w))
                          (directories (disk w) ++ [dirPath])
                          (files (disk w))))
  end.

(** [fs.writeFile(path, JSON.stringify(log, null, 2))]: a [null] path is
    refused with a [TypeError]. *)
Definition writeFile (path : option string) (log : list ActionRecord)
  : M unit :=
  w <- this ;;
  match path with
  | None => throw TypeError
  | Some f =>
      match writeError (disk w) f with
      | Some code => throw (SystemError code)
      | None =>
          assign (set_disk (mkDisk (mkdirError (disk w)) (writeError (disk w))
                              (directories (disk w))
                              ((f, log) :: files (disk w))))
      end
  end.

(** The log last written to [f], if any. *)
Fixpoint contentOf (f : string) (fs : list (string * list ActionRecord))
  : option (list ActionRecord) :=
  match fs with
  | [] => None
  | (g, log) :: r => if String.eqb f g then Some log else contentOf f r
  end.

(** [JSON.parse(await fs.readFile(path, 'utf8'))] *)
Definition readFile (path : option string) : M (list ActionRecord) :=
  w <- this ;;
  match path with
  | None => throw TypeError
  | Some f =>
      match contentOf f (files (disk w)) with
      | Some log => ret log
      | None => throw (SystemError "ENOENT")
      end
  end.

(** *** Methods *)

Section Methods.

Variable path : PathOps.

Definition ensureDirectoryExist (dirPath : string) : M (option string) :=
  try_catch
    (mkdir dirPath ;; ret (Some dirPath))
    (fun error =>
       if negb (hasCode error "EEXIST") then
         emitError "directoryCreate" error ;; throw error
       else ret None).

Definition initializeVideoWriter : M unit := assign (set_videoWriter true).

(** [path.dirname] of a path field; of [null] it throws. *)
Definition dirnameOf (p : option string) : M string :=
  match p with
  | Some s => ret (dirname path s)
  | None => throw TypeError
  end.

Definition start (basePath : string) : M unit :=
  w <- this ;;
  if isWriting w then ret tt
  else
    assign (set_isWriting true) ;;
    assign (set_outputPath (Some basePath)) ;;
    assign (fun w =>
      set_actionLogPath
        (Some (match opt_actionLogPath (options w) with
               | Some s =>
                   if String.eqb s "" then
                     join path (dirname path basePath)
                       (basename path basePath (extname path basePath)
                          ++ "_actions.json")%string
                   else s
               | None =>
                   join path (dirname path basePath)
                     (basename path basePath (extname path basePath)
                        ++ "_actions.json")%string
               end)) w) ;;
    w <- this ;;
    d <- dirnameOf (outputPath w) ;;
    ensureDirectoryExist d ;;
    w <- this ;;
    d <- dirnameOf (actionLogPath w) ;;
    ensureDirectoryExist d ;;
    w <- this ;;
    (if captureVideo (options w) then initializeVideoWriter else ret tt) ;;
    w <- this ;;
    emit "writerStarted" (Paths (outputPath w) (actionLogPath w)).

Definition appendToActionLog (action : ActionRecord) : M unit :=
  try_catch
    (w <- this ;;
     existingLog <- try_catch (readFile (actionLogPath w))
                      (fun _ => ret []) ;;
     writeFile (actionLogPath w) (existingLog ++ [action]))
    (fun error => emitError "actionWrite" error).

Definition recordAction (action : ActionRecord) : M unit :=
  w <- this ;;
  if negb (isWriting w) then ret tt
  else
    assign (fun w => set_actionLog (actionLog w ++ [action]) w) ;;
    w <- this ;;
    (if immediateActionWrites (options w) then appendToActionLog action
     else ret tt) ;;
    w <- this ;;
    emit "actionRecorded" (Recorded action (List.length (actionLog w))).

Definition saveActionLog : M unit :=
  try_catch
    (w <- this ;; writeFile (actionLogPath w) (actionLog w))
    (fun error => emitError "actionLogSave" error).

(** [stop] returns [undefined] ([None]) from its guard and the result
    object otherwise. *)
Definition stop : M (option StopResult) :=
  w <- this ;;
  if negb (isWriting w) then ret None
  else
    saveActionLog ;;
    w <- this ;;
    (if videoWriter w then emit "videoWriterClosed" NoPayload else ret tt) ;;
    assign (set_isWriting false) ;;
    w <- this ;;
    emit "writerStopped"
      (Stopped (outputPath w) (actionLogPath w) (List.length (actionLog w))) ;;
    w <- this ;;
    ret (Some (mkStopResult (outputPath w) (actionLogPath w) (actionLog w))).

Definition getActionLog (w : EventStreamWriter) : list ActionRecord :=
  actionLog w.

End Methods.

End Writer.

Module Collector.

(** *** The recording clock of [EventStreamCollector] *)

Record EventStreamCollector : Type := mkCollector {
  startTimestamp : option Q;
  isCollecting : bool;
  emitted : list (string * Q)
}.

Definition constructor : EventStreamCollector := mkCollector None false [].

(** [startTimestamp ? Date.now() - startTimestamp : 0]; a start timestamp
    of [0] counts as unset. *)
Definition getElapsedTime (now : Q) (c : EventStreamCollector) : Q :=
  match startTimestamp c with
  | Some t => if Qeq_bool t 0 then 0 else now - t
  | None => 0
  end.

(** [start] and [stop]; attaching to and detaching from the page is the
    browser's side and leaves no trace here. *)
Definition start (now : Q) : Method EventStreamCollector unit :=
  c <- this ;;
  if isCollecting c then ret tt
  else
    assign (fun c => mkCollector (startTimestamp c) true (emitted c)) ;;
    assign (fun c => mkCollector (Some now) (isCollecting c) (emitted c)) ;;
    assign (fun c => mkCollector (startTimestamp c) (isCollecting c)
                       (emitted c ++ [("collectorStarted"%string, 0)])).

Definition stop (now : Q) : Method EventStreamCollector unit :=
  c <- this ;;
  if negb (isCollecting c) then ret tt
  else
    assign (fun c => mkCollector (startTimestamp c) false (emitted c)) ;;
    assign (fun c => mkCollector (startTimestamp c) (isCollecting c)
                       (emitted c
                          ++ [("collectorStopped"%string, getElapsedTime now c)])).

End Collector.

Module Recorder.

(** *** [ActionTrackingRecorder] *)

(** The options the recorder reads; the writer is handed the same object. *)
Record Options : Type := mkOptions {
  captureVideo : bool;
  videoFormat : string;
  immediateActionWrites : bool;
  actionLogPath : option string
}.

Definition defaultRecorderOptions : Options :=
  mkOptions false "mp4" false None.

Definition writerOptions (o : Options) : Writer.Options :=
  Writer.mkOptions (actionLogPath o) (captureVideo o) (immediateActionWrites o).

(** The value of [recordingResult]: [null] at construction, then whatever
    the writer's [stop] returned. *)
Inductive Result : Type :=
| Null
| Undefined
| Object (r : Writer.StopResult).

Definition ofOption (r : option Writer.StopResult) : Result :=
  match r with Some x => Object x | None => Undefined end.

Record ActionTrackingRecorder : Type := mkRecorder {
  options : Options;
  isRecording : bool;
  recordingResult : Result;
  collector : Collector.EventStreamCollector;
  writer : Writer.EventStreamWriter
}.

(** The constructor, with [setupEventRouting]: the recorder listens to the
    writer's ['error']. *)
Definition constructor (opts : Options) (d : Writer.Disk)
  : ActionTrackingRecorder :=
  mkRecorder opts false Null Collector.constructor
    (Writer.set_errorListener true (Writer.constructor (writerOptions opts) d)).

Definition set_isRecording v r :=
  mkRecorder (options r) v (recordingResult r) (collector r) (writer r).
Definition set_recordingResult v r :=
  mkRecorder (options r) (isRecording r) v (collector r) (writer r).
Definition set_collector v r :=
  mkRecorder (options r) (isRecording r) (recordingResult r) v (writer r).
Definition set_writer v r :=
  mkRecorder (options r) (isRecording r) (recordingResult r) (collector r) v.

Local Abbreviation M := (Method ActionTrackingRecorder).

(** A call of a method of [this.writer] or [this.collector]. *)
Definition onWriter {A} (m : Method Writer.EventStreamWriter A) : M A :=
  fun r => match m (writer r) with
           | Returned v w => Returned v (set_writer w r)
           | Thrown e w => Thrown e (set_writer w r)
           end.

Definition onCollector {A} (m : Method Collector.EventStreamCollector A)
  : M A :=
  fun r => match m (collector r) with
           | Returned v c => Returned v (set_collector c r)
           | Thrown e c => Thrown e (set_collector c r)
           end.

Section Methods.

Variable path : PathOps.

(** The output path with the extension of the video format, when video is
    captured. *)
Definition withVideoFormat (o : Options) (outputPath : string) : string :=
  if captureVideo o && negb (endsWith outputPath (videoFormat o))
  then (stripExtension path outputPath ++ "." ++ videoFormat o)%string
  else outputPath.

(** What [start] returns. *)
Record Session : Type := mkSession {
  ses_outputPath : string;
  ses_actionLogPath : option string;
  ses_options : Options
}.

Definition start (outputPath : string) (now : Q) : M Session :=
  r <- this ;;
  if isRecording r then throw (Error "Recording is already in progress")
  else
    assign (set_isRecording true) ;;
    let outputPath := withVideoFormat (options r) outputPath in
    onWriter (Writer.start path outputPath) ;;
    onCollector (Collector.start now) ;;
    r <- this ;;
    ret (mkSession outputPath (Writer.actionLogPath (writer r)) (options r)).

Definition stop (now : Q) : M Result :=
  r <- this ;;
  if negb (isRecording r) then ret (recordingResult r)
  else
    assign (set_isRecording false) ;;
    onCollector (Collector.stop now) ;;
    result <- onWriter Writer.stop ;;
    assign (set_recordingResult (ofOption result)) ;;
    ret (ofOption result).

Definition getActionLog (r : ActionTrackingRecorder) : list ActionRecord :=
  Writer.getActionLog (writer r).

End Methods.

End Recorder.

Module Pass.

(** *** What one scheduling pass does, as functions of the log

    The effect of the [for] loop of [scheduleNextActions] on the entries
    [rest] from index [i] on, spelled out field by field; the loop itself
    is [Player.scheduleLoop], and [PlayerFacts.scheduleLoop_effect] relates
    the two. *)

Import Player.

Definition delayOf (speed currentTime : Q) (a : ActionRecord) : Q :=
  timestamp a / speed - currentTime.

Definition overdue (speed currentTime : Q) (a : ActionRecord) : bool :=
  Qltb (delayOf speed currentTime a) 0.

Definition actionEvents (a : ActionRecord) : list Event :=
  [ mkEvent "action" (Action a);
    mkEvent ("action:" ++ type a)%string (Action a) ].

Fixpoint catchUpEvents (debug : bool) (speed currentTime : Q)
  (rest : list ActionRecord) : list Event :=
  match rest with
  | [] => []
  | a :: r =>
      (if overdue speed currentTime a && debug then actionEvents a else [])
        ++ catchUpEvents debug speed currentTime r
  end.

Fixpoint armed (now speed currentTime : Q) (id : nat) (i : Z)
  (rest : list ActionRecord) : list Timer :=
  match rest with
  | [] => []
  | a :: r =>
      if overdue speed currentTime a
      then armed now speed currentTime id (i + 1)%Z r
      else mkTimer id now (delayOf speed currentTime a) i a
             :: armed now speed currentTime (S id) (i + 1)%Z r
  end.

Fixpoint cursorAfter (speed currentTime : Q) (i : Z)
  (rest : list ActionRecord) (cursor : Z) : Z :=
  match rest with
  | [] => cursor
  | a :: r =>
      cursorAfter speed currentTime (i + 1)%Z r
        (if overdue speed currentTime a then (i + 1)%Z else cursor)
  end.

(** The pending timers left when the timers [ids] are cleared one by one. *)
Definition clearAll (ids : list nat) (ts : list Timer) : list Timer :=
  fold_left
    (fun ts id => filter (fun t => negb (Nat.eqb (timerId t) id)) ts) ids ts.

(** The player once [clearScheduledActions] has run. *)
Definition cleared (p : EventStreamPlayer) : EventStreamPlayer :=
  set_scheduledActions []
    (set_timers (clearAll (scheduledActions p) (timers p)) p).

(** The player after the loop of [scheduleNextActions] has visited the
    entries [rest] from index [i] on. *)
Definition passed (now currentTime : Q) (i : Z) (rest : list ActionRecord)
  (p : EventStreamPlayer) : EventStreamPlayer :=
  let speed := playbackSpeed (options p) in
  let new := armed now speed currentTime (nextTimerId p) i rest in
  set_actionIndex
    (cursorAfter speed currentTime i rest (actionIndex p))
    (set_emitted
       (emitted p
          ++ catchUpEvents (debugMode (options p)) speed currentTime rest)
       (set_timers (timers p ++ new)
          (set_nextTimerId (nextTimerId p + length new)
             (set_scheduledActions
                (scheduledActions p ++ map timerId new) p)))).

(** The fields that fix the playback position and the mode. *)
Definition same_position (p q : EventStreamPlayer) : Prop :=
  options q = options p /\ actionLog q = actionLog p
  /\ currentTimestamp q = currentTimestamp p /\ startTime q = startTime p
  /\ isPlaying q = isPlaying p /\ isPaused q = isPaused p.

(** The player that [scheduleNextActions] hands to its nested call when it
    restarts the loop. *)
Definition restarted (now : Q) (p : EventStreamPlayer) : EventStreamPlayer :=
  set_startTime now (set_actionIndex 0%Z (set_currentTimestamp 0 p)).

(** The player as [play] hands it to [scheduleNextActions]. *)
Definition entering (now : Q) (p : EventStreamPlayer) : EventStreamPlayer :=
  set_isPlaying true
    (if isPaused p then
       set_startTime
         (now - currentTimestamp p / playbackSpeed (options p))
         (set_isPaused false p)
     else
       set_actionIndex (findActionIndex (currentTimestamp p) p)
         (set_startTime
            (now - currentTimestamp p / playbackSpeed (options p)) p)).

(** [play] from the call of [scheduleNextActions] on. *)
Definition scheduleAndAnnounce (now : Q) : Method EventStreamPlayer unit :=
  scheduleNextActions now ;;
  p <- this ;;
  emit "play" (Position (currentTimestamp p) (actionIndex p)).

(** The player after the callback of a timer for [a] at index [i] has
    emitted [a] and moved the cursor. *)
Definition fired (i : Z) (a : ActionRecord) (p : EventStreamPlayer)
  : EventStreamPlayer :=
  set_actionIndex (i + 1)%Z (after (emitAction a p)).

(** The player that [stop] leaves when it does stop. *)
Definition stopped (p : EventStreamPlayer) : EventStreamPlayer :=
  let q :=
    cleared
      (set_actionIndex 0%Z
         (set_currentTimestamp 0
            (set_isPaused false (set_isPlaying false p)))) in
  set_emitted (emitted q ++ [mkEvent "stop" NoPayload]) q.

(** The player that [load] leaves before it plays, when it plays. *)
Definition loadedFrom (log : list ActionRecord) (p : EventStreamPlayer)
  : EventStreamPlayer :=
  let q := set_actionLog (sortByTimestamp log) (set_actionLog log p) in
  set_emitted
    (emitted q
       ++ [mkEvent "loaded"
             (Loaded (Z.of_nat (length (actionLog q))) (getDuration q))]) q.

(** The player that [seekTo] leaves before it resumes, when it resumes. *)
Definition sought (ts : Q) (p : EventStreamPlayer) : EventStreamPlayer :=
  let q := set_actionIndex (findActionIndex ts p) (set_currentTimestamp ts p) in
  set_emitted
    (emitted q
       ++ [mkEvent "seek" (Position (currentTimestamp q) (actionIndex q))]) q.

(** [Math.max(0, Math.min(timestamp, duration))] *)
Definition clamp (ts duration : Q) : Q := Qmax 0 (Qmin ts duration).

(** The player that [pause] leaves when it does pause. *)
Definition pausedFrom (now : Q) (p : EventStreamPlayer) : EventStreamPlayer :=
  let q :=
    cleared
      (set_currentTimestamp
         (calculateCurrentTimestamp now (set_isPaused true p))
         (set_isPaused true p)) in
  set_emitted
    (emitted q
       ++ [mkEvent "pause" (Position (currentTimestamp q) (actionIndex q))]) q.

(** Every pending timer is one that [scheduledActions] lists. *)
Definition scheduled (p : EventStreamPlayer) : Prop :=
  forall t, In t (timers p) -> In (timerId t) (scheduledActions p).

(** Every pending timer was armed at the instant [now] and is listed. *)
Definition armedAtInstant (now : Q) (p : EventStreamPlayer) : Prop :=
  forall t, In t (timers p) ->
            armedAt t = now /\ In (timerId t) (scheduledActions p).

(** The player that [setPlaybackSpeed] leaves before it emits. *)
Definition atSpeed (speed : Q) (p : EventStreamPlayer) : EventStreamPlayer :=
  set_options (set_playbackSpeed speed (options p)) p.

(** The log [log] is playable from position [0] at the speed [speed] by a
    [play()] whose clock reads are [clock]: the clock does not go back
    between the read that sets [startTime] and the read in
    [scheduleNextActions], no entry is due before that second read, and no
    entry is due later than the host's longest delay. *)
Definition playable (clock : nat -> Q) (speed : Q)
  (log : list ActionRecord) : Prop :=
  clock 0%nat <= clock 1%nat
  /\ Forall (fun a =>
              (clock 1%nat - clock 0%nat) * speed <= timestamp a / speed
              /\ timestamp a / speed <= TIMEOUT_MAX) log.

End Pass.

Module Scenario.

(** *** Concrete runs *)

Import Player.

(** The log of the specification's scenarios. *)
Definition demoLog : list ActionRecord :=
  [ mkAction "click" 0 "";
    mkAction "input" 1000 "";
    mkAction "navigation" 2500 "" ].

(** A sequence of calls on an object, each one on what the one before left
    behind. *)
Fixpoint calls {S} (ms : list (Method S unit)) (s : S) : S :=
  match ms with
  | [] => s
  | m :: r => calls r (after (m s))
  end.

(** A player with [demoLog] loaded at instant [0]. *)
Definition loaded (opts : Options) : EventStreamPlayer :=
  after (load (inr demoLog) false 0 (constructor opts)).

(** Paused at [currentTimestamp = 500]: played at instant [100], paused at
    [600], sought to [500] at [650]. *)
Definition pausedAt500 : EventStreamPlayer :=
  calls [play 100; pause 600; seekTo 500 650] (loaded defaultOptions).

(** Then the speed is set to [2] at instant [700] and playback resumes at
    instant [1000]. *)
Definition resumedAtDoubleSpeed : EventStreamPlayer :=
  calls [setPlaybackSpeed 2 700; play 1000] pausedAt500.

(** A sorted log whose last entry is due more than [2^31 - 1] ms after the
    start. *)
Definition longLog : list ActionRecord :=
  [ mkAction "click" 0 "";
    mkAction "input" 1000 "";
    mkAction "navigation" 3000000000 "" ].

(** A clock that reads [now] first and [now'] from then on. *)
Definition ticking (now now' : Q) : nat -> Q :=
  fun k => match k with O => now | S _ => now' end.

(** Looping at double speed: sought to the end of the log and played at
    instant [100]; then paused at [200]. *)
Definition loopingOptions : Options := mkOptions 2 false true false.

(** Paused without a seek: played at instant [100], paused at [600]. *)
Definition pausedOnce : EventStreamPlayer :=
  calls [play 100; pause 600] (loaded defaultOptions).

(** A player with the empty log loaded. *)
Definition loadedEmpty : EventStreamPlayer :=
  after (load (inr []) false 0 (constructor defaultOptions)).

(** That player as [play] hands it to [scheduleNextActions], with the speed
    already [2]. *)
Definition resuming : EventStreamPlayer :=
  Pass.entering 1000 (after (setPlaybackSpeed 2 700 pausedAt500)).

Definition playingPastTheEnd : EventStreamPlayer :=
  calls [seekTo 2500 50; play 100] (loaded loopingOptions).

Definition pausedPastTheEnd : EventStreamPlayer :=
  after (pause 200 playingPastTheEnd).

End Scenario.

Module Recording.

(** *** Concrete recordings *)

Import Writer.

(** A file system on which everything succeeds, and nothing is there yet. *)
Definition emptyDisk : Disk :=
  mkDisk (fun _ => None) (fun _ => None) [] [].

(** A file system on which the directory [rec] cannot be created: [mkdir]
    fails there with the given [code]. *)
Definition diskWithout (code : string) : Disk :=
  mkDisk (fun d => if String.eqb d "rec" then Some code else None)
    (fun _ => None) [] [].

Definition plainOptions : Options := mkOptions None false false.

Definition aClick : ActionRecord := mkAction "click" 0 "".

(** A recorder on [d], as [new ActionTrackingRecorder(page)] makes it. *)
Definition recorderOn (d : Disk) : Recorder.ActionTrackingRecorder :=
  Recorder.constructor Recorder.defaultRecorderOptions d.

(** One session on [d]: started at instant [0], stopped at instant [10]. *)
Definition afterOneSession (d : Disk) : Recorder.ActionTrackingRecorder :=
  after (Recorder.stop 10
           (after (Recorder.start posix "rec/session.json" 0 (recorderOn d)))).

(** The writer of that recorder: it has been stopped. *)
Definition stoppedWriter (d : Disk) : EventStreamWriter :=
  Recorder.writer (afterOneSession d).

(** A writer in its second session, with immediate writes: it was stopped
    once and then started on [rec/session.json]. *)
Definition secondSession : EventStreamWriter :=
  after (start posix "rec/session.json"
           (after (stop (after (onError
                                  (constructor (mkOptions None false true)
                                     emptyDisk)))))).

End Recording.

Module Steps.

(** *** [start], in two steps *)

Import Writer.

(** The writer once [start] has set [isWriting] and the two paths. *)
Definition starting (path : PathOps) (basePath : string)
  (w : EventStreamWriter) : EventStreamWriter :=
  set_actionLogPath
    (Some (match opt_actionLogPath (options w) with
           | Some s =>
               if String.eqb s "" then
                 join path (dirname path basePath)
                   (basename path basePath (extname path basePath)
                      ++ "_actions.json")%string
               else s
           | None =>
               join path (dirname path basePath)
                 (basename path basePath (extname path basePath)
                    ++ "_actions.json")%string
           end))
    (set_outputPath (Some basePath) (set_isWriting true w)).

(** [start] from the creation of the directories on. *)
Definition createDirectories (path : PathOps) (basePath : string)
  : Method EventStreamWriter unit :=
  d <- dirnameOf path (Some basePath) ;;
  ensureDirectoryExist d ;;
  w <- this ;;
  d <- dirnameOf path (actionLogPath w) ;;
  ensureDirectoryExist d ;;
  w <- this ;;
  (if captureVideo (options w) then initializeVideoWriter else ret tt) ;;
  w <- this ;;
  emit "writerStarted" (Paths (outputPath w) (actionLogPath w)).

End Steps.

Module Routing.

(** *** The recorder's event routing, and what the writer leaves *)

Import Writer.

(** The ['actionRecorded'] events among the emitted ones. *)
Definition isRecorded (e : Event) : bool :=
  String.eqb (name e) "actionRecorded".

(** What [appendToActionLog] takes as the existing log of the file [f]:
    its content, or the empty array when it cannot be read. *)
Definition existingLog (f : string) (d : Disk) : list ActionRecord :=
  match contentOf f (files d) with
  | Some log => log
  | None => []
  end.

(** [handleDOMClick(data)] of the collector, followed by the listener that
    [setupEventRouting] puts on ['action']: the click becomes an entry
    with the elapsed time as its timestamp and goes to
    [writer.recordAction].  [data] stands for the coordinates and the
    target of the click.  The listener does not wait for [recordAction]:
    here the call runs to its end before the next event, as it does in the
    source when [immediateActionWrites] is off, where it reaches no
    [await]. *)
Definition handleDOMClick (data : string) (now : Q)
  : Method Recorder.ActionTrackingRecorder unit :=
  r <- this ;;
  let actionData :=
    mkAction "click"
      (Collector.getElapsedTime now (Recorder.collector r)) data in
  Recorder.onCollector
    (assign (fun c =>
       Collector.mkCollector (Collector.startTimestamp c)
         (Collector.isCollecting c)
         (Collector.emitted c ++ [("action"%string, timestamp actionData)]))) ;;
  Recorder.onWriter (recordAction actionData).

(** The entry that a click at the instant [snd click] becomes when the
    recording clock started at [start]. *)
Definition clickAction (start : Q) (click : string * Q) : ActionRecord :=
  mkAction "click" (snd click - start) (fst click).

End Routing.

Module PlayerFacts.

Import Player Pass.

(** *** Numbers *)

Lemma Qltb_lt (x y : Q) : Qltb x y = true <-> x < y.
Proof.
  unfold Qltb. rewrite negb_true_iff. split.
  - intro H. apply Qnot_le_lt. intro Hle.
    apply Qle_bool_iff in Hle. congruence.
  - intro H. destruct (Qle_bool y x) eqn:E; [|reflexivity].
    apply Qle_bool_iff in E. exfalso. apply (Qlt_not_le _ _ H E).
Qed.

Lemma Qltb_ge (x y : Q) : Qltb x y = false <-> y <= x.
Proof.
  unfold Qltb. rewrite negb_false_iff. apply Qle_bool_iff.
Qed.

Lemma Qle_bool_false (x y : Q) : Qle_bool x y = false <-> y < x.
Proof.
  rewrite <- Qltb_lt. unfold Qltb. rewrite negb_true_iff. reflexivity.
Qed.

(** *** The host and the small methods *)

Lemma forEach_clearTimeout (ids : list nat) (p : EventStreamPlayer) :
  forEach clearTimeout ids p
  = Returned tt (set_timers (clearAll ids (timers p)) p).
Proof.
  revert p. induction ids as [|id ids IH]; intro p.
  - destruct p; reflexivity.
  - cbn [forEach]. unfold bind at 1. cbn [clearTimeout assign].
    rewrite IH. destruct p; reflexivity.
Qed.

Lemma clearAll_nil (ids : list nat) : clearAll ids [] = [].
Proof. induction ids as [|id ids IH]; [reflexivity | exact IH]. Qed.

Lemma clearScheduledActions_effect (p : EventStreamPlayer) :
  clearScheduledActions p
  = Returned tt
      (set_scheduledActions []
         (set_timers (clearAll (scheduledActions p) (timers p)) p)).
Proof.
  unfold clearScheduledActions, bind, this.
  rewrite forEach_clearTimeout. reflexivity.
Qed.

Lemma scheduleLoop_effect (now currentTime : Q) (rest : list ActionRecord) :
  forall (i : Z) (p : EventStreamPlayer),
    scheduleLoop now currentTime i rest p
    = Returned tt (passed now currentTime i rest p).
Proof.
  unfold passed. induction rest as [|a rest IH]; intros i p; cbn zeta.
  - destruct p; cbn. rewrite !app_nil_r, Nat.add_0_r. reflexivity.
  - cbn [scheduleLoop armed catchUpEvents cursorAfter].
    unfold bind at 1. cbn [this].
    fold (delayOf (playbackSpeed (options p)) currentTime a).
    fold (overdue (playbackSpeed (options p)) currentTime a).
    destruct (overdue (playbackSpeed (options p)) currentTime a) eqn:Hov.
    + destruct (debugMode (options p)) eqn:Hdbg;
        destruct p as [o l v c st pl pa ix sch el em ts nx];
        cbn in Hdbg |- *; rewrite IH; cbn; rewrite ?Hdbg, ?app_nil_r;
        cbn; rewrite <- ?app_assoc; reflexivity.
    + destruct p as [o l v c st pl pa ix sch el em ts nx];
        cbn; rewrite IH; cbn; rewrite <- !app_assoc; cbn.
      rewrite Nat.add_succ_r. reflexivity.
Qed.

(** *** The fields of the players that the methods leave

    One equation per field, collected in the rewriting base [player]; the
    proofs below read fields through them. *)

Create Rewrite HintDb player.

Lemma cleared_options (p : EventStreamPlayer) :
  options (cleared p) = options p.
Proof. reflexivity. Qed.
Lemma cleared_actionLog (p : EventStreamPlayer) :
  actionLog (cleared p) = actionLog p.
Proof. reflexivity. Qed.
Lemma cleared_videoPlayer (p : EventStreamPlayer) :
  videoPlayer (cleared p) = videoPlayer p.
Proof. reflexivity. Qed.
Lemma cleared_currentTimestamp (p : EventStreamPlayer) :
  currentTimestamp (cleared p) = currentTimestamp p.
Proof. reflexivity. Qed.
Lemma cleared_startTime (p : EventStreamPlayer) :
  startTime (cleared p) = startTime p.
Proof. reflexivity. Qed.
Lemma cleared_isPlaying (p : EventStreamPlayer) :
  isPlaying (cleared p) = isPlaying p.
Proof. reflexivity. Qed.
Lemma cleared_isPaused (p : EventStreamPlayer) :
  isPaused (cleared p) = isPaused p.
Proof. reflexivity. Qed.
Lemma cleared_actionIndex (p : EventStreamPlayer) :
  actionIndex (cleared p) = actionIndex p.
Proof. reflexivity. Qed.
Lemma cleared_scheduledActions (p : EventStreamPlayer) :
  scheduledActions (cleared p) = [].
Proof. reflexivity. Qed.
Lemma cleared_errorListener (p : EventStreamPlayer) :
  errorListener (cleared p) = errorListener p.
Proof. reflexivity. Qed.
Lemma cleared_emitted (p : EventStreamPlayer) :
  emitted (cleared p) = emitted p.
Proof. reflexivity. Qed.
Lemma cleared_timers (p : EventStreamPlayer) :
  timers (cleared p) = clearAll (scheduledActions p) (timers p).
Proof. reflexivity. Qed.
Lemma cleared_nextTimerId (p : EventStreamPlayer) :
  nextTimerId (cleared p) = nextTimerId p.
Proof. reflexivity. Qed.
Lemma passed_options (now cT : Q) (i : Z) (rest : list ActionRecord) (p : EventStreamPlayer) :
  options (passed now cT i rest p) = options p.
Proof. reflexivity. Qed.
Lemma passed_actionLog (now cT : Q) (i : Z) (rest : list ActionRecord) (p : EventStreamPlayer) :
  actionLog (passed now cT i rest p) = actionLog p.
Proof. reflexivity. Qed.
Lemma passed_videoPlayer (now cT : Q) (i : Z) (rest : list ActionRecord) (p : EventStreamPlayer) :
  videoPlayer (passed now cT i rest p) = videoPlayer p.
Proof. reflexivity. Qed.
Lemma passed_currentTimestamp (now cT : Q) (i : Z) (rest : list ActionRecord) (p : EventStreamPlayer) :
  currentTimestamp (passed now cT i rest p) = currentTimestamp p.
Proof. reflexivity. Qed.
Lemma passed_startTime (now cT : Q) (i : Z) (rest : list ActionRecord) (p : EventStreamPlayer) :
  startTime (passed now cT i rest p) = startTime p.
Proof. reflexivity. Qed.
Lemma passed_isPlaying (now cT : Q) (i : Z) (rest : list ActionRecord) (p : EventStreamPlayer) :
  isPlaying (passed now cT i rest p) = isPlaying p.
Proof. reflexivity. Qed.
Lemma passed_isPaused (now cT : Q) (i : Z) (rest : list ActionRecord) (p : EventStreamPlayer) :
  isPaused (passed now cT i rest p) = isPaused p.
Proof. reflexivity. Qed.
Lemma passed_actionIndex (now cT : Q) (i : Z) (rest : list ActionRecord) (p : EventStreamPlayer) :
  actionIndex (passed now cT i rest p) = cursorAfter (playbackSpeed (options p)) cT i rest (actionIndex p).
Proof. reflexivity. Qed.
Lemma passed_scheduledActions (now cT : Q) (i : Z) (rest : list ActionRecord) (p : EventStreamPlayer) :
  scheduledActions (passed now cT i rest p) = scheduledActions p ++ map timerId (armed now (playbackSpeed (options p)) cT (nextTimerId p) i rest).
Proof. reflexivity. Qed.
Lemma passed_errorListener (now cT : Q) (i : Z) (rest : list ActionRecord) (p : EventStreamPlayer) :
  errorListener (passed now cT i rest p) = errorListener p.
Proof. reflexivity. Qed.
Lemma passed_emitted (now cT : Q) (i : Z) (rest : list ActionRecord) (p : EventStreamPlayer) :
  emitted (passed now cT i rest p) = emitted p ++ catchUpEvents (debugMode (options p)) (playbackSpeed (options p)) cT rest.
Proof. reflexivity. Qed.
Lemma passed_timers (now cT : Q) (i : Z) (rest : list ActionRecord) (p : EventStreamPlayer) :
  timers (passed now cT i rest p) = timers p ++ armed now (playbackSpeed (options p)) cT (nextTimerId p) i rest.
Proof. reflexivity. Qed.
Lemma passed_nextTimerId (now cT : Q) (i : Z) (rest : list ActionRecord) (p : EventStreamPlayer) :
  nextTimerId (passed now cT i rest p) = (nextTimerId p + length (armed now (playbackSpeed (options p)) cT (nextTimerId p) i rest))%nat.
Proof. reflexivity. Qed.
Lemma entering_options (now : Q) (p : EventStreamPlayer) :
  options (entering now p) = options p.
Proof. unfold entering; destruct (isPaused p); reflexivity. Qed.
Lemma entering_actionLog (now : Q) (p : EventStreamPlayer) :
  actionLog (entering now p) = actionLog p.
Proof. unfold entering; destruct (isPaused p); reflexivity. Qed.
Lemma entering_videoPlayer (now : Q) (p : EventStreamPlayer) :
  videoPlayer (entering now p) = videoPlayer p.
Proof. unfold entering; destruct (isPaused p); reflexivity. Qed.
Lemma entering_currentTimestamp (now : Q) (p : EventStreamPlayer) :
  currentTimestamp (entering now p) = currentTimestamp p.
Proof. unfold entering; destruct (isPaused p); reflexivity. Qed.
Lemma entering_startTime (now : Q) (p : EventStreamPlayer) :
  startTime (entering now p) = now - currentTimestamp p / playbackSpeed (options p).
Proof. unfold entering; destruct (isPaused p); reflexivity. Qed.
Lemma entering_isPlaying (now : Q) (p : EventStreamPlayer) :
  isPlaying (entering now p) = true.
Proof. unfold entering; destruct (isPaused p); reflexivity. Qed.
Lemma entering_scheduledActions (now : Q) (p : EventStreamPlayer) :
  scheduledActions (entering now p) = scheduledActions p.
Proof. unfold entering; destruct (isPaused p); reflexivity. Qed.
Lemma entering_errorListener (now : Q) (p : EventStreamPlayer) :
  errorListener (entering now p) = errorListener p.
Proof. unfold entering; destruct (isPaused p); reflexivity. Qed.
Lemma entering_emitted (now : Q) (p : EventStreamPlayer) :
  emitted (entering now p) = emitted p.
Proof. unfold entering; destruct (isPaused p); reflexivity. Qed.
Lemma entering_timers (now : Q) (p : EventStreamPlayer) :
  timers (entering now p) = timers p.
Proof. unfold entering; destruct (isPaused p); reflexivity. Qed.
Lemma entering_nextTimerId (now : Q) (p : EventStreamPlayer) :
  nextTimerId (entering now p) = nextTimerId p.
Proof. unfold entering; destruct (isPaused p); reflexivity. Qed.
Lemma pausedFrom_options (now : Q) (p : EventStreamPlayer) :
  options (pausedFrom now p) = options p.
Proof. reflexivity. Qed.
Lemma pausedFrom_actionLog (now : Q) (p : EventStreamPlayer) :
  actionLog (pausedFrom now p) = actionLog p.
Proof. reflexivity. Qed.
Lemma pausedFrom_videoPlayer (now : Q) (p : EventStreamPlayer) :
  videoPlayer (pausedFrom now p) = videoPlayer p.
Proof. reflexivity. Qed.
Lemma pausedFrom_startTime (now : Q) (p : EventStreamPlayer) :
  startTime (pausedFrom now p) = startTime p.
Proof. reflexivity. Qed.
Lemma pausedFrom_isPlaying (now : Q) (p : EventStreamPlayer) :
  isPlaying (pausedFrom now p) = isPlaying p.
Proof. reflexivity. Qed.
Lemma pausedFrom_isPaused (now : Q) (p : EventStreamPlayer) :
  isPaused (pausedFrom now p) = true.
Proof. reflexivity. Qed.
Lemma pausedFrom_actionIndex (now : Q) (p : EventStreamPlayer) :
  actionIndex (pausedFrom now p) = actionIndex p.
Proof. reflexivity. Qed.
Lemma pausedFrom_scheduledActions (now : Q) (p : EventStreamPlayer) :
  scheduledActions (pausedFrom now p) = [].
Proof. reflexivity. Qed.
Lemma pausedFrom_errorListener (now : Q) (p : EventStreamPlayer) :
  errorListener (pausedFrom now p) = errorListener p.
Proof. reflexivity. Qed.
Lemma pausedFrom_timers (now : Q) (p : EventStreamPlayer) :
  timers (pausedFrom now p) = clearAll (scheduledActions p) (timers p).
Proof. reflexivity. Qed.
Lemma pausedFrom_nextTimerId (now : Q) (p : EventStreamPlayer) :
  nextTimerId (pausedFrom now p) = nextTimerId p.
Proof. reflexivity. Qed.
Lemma sought_options (ts : Q) (p : EventStreamPlayer) :
  options (sought ts p) = options p.
Proof. reflexivity. Qed.
Lemma sought_actionLog (ts : Q) (p : EventStreamPlayer) :
  actionLog (sought ts p) = actionLog p.
Proof. reflexivity. Qed.
Lemma sought_videoPlayer (ts : Q) (p : EventStreamPlayer) :
  videoPlayer (sought ts p) = videoPlayer p.
Proof. reflexivity. Qed.
Lemma sought_currentTimestamp (ts : Q) (p : EventStreamPlayer) :
  currentTimestamp (sought ts p) = ts.
Proof. reflexivity. Qed.
Lemma sought_startTime (ts : Q) (p : EventStreamPlayer) :
  startTime (sought ts p) = startTime p.
Proof. reflexivity. Qed.
Lemma sought_isPlaying (ts : Q) (p : EventStreamPlayer) :
  isPlaying (sought ts p) = isPlaying p.
Proof. reflexivity. Qed.
Lemma sought_isPaused (ts : Q) (p : EventStreamPlayer) :
  isPaused (sought ts p) = isPaused p.
Proof. reflexivity. Qed.
Lemma sought_actionIndex (ts : Q) (p : EventStreamPlayer) :
  actionIndex (sought ts p) = findActionIndex ts p.
Proof. reflexivity. Qed.
Lemma sought_scheduledActions (ts : Q) (p : EventStreamPlayer) :
  scheduledActions (sought ts p) = scheduledActions p.
Proof. reflexivity. Qed.
Lemma sought_errorListener (ts : Q) (p : EventStreamPlayer) :
  errorListener (sought ts p) = errorListener p.
Proof. reflexivity. Qed.
Lemma sought_emitted (ts : Q) (p : EventStreamPlayer) :
  emitted (sought ts p) = emitted p ++ [mkEvent "seek" (Position ts (findActionIndex ts p))].
Proof. reflexivity. Qed.
Lemma sought_timers (ts : Q) (p : EventStreamPlayer) :
  timers (sought ts p) = timers p.
Proof. reflexivity. Qed.
Lemma sought_nextTimerId (ts : Q) (p : EventStreamPlayer) :
  nextTimerId (sought ts p) = nextTimerId p.
Proof. reflexivity. Qed.
Lemma fired_options (i : Z) (a : ActionRecord) (p : EventStreamPlayer) :
  options (fired i a p) = options p.
Proof. reflexivity. Qed.
Lemma fired_actionLog (i : Z) (a : ActionRecord) (p : EventStreamPlayer) :
  actionLog (fired i a p) = actionLog p.
Proof. reflexivity. Qed.
Lemma fired_videoPlayer (i : Z) (a : ActionRecord) (p : EventStreamPlayer) :
  videoPlayer (fired i a p) = videoPlayer p.
Proof. reflexivity. Qed.
Lemma fired_currentTimestamp (i : Z) (a : ActionRecord) (p : EventStreamPlayer) :
  currentTimestamp (fired i a p) = currentTimestamp p.
Proof. reflexivity. Qed.
Lemma fired_startTime (i : Z) (a : ActionRecord) (p : EventStreamPlayer) :
  startTime (fired i a p) = startTime p.
Proof. reflexivity. Qed.
Lemma fired_isPlaying (i : Z) (a : ActionRecord) (p : EventStreamPlayer) :
  isPlaying (fired i a p) = isPlaying p.
Proof. reflexivity. Qed.
Lemma fired_isPaused (i : Z) (a : ActionRecord) (p : EventStreamPlayer) :
  isPaused (fired i a p) = isPaused p.
Proof. reflexivity. Qed.
Lemma fired_actionIndex (i : Z) (a : ActionRecord) (p : EventStreamPlayer) :
  actionIndex (fired i a p) = (i + 1)%Z.
Proof. reflexivity. Qed.
Lemma fired_scheduledActions (i : Z) (a : ActionRecord) (p : EventStreamPlayer) :
  scheduledActions (fired i a p) = scheduledActions p.
Proof. reflexivity. Qed.
Lemma fired_errorListener (i : Z) (a : ActionRecord) (p : EventStreamPlayer) :
  errorListener (fired i a p) = errorListener p.
Proof. reflexivity. Qed.
Lemma fired_emitted (i : Z) (a : ActionRecord) (p : EventStreamPlayer) :
  emitted (fired i a p) = emitted p ++ actionEvents a.
Proof. cbn; rewrite <- app_assoc; reflexivity. Qed.
Lemma fired_timers (i : Z) (a : ActionRecord) (p : EventStreamPlayer) :
  timers (fired i a p) = timers p.
Proof. reflexivity. Qed.
Lemma fired_nextTimerId (i : Z) (a : ActionRecord) (p : EventStreamPlayer) :
  nextTimerId (fired i a p) = nextTimerId p.
Proof. reflexivity. Qed.
Lemma stopped_options (p : EventStreamPlayer) :
  options (stopped p) = options p.
Proof. reflexivity. Qed.
Lemma stopped_actionLog (p : EventStreamPlayer) :
  actionLog (stopped p) = actionLog p.
Proof. reflexivity. Qed.
Lemma stopped_videoPlayer (p : EventStreamPlayer) :
  videoPlayer (stopped p) = videoPlayer p.
Proof. reflexivity. Qed.
Lemma stopped_currentTimestamp (p : EventStreamPlayer) :
  currentTimestamp (stopped p) = 0.
Proof. reflexivity. Qed.
Lemma stopped_startTime (p : EventStreamPlayer) :
  startTime (stopped p) = startTime p.
Proof. reflexivity. Qed.
Lemma stopped_isPlaying (p : EventStreamPlayer) :
  isPlaying (stopped p) = false.
Proof. reflexivity. Qed.
Lemma stopped_isPaused (p : EventStreamPlayer) : isPaused (stopped p) = false.
Proof. reflexivity. Qed.
Lemma stopped_actionIndex (p : EventStreamPlayer) :
  actionIndex (stopped p) = 0%Z.
Proof. reflexivity. Qed.
Lemma stopped_scheduledActions (p : EventStreamPlayer) :
  scheduledActions (stopped p) = [].
Proof. reflexivity. Qed.
Lemma stopped_errorListener (p : EventStreamPlayer) :
  errorListener (stopped p) = errorListener p.
Proof. reflexivity. Qed.
Lemma stopped_emitted (p : EventStreamPlayer) :
  emitted (stopped p) = emitted p ++ [mkEvent "stop" NoPayload].
Proof. reflexivity. Qed.
Lemma stopped_timers (p : EventStreamPlayer) :
  timers (stopped p) = clearAll (scheduledActions p) (timers p).
Proof. reflexivity. Qed.
Lemma stopped_nextTimerId (p : EventStreamPlayer) :
  nextTimerId (stopped p) = nextTimerId p.
Proof. reflexivity. Qed.

Lemma entering_isPaused (now : Q) (p : EventStreamPlayer) :
  isPaused (entering now p) = false.
Proof. unfold entering. destruct (isPaused p) eqn:E; [reflexivity | exact E]. Qed.

Lemma entering_actionIndex_resumed (now : Q) (p : EventStreamPlayer) :
  isPaused p = true -> actionIndex (entering now p) = actionIndex p.
Proof. intro H. unfold entering. rewrite H. reflexivity. Qed.

Lemma entering_actionIndex_fresh (now : Q) (p : EventStreamPlayer) :
  isPaused p = false ->
  actionIndex (entering now p) = findActionIndex (currentTimestamp p) p.
Proof. intro H. unfold entering. rewrite H. reflexivity. Qed.

(** [pause] sets [isPaused] before it reads the position, so the position
    it stores is the one already stored. *)
Lemma pausedFrom_currentTimestamp (now : Q) (p : EventStreamPlayer) :
  currentTimestamp (pausedFrom now p) = currentTimestamp p.
Proof.
  unfold pausedFrom, calculateCurrentTimestamp. cbn.
  destruct (isPlaying p); reflexivity.
Qed.

Lemma pausedFrom_emitted (now : Q) (p : EventStreamPlayer) :
  emitted (pausedFrom now p)
  = emitted p
      ++ [mkEvent "pause" (Position (currentTimestamp p) (actionIndex p))].
Proof.
  unfold pausedFrom, calculateCurrentTimestamp. cbn.
  destruct (isPlaying p); reflexivity.
Qed.

#[export] Hint Rewrite cleared_options cleared_actionLog cleared_videoPlayer
  cleared_currentTimestamp cleared_startTime cleared_isPlaying
  cleared_isPaused cleared_actionIndex cleared_scheduledActions
  cleared_errorListener cleared_emitted cleared_timers cleared_nextTimerId
  passed_options passed_actionLog passed_videoPlayer passed_currentTimestamp
  passed_startTime passed_isPlaying passed_isPaused passed_actionIndex
  passed_scheduledActions passed_errorListener passed_emitted passed_timers
  passed_nextTimerId entering_options entering_actionLog
  entering_videoPlayer entering_currentTimestamp entering_startTime
  entering_isPlaying entering_scheduledActions entering_errorListener
  entering_emitted entering_timers entering_nextTimerId pausedFrom_options
  pausedFrom_actionLog pausedFrom_videoPlayer pausedFrom_startTime
  pausedFrom_isPlaying pausedFrom_isPaused pausedFrom_actionIndex
  pausedFrom_scheduledActions pausedFrom_errorListener pausedFrom_timers
  pausedFrom_nextTimerId sought_options sought_actionLog sought_videoPlayer
  sought_currentTimestamp sought_startTime sought_isPlaying sought_isPaused
  sought_actionIndex sought_scheduledActions sought_errorListener
  sought_emitted sought_timers sought_nextTimerId fired_options
  fired_actionLog fired_videoPlayer fired_currentTimestamp fired_startTime
  fired_isPlaying fired_isPaused fired_actionIndex fired_scheduledActions
  fired_errorListener fired_emitted fired_timers fired_nextTimerId
  stopped_options stopped_actionLog stopped_videoPlayer
  stopped_currentTimestamp stopped_startTime stopped_isPlaying
  stopped_isPaused stopped_actionIndex stopped_scheduledActions
  stopped_errorListener stopped_emitted stopped_timers stopped_nextTimerId
  entering_isPaused pausedFrom_currentTimestamp pausedFrom_emitted
  : player.

(** Read the fields of the players that the methods leave. *)
Ltac assigned :=
  cbn [options actionLog videoPlayer currentTimestamp startTime isPlaying
       isPaused actionIndex scheduledActions errorListener emitted timers
       nextTimerId set_options set_actionLog set_videoPlayer
       set_currentTimestamp set_startTime set_isPlaying set_isPaused
       set_actionIndex set_scheduledActions set_errorListener set_emitted
       set_timers set_nextTimerId after threw returned].
Ltac fields := autorewrite with player.
Ltac fields_in H := autorewrite with player in H.

(** *** [scheduleNextActions], case by case *)

Lemma scheduleNextActionsAt_pass (d : nat) (now : Q) (p : EventStreamPlayer) :
  isPlaying p = true -> isPaused p = false -> atEnd p = false ->
  (0 <= actionIndex p)%Z ->
  scheduleNextActionsAt d now p
  = Returned tt
      (passed now (calculateCurrentTimestamp now p) (actionIndex p)
         (skipn (Z.to_nat (actionIndex p)) (actionLog p)) (cleared p)).
Proof.
  intros Hpl Hpa Hend Hix. rewrite <- scheduleLoop_effect.
  destruct d; cbn [scheduleNextActionsAt]; unfold bind at 1;
    rewrite clearScheduledActions_effect; fold (cleared p);
    unfold bind at 1; cbn [this];
    replace (isPlaying (cleared p)) with (isPlaying p) by reflexivity;
    replace (isPaused (cleared p)) with (isPaused p) by reflexivity;
    replace (atEnd (cleared p)) with (atEnd p) by reflexivity;
    rewrite Hpl, Hpa, Hend; cbn [negb orb];
    unfold scheduleUpcoming, bind, this;
    replace (actionIndex (cleared p)) with (actionIndex p) by reflexivity;
    (destruct (actionIndex p <? 0)%Z eqn:E; [apply Z.ltb_lt in E; lia|]);
    reflexivity.
Qed.

Lemma scheduleNextActionsAt_undefined (d : nat) (now : Q)
  (p : EventStreamPlayer) :
  isPlaying p = true -> isPaused p = false -> (actionIndex p < 0)%Z ->
  scheduleNextActionsAt d now p = Thrown TypeError (cleared p).
Proof.
  intros Hpl Hpa Hix.
  assert (Hend : atEnd p = false).
  { unfold atEnd. apply Z.leb_gt. lia. }
  destruct d; cbn [scheduleNextActionsAt]; unfold bind at 1;
    rewrite clearScheduledActions_effect; fold (cleared p);
    unfold bind at 1; cbn [this];
    replace (isPlaying (cleared p)) with (isPlaying p) by reflexivity;
    replace (isPaused (cleared p)) with (isPaused p) by reflexivity;
    replace (atEnd (cleared p)) with (atEnd p) by reflexivity;
    rewrite Hpl, Hpa, Hend; cbn [negb orb];
    unfold scheduleUpcoming, bind, this;
    replace (actionIndex (cleared p)) with (actionIndex p) by reflexivity;
    (destruct (actionIndex p <? 0)%Z eqn:E; [|apply Z.ltb_ge in E; lia]);
    reflexivity.
Qed.

Lemma scheduleNextActionsAt_idle (d : nat) (now : Q) (p : EventStreamPlayer) :
  negb (isPlaying p) || isPaused p || atEnd p = true ->
  atEnd p && loop (options p) = false ->
  scheduleNextActionsAt d now p = Returned tt (cleared p).
Proof.
  intros Hg Hl.
  destruct d; cbn [scheduleNextActionsAt]; unfold bind at 1;
    rewrite clearScheduledActions_effect; fold (cleared p);
    unfold bind at 1; cbn [this];
    replace (isPlaying (cleared p)) with (isPlaying p) by reflexivity;
    replace (isPaused (cleared p)) with (isPaused p) by reflexivity;
    replace (atEnd (cleared p)) with (atEnd p) by reflexivity;
    replace (options (cleared p)) with (options p) by reflexivity;
    rewrite Hg, Hl; reflexivity.
Qed.

(** The three cases together: what a pass that does not restart the loop
    leaves is the cleared player, or that player after the loop. *)
Lemma scheduleNextActionsAt_cases (d : nat) (now : Q) (p : EventStreamPlayer) :
  atEnd p && loop (options p) = false ->
  after (scheduleNextActionsAt d now p) = cleared p
  \/ exists cT i rest,
       after (scheduleNextActionsAt d now p) = passed now cT i rest (cleared p).
Proof.
  intro Hl.
  destruct (negb (isPlaying p) || isPaused p || atEnd p) eqn:Hg.
  - left. rewrite scheduleNextActionsAt_idle by assumption. reflexivity.
  - apply orb_false_iff in Hg. destruct Hg as [Hg Hend].
    apply orb_false_iff in Hg. destruct Hg as [Hpl Hpa].
    apply negb_false_iff in Hpl.
    destruct (Z_lt_le_dec (actionIndex p) 0) as [Hneg|Hpos].
    + left. rewrite scheduleNextActionsAt_undefined by assumption.
      reflexivity.
    + right. rewrite scheduleNextActionsAt_pass by assumption.
      do 3 eexists. reflexivity.
Qed.

Lemma same_position_refl (p : EventStreamPlayer) : same_position p p.
Proof. unfold same_position; auto 10. Qed.

(** A pass that does not restart the loop moves neither the position nor
    the mode. *)
Lemma scheduleNextActionsAt_position (d : nat) (now : Q)
  (p : EventStreamPlayer) :
  atEnd p && loop (options p) = false ->
  same_position p (after (scheduleNextActionsAt d now p)).
Proof.
  intro Hl.
  destruct (scheduleNextActionsAt_cases d now p Hl) as [E|(cT & i & rest & E)];
    rewrite E; unfold same_position; fields; auto 10.
Qed.

(** *** The depth of the nested calls *)

Lemma scheduleNextActionsAt_restart (d : nat) (now : Q)
  (p : EventStreamPlayer) :
  atEnd p = true -> loop (options p) = true ->
  scheduleNextActionsAt (S d) now p
  = scheduleNextActionsAt d now (restarted now (cleared p))
  /\ scheduleNextActionsAt 0 now p
     = Thrown RangeError (restarted now (cleared p)).
Proof.
  intros Hend Hl.
  split; cbn [scheduleNextActionsAt]; unfold bind at 1;
    rewrite clearScheduledActions_effect; fold (cleared p);
    unfold bind at 1; cbn [this];
    replace (atEnd (cleared p)) with (atEnd p) by reflexivity;
    replace (options (cleared p)) with (options p) by reflexivity;
    rewrite Hend, Hl, orb_true_r; reflexivity.
Qed.

Lemma scheduleNextActionsAt_no_restart (d : nat) (now : Q)
  (p : EventStreamPlayer) :
  atEnd p && loop (options p) = false ->
  scheduleNextActionsAt d now p = scheduleNextActionsAt 0 now p.
Proof.
  intro Hl.
  destruct (negb (isPlaying p) || isPaused p || atEnd p) eqn:Hg.
  - rewrite !scheduleNextActionsAt_idle by assumption. reflexivity.
  - apply orb_false_iff in Hg. destruct Hg as [Hg Hend].
    apply orb_false_iff in Hg. destruct Hg as [Hpl Hpa].
    apply negb_false_iff in Hpl.
    destruct (Z_lt_le_dec (actionIndex p) 0) as [Hneg|Hpos].
    + rewrite !scheduleNextActionsAt_undefined by assumption. reflexivity.
    + rewrite !scheduleNextActionsAt_pass by assumption. reflexivity.
Qed.

(** On a log with entries one nested call is the deepest there is: more
    room on the stack changes nothing. *)
Lemma scheduleNextActionsAt_depth (d : nat) (now : Q)
  (p : EventStreamPlayer) :
  actionLog p <> [] ->
  scheduleNextActionsAt (S d) now p = scheduleNextActions now p.
Proof.
  intro Hne. unfold scheduleNextActions.
  destruct (atEnd p && loop (options p)) eqn:Hl.
  - apply andb_true_iff in Hl. destruct Hl as [Hend Hl].
    destruct (scheduleNextActionsAt_restart d now p Hend Hl) as [E _].
    destruct (scheduleNextActionsAt_restart 0 now p Hend Hl) as [E0 _].
    rewrite E, E0. apply scheduleNextActionsAt_no_restart.
    replace (atEnd (restarted now (cleared p))) with false;
      [reflexivity|].
    symmetry. unfold atEnd.
    replace (actionLog (restarted now (cleared p))) with (actionLog p)
      by reflexivity.
    replace (actionIndex (restarted now (cleared p))) with 0%Z
      by reflexivity.
    apply Z.leb_gt. destruct (actionLog p); [congruence|cbn [length]; lia].
  - rewrite (scheduleNextActionsAt_no_restart (S d)),
      (scheduleNextActionsAt_no_restart 1) by exact Hl.
    reflexivity.
Qed.

(** On an empty log with looping on the nested calls never end: whatever
    room the stack has, the call ends in a [RangeError]. *)
Lemma scheduleNextActionsAt_empty (d : nat) (now : Q) :
  forall p : EventStreamPlayer,
    actionLog p = [] -> (0 <= actionIndex p)%Z -> loop (options p) = true ->
    threw (scheduleNextActionsAt d now p) = Some RangeError.
Proof.
  induction d as [|d IH]; intros p Hlog Hix Hl;
    (assert (Hend : atEnd p = true)
       by (unfold atEnd; rewrite Hlog; apply Z.leb_le; cbn [length]; lia)).
  - destruct (scheduleNextActionsAt_restart 0 now p Hend Hl) as [_ E0].
    rewrite E0. reflexivity.
  - destruct (scheduleNextActionsAt_restart d now p Hend Hl) as [E _].
    rewrite E. apply IH; [exact Hlog | cbn; lia | exact Hl].
Qed.

(** *** [play], [pause], [stop] and [seekTo], unfolded *)

Lemma play_unfold (now : Q) (p : EventStreamPlayer) :
  play now p
  = if isPlaying p && negb (isPaused p) then Returned tt p
    else scheduleAndAnnounce now (entering now p).
Proof.
  unfold play, scheduleAndAnnounce, entering, bind, this, assign.
  destruct (isPlaying p && negb (isPaused p)); [reflexivity|].
  destruct (isPaused p); reflexivity.
Qed.

Lemma pause_unfold (now : Q) (p : EventStreamPlayer) :
  pause now p
  = if negb (isPlaying p) || isPaused p then Returned tt p
    else Returned tt (pausedFrom now p).
Proof.
  unfold pause, pausedFrom. unfold bind at 1. cbn [this].
  destruct (negb (isPlaying p) || isPaused p); [reflexivity|].
  unfold bind at 1. cbn [assign]. unfold bind at 1. cbn [assign].
  unfold bind at 1. rewrite clearScheduledActions_effect.
  reflexivity.
Qed.

Lemma stop_unfold (p : EventStreamPlayer) :
  stop p = if negb (isPlaying p) then Returned tt p
           else Returned tt (stopped p).
Proof.
  unfold stop, stopped. unfold bind at 1. cbn [this].
  destruct (negb (isPlaying p)); [reflexivity|].
  do 4 (unfold bind at 1; cbn [assign]).
  unfold bind at 1. rewrite clearScheduledActions_effect. reflexivity.
Qed.

Lemma seekTo_unfold (t now : Q) (p : EventStreamPlayer) :
  seekTo t now p
  = if isPlaying p && negb (isPaused p)
    then play now (sought (clamp t (getDuration p)) (pausedFrom now p))
    else Returned tt (sought (clamp t (getDuration p)) p).
Proof.
  unfold seekTo. unfold bind at 1. cbn [this].
  destruct (isPlaying p && negb (isPaused p)) eqn:E.
  - unfold bind at 1. rewrite pause_unfold.
    apply andb_true_iff in E. destruct E as [E1 E2].
    apply negb_true_iff in E2. rewrite E1, E2. reflexivity.
  - reflexivity.
Qed.

(** What [play] leaves after its call of [scheduleNextActions]: the player
    that call left, with ['play'] emitted if the call returned. *)
Lemma scheduleAndAnnounce_after (now : Q) (p : EventStreamPlayer) :
  let q := after (scheduleNextActions now p) in
  after (scheduleAndAnnounce now p) = q
  \/ after (scheduleAndAnnounce now p)
     = set_emitted
         (emitted q
            ++ [mkEvent "play" (Position (currentTimestamp q) (actionIndex q))])
         q.
Proof.
  cbn zeta. unfold scheduleAndAnnounce, bind.
  destruct (scheduleNextActions now p) as [[] q|e q];
    [right | left]; reflexivity.
Qed.

Lemma scheduleAndAnnounce_position (now : Q) (p : EventStreamPlayer) :
  atEnd p && loop (options p) = false ->
  same_position p (after (scheduleAndAnnounce now p)).
Proof.
  intro Hl.
  pose proof (scheduleNextActionsAt_position 1 now p Hl) as Hs.
  fold (scheduleNextActions now) in Hs.
  destruct (scheduleAndAnnounce_after now p) as [E|E]; rewrite E;
    [exact Hs|].
  generalize dependent (after (scheduleNextActions now p)).
  intros q Hs _. exact Hs.
Qed.

Lemma play_resumed (now : Q) (p : EventStreamPlayer) :
  isPaused p = true -> atEnd p && loop (options p) = false ->
  same_position (entering now p) (after (play now p)).
Proof.
  intros Hp Hl. rewrite play_unfold, Hp, andb_false_r.
  apply scheduleAndAnnounce_position.
  unfold atEnd. fields. rewrite entering_actionIndex_resumed by exact Hp.
  exact Hl.
Qed.

(** *** [findActionIndex] and the clamp *)

Lemma findIndexFrom_range {A : Type} (f : A -> bool) (l : list A) (i : Z) :
  findIndexFrom f l i = (-1)%Z
  \/ (i <= findIndexFrom f l i < i + Z.of_nat (length l))%Z.
Proof.
  revert i. induction l as [|a l IH]; intro i; cbn [findIndexFrom length].
  - left; reflexivity.
  - destruct (f a).
    + right. lia.
    + destruct (IH (i + 1)%Z) as [H|H]; [left; exact H | right; lia].
Qed.

Lemma findIndexFrom_none {A : Type} (f : A -> bool) (l : list A) (i : Z) :
  (forall a, In a l -> f a = false) -> findIndexFrom f l i = (-1)%Z.
Proof.
  revert i. induction l as [|a l IH]; intros i H; cbn [findIndexFrom].
  - reflexivity.
  - rewrite (H a (or_introl eq_refl)). apply IH.
    intros b Hb. apply H. right. exact Hb.
Qed.

Lemma findActionIndex_empty (ts : Q) (p : EventStreamPlayer) :
  actionLog p = [] -> findActionIndex ts p = (-1)%Z.
Proof. intro H. unfold findActionIndex. rewrite H. reflexivity. Qed.

Lemma findActionIndex_before_end (ts : Q) (p : EventStreamPlayer) :
  (Z.of_nat (length (actionLog p)) <=? findActionIndex ts p)%Z = false.
Proof.
  apply Z.leb_gt. unfold findActionIndex, findIndex.
  destruct (findIndexFrom_range
              (fun action => Qle_bool ts (timestamp action)) (actionLog p) 0)
    as [H|H]; lia.
Qed.

Lemma getDuration_empty (p : EventStreamPlayer) :
  actionLog p = [] -> getDuration p = 0.
Proof. intro H. unfold getDuration. rewrite H. reflexivity. Qed.

Lemma getDuration_last (p : EventStreamPlayer) (l : list ActionRecord)
  (a : ActionRecord) :
  actionLog p = l ++ [a] -> getDuration p = timestamp a.
Proof.
  intro H. unfold getDuration. rewrite H, length_app. cbn [length].
  replace (length l + 1 =? 0)%nat with false
    by (symmetry; apply Nat.eqb_neq; lia).
  replace (length l + 1 - 1)%nat with (length l) by lia.
  rewrite nth_error_app2 by lia. rewrite Nat.sub_diag. reflexivity.
Qed.

Lemma clamp_range (t d : Q) : 0 <= d -> 0 <= clamp t d /\ clamp t d <= d.
Proof.
  intro Hd. unfold clamp. split.
  - apply Q.le_max_l.
  - apply Q.max_lub; [exact Hd | apply Q.le_min_r].
Qed.

(** *** Seeking *)

(** Claim C8.  [seekTo(t)] stores [t] clamped to [[0, duration]], where
    [duration] is the timestamp of the last entry of the log and [0] for an
    empty log; and called on a paused player it sets [currentTimestamp] and
    [actionIndex], emits ['seek'] and nothing else, and leaves the player
    paused: no timer is armed and the anchor [startTime] is not moved. *)
Theorem seekTo_clamps_and_stays_paused (t now : Q) (p : EventStreamPlayer) :
  let q := after (seekTo t now p) in
  let target := Qmax 0 (Qmin t (getDuration p)) in
  currentTimestamp q = target
  /\ (actionLog p = [] -> getDuration p = 0)
  /\ (forall l a, actionLog p = l ++ [a] -> getDuration p = timestamp a)
  /\ (0 <= getDuration p -> 0 <= target /\ target <= getDuration p)
  /\ (isPaused p = true ->
      seekTo t now p = Returned tt q
      /\ isPaused q = true /\ isPlaying q = isPlaying p
      /\ actionIndex q = findActionIndex target p
      /\ startTime q = startTime p /\ timers q = timers p
      /\ emitted q
         = emitted p
             ++ [mkEvent "seek" (Position target (findActionIndex target p))]).
Proof.
  cbn zeta. fold (clamp t (getDuration p)). rewrite seekTo_unfold.
  generalize (clamp_range t (getDuration p)).
  generalize (clamp t (getDuration p)) as c. intros c Hc.
  split; [|split; [|split; [|split]]].
  - destruct (isPlaying p && negb (isPaused p)) eqn:E;
      [|cbn [after]; fields; reflexivity].
    destruct (play_resumed now (sought c (pausedFrom now p)))
      as (_ & _ & H & _).
    + fields. reflexivity.
    + unfold atEnd. fields.
      replace (findActionIndex c (pausedFrom now p))
        with (findActionIndex c p) by reflexivity.
      rewrite findActionIndex_before_end. reflexivity.
    + rewrite H. fields. reflexivity.
  - apply getDuration_empty.
  - intros l a. apply getDuration_last.
  - exact Hc.
  - intro Hp. rewrite Hp, andb_false_r. cbn [after].
    fields. auto 10.
Qed.

(** *** The cursor when nothing is left to play *)

(** Claim C9.  [findActionIndex(t)] is [-1] when no entry of the log has a
    timestamp of [t] or more; so on an empty log [seekTo] and a [play()]
    from the stopped state leave [actionIndex] at [-1] (and that [play()]
    then throws on [actionLog[-1].timestamp]). *)
Theorem findActionIndex_minus_one :
  (forall (t : Q) (p : EventStreamPlayer),
      (forall a, In a (actionLog p) -> ~ t <= timestamp a) ->
      findActionIndex t p = (-1)%Z)
  /\ (forall (t now : Q) (p : EventStreamPlayer),
         actionLog p = [] -> actionIndex (after (seekTo t now p)) = (-1)%Z)
  /\ (forall (now : Q) (p : EventStreamPlayer),
         actionLog p = [] -> isPlaying p = false -> isPaused p = false ->
         actionIndex (after (play now p)) = (-1)%Z
         /\ threw (play now p) = Some TypeError).
Proof.
  assert (Hthrow : forall now q,
             actionIndex (entering now q) = (-1)%Z ->
             scheduleAndAnnounce now (entering now q)
             = Thrown TypeError (cleared (entering now q))).
  { intros now q Hi. unfold scheduleAndAnnounce, bind, scheduleNextActions.
    rewrite scheduleNextActionsAt_undefined; [reflexivity | | |].
    - apply entering_isPlaying.
    - apply entering_isPaused.
    - rewrite Hi. lia. }
  split; [|split].
  - intros t p H. unfold findActionIndex, findIndex.
    apply findIndexFrom_none. intros a Ha.
    destruct (Qle_bool t (timestamp a)) eqn:E; [|reflexivity].
    apply Qle_bool_iff in E. destruct (H a Ha E).
  - intros t now p Hl. rewrite seekTo_unfold.
    generalize (clamp t (getDuration p)) as c. intro c.
    destruct (isPlaying p && negb (isPaused p)) eqn:E.
    + assert (Hlog : actionLog (pausedFrom now p) = [])
        by (fields; exact Hl).
      assert (Hps : isPaused (pausedFrom now p) = true)
        by (fields; reflexivity).
      generalize dependent (pausedFrom now p). intros s Hlog Hps.
      assert (Hp : isPaused (sought c s) = true) by (fields; exact Hps).
      rewrite play_unfold, Hp, andb_false_r.
      assert (Hi : actionIndex (entering now (sought c s)) = (-1)%Z).
      { rewrite entering_actionIndex_resumed by exact Hp.
        fields. apply findActionIndex_empty. exact Hlog. }
      rewrite (Hthrow _ _ Hi). cbn [after]. fields. exact Hi.
    + cbn [after]. fields. apply findActionIndex_empty. exact Hl.
  - intros now p Hl Hpl Hpa. rewrite play_unfold, Hpl. cbn [andb].
    assert (Hi : actionIndex (entering now p) = (-1)%Z).
    { rewrite entering_actionIndex_fresh by exact Hpa.
      apply findActionIndex_empty. exact Hl. }
    rewrite (Hthrow _ _ Hi). cbn [after threw]. fields.
    split; [exact Hi | reflexivity].
Qed.

(** *** Changing the speed *)

(** Claim C10.  For a speed [s > 0], [setPlaybackSpeed(s)] on a paused
    player stores the speed and emits ['speedChanged'], and changes no other
    field: position, cursor, anchor, mode and pending timers stay. *)
Theorem setPlaybackSpeed_paused (s now : Q) (p : EventStreamPlayer) :
  0 < s -> isPaused p = true ->
  let q := after (setPlaybackSpeed s now p) in
  setPlaybackSpeed s now p = Returned tt q
  /\ options q = set_playbackSpeed s (options p)
  /\ playbackSpeed (options q) = s
  /\ emitted q = emitted p ++ [mkEvent "speedChanged" (Speed s)]
  /\ currentTimestamp q = currentTimestamp p
  /\ actionIndex q = actionIndex p
  /\ startTime q = startTime p
  /\ isPlaying q = isPlaying p
  /\ isPaused q = true
  /\ timers q = timers p
  /\ scheduledActions q = scheduledActions p
  /\ actionLog q = actionLog p.
Proof.
  intros Hs Hp. cbn zeta.
  assert (E : setPlaybackSpeed s now p
              = Returned tt
                  (set_emitted (emitted p ++ [mkEvent "speedChanged" (Speed s)])
                     (set_options (set_playbackSpeed s (options p)) p))).
  { unfold setPlaybackSpeed.
    replace (Qle_bool s 0) with false
      by (symmetry; apply Qle_bool_false; exact Hs).
    unfold bind at 1. cbn [this]. rewrite Hp, andb_false_r. reflexivity. }
  rewrite E. assigned. rewrite Hp. auto 20.
Qed.

(** *** Pause and resume *)

(** What the resume does keep.  From a playing player with a positive
    speed, [pause()] and then [play()], any time later, leave the player
    playing with [calculateCurrentTimestamp()], at the instant of the
    resume, equal to the [currentTimestamp] that is stored after the pause,
    whatever the two instants are; provided the resume does not restart a
    loop, which it does when looping is on and the cursor is at the end of
    the log.  The stored [currentTimestamp] is not the position that the
    playback had reached ([pause_loses_the_position]). *)
Lemma resume_at_paused_position (now1 now2 : Q) (p : EventStreamPlayer) :
  isPlaying p = true -> isPaused p = false ->
  0 < playbackSpeed (options p) ->
  atEnd p && loop (options p) = false ->
  let paused := after (pause now1 p) in
  let resumed := after (play now2 paused) in
  isPaused paused = true
  /\ isPlaying resumed = true /\ isPaused resumed = false
  /\ calculateCurrentTimestamp now2 resumed == currentTimestamp paused.
Proof.
  intros Hpl Hpa Hs Hl. cbn zeta.
  rewrite pause_unfold, Hpl, Hpa. cbn [negb orb after].
  assert (Hp : isPaused (pausedFrom now1 p) = true) by (fields; reflexivity).
  assert (Hl' : atEnd (pausedFrom now1 p)
                && loop (options (pausedFrom now1 p)) = false)
    by (unfold atEnd; fields; exact Hl).
  assert (Hs' : 0 < playbackSpeed (options (pausedFrom now1 p)))
    by (fields; exact Hs).
  generalize dependent (pausedFrom now1 p). intros s Hp Hl' Hs'.
  destruct (play_resumed now2 s Hp Hl') as (Ho & _ & Hc & Hst & Hip & Hia).
  generalize dependent (after (play now2 s)). intros r Ho Hc Hst Hip Hia.
  fields_in Ho. fields_in Hc. fields_in Hst. fields_in Hip. fields_in Hia.
  split; [exact Hp|]. split; [exact Hip|]. split; [exact Hia|].
  unfold calculateCurrentTimestamp. rewrite Hip, Hia, Hst, Ho. cbn [negb].
  assert (Hne : ~ playbackSpeed (options s) == 0).
  { intro E. rewrite E in Hs'. apply (Qlt_irrefl 0 Hs'). }
  field. exact Hne.
Qed.

(** Looping at double speed, a player that was sought to the end of the
    log, played, and paused, resumes at [0] and not at the [2500] that is
    stored after the pause: the resume restarts the loop. *)
Lemma resume_restarts_a_finished_loop :
  isPlaying Scenario.playingPastTheEnd = true
  /\ isPaused Scenario.playingPastTheEnd = false
  /\ currentTimestamp (after (pause 200 Scenario.playingPastTheEnd)) == 2500
  /\ calculateCurrentTimestamp 900
       (after (play 900 (after (pause 200 Scenario.playingPastTheEnd)))) == 0
  /\ ~ calculateCurrentTimestamp 900
         (after (play 900 (after (pause 200 Scenario.playingPastTheEnd))))
       == currentTimestamp (after (pause 200 Scenario.playingPastTheEnd)).
Proof.
  vm_compute. repeat split; try reflexivity.
  intro H. discriminate H.
Qed.

(** Claim C4, on the code.  The scenario's log is loaded with the default
    options, [play()] is called at instant [100] and the timer of the click
    fires; [pause()] is called at instant [600], when the playback has
    reached the position [500].  [pause()] sets [isPaused] before it reads
    [calculateCurrentTimestamp()], which then returns the stored
    [currentTimestamp] instead of reading the clock: the position stored at
    the pause is the old [0], not [500], and ['pause'] reports [0].  After
    [play()] at instant [5000] the position is [0]: the playback has jumped
    back by [500], and the timer of the input entry (timestamp [1000]) is
    armed for [1000] ms, not for [500]. *)
Theorem pause_loses_the_position :
  let playing :=
    after (runTimers 1 (after (play 100 (Scenario.loaded defaultOptions)))) in
  let paused := after (pause 600 playing) in
  let resumed := after (play 5000 paused) in
  isPlaying playing = true /\ isPaused playing = false
  /\ actionsOf (emitted playing) = [mkAction "click" 0 ""]
  /\ calculateCurrentTimestamp 600 playing == 500
  /\ threw (pause 600 playing) = None
  /\ isPaused paused = true
  /\ currentTimestamp paused == 0
  /\ last (emitted paused) (mkEvent "" NoPayload)
     = mkEvent "pause" (Position 0 1)
  /\ threw (play 5000 paused) = None
  /\ isPlaying resumed = true /\ isPaused resumed = false
  /\ calculateCurrentTimestamp 5000 resumed == 0
  /\ ~ calculateCurrentTimestamp 5000 resumed == 500
  /\ (exists t,
         In t (timers resumed)
         /\ firesAction t = mkAction "input" 1000 ""
         /\ armedAt t == 5000 /\ delay t == 1000 /\ ~ delay t == 500).
Proof.
  cbv zeta.
  split; [vm_compute; reflexivity|].
  split; [vm_compute; reflexivity|].
  split; [vm_compute; reflexivity|].
  split; [vm_compute; reflexivity|].
  split; [vm_compute; reflexivity|].
  split; [vm_compute; reflexivity|].
  split; [vm_compute; reflexivity|].
  split; [vm_compute; reflexivity|].
  split; [vm_compute; reflexivity|].
  split; [vm_compute; reflexivity|].
  split; [vm_compute; reflexivity|].
  split; [vm_compute; reflexivity|].
  split; [vm_compute; intro H; discriminate H|].
  vm_compute. eexists. split; [left; reflexivity|].
  repeat split. intro H. discriminate H.
Qed.

(** *** The delay after a change of speed *)

(** Claim C1, on the code.  The player is paused at [currentTimestamp = 500]
    on the scenario's log, the speed is set to [2], and [play()] is called
    at instant [1000]: the timer of the navigation entry (timestamp [2500])
    is armed for [2500 / 2 - 500 = 750] ms, not for [(2500 - 500) / 2 =
    1000] ms; when it fires, at instant [1750], the player's own clock
    reads [2000]. *)
Theorem navigation_delay_at_double_speed :
  isPlaying Scenario.pausedAt500 = true
  /\ isPaused Scenario.pausedAt500 = true
  /\ currentTimestamp Scenario.pausedAt500 == 500
  /\ playbackSpeed (options Scenario.resumedAtDoubleSpeed) == 2
  /\ (exists t,
         In t (timers Scenario.resumedAtDoubleSpeed)
         /\ firesAction t = mkAction "navigation" 2500 ""
         /\ armedAt t == 1000 /\ delay t == 750 /\ ~ delay t == 1000
         /\ due t == 1750
         /\ calculateCurrentTimestamp (due t) Scenario.resumedAtDoubleSpeed
            == 2000)
  /\ actionsOf (emitted (after (runTimers 2 Scenario.resumedAtDoubleSpeed)))
     = [mkAction "input" 1000 ""; mkAction "navigation" 2500 ""].
Proof.
  split; [vm_compute; reflexivity|].
  split; [vm_compute; reflexivity|].
  split; [vm_compute; reflexivity|].
  split; [vm_compute; reflexivity|].
  split; [|vm_compute; reflexivity].
  exists (mkTimer 4 1000 (3000 # 4) 2 (mkAction "navigation" 2500 "")).
  split; [vm_compute; right; left; reflexivity|].
  vm_compute. repeat split; try reflexivity.
  intro H. discriminate H.
Qed.

(** *** One scheduling pass *)

Lemma overdue_lt (speed currentTime : Q) (a : ActionRecord) :
  overdue speed currentTime a = true
  <-> timestamp a / speed - currentTime < 0.
Proof. unfold overdue, delayOf. apply Qltb_lt. Qed.

Lemma overdue_ge (speed currentTime : Q) (a : ActionRecord) :
  overdue speed currentTime a = false
  <-> 0 <= timestamp a / speed - currentTime.
Proof. unfold overdue, delayOf. apply Qltb_ge. Qed.

Lemma catchUpEvents_off (speed currentTime : Q) (rest : list ActionRecord) :
  catchUpEvents false speed currentTime rest = [].
Proof.
  induction rest as [|a r IH]; cbn [catchUpEvents]; [reflexivity|].
  rewrite andb_false_r. exact IH.
Qed.

Lemma catchUpEvents_in (speed currentTime : Q) (rest : list ActionRecord)
  (k : nat) (a : ActionRecord) :
  nth_error rest k = Some a -> overdue speed currentTime a = true ->
  In (mkEvent "action" (Action a)) (catchUpEvents true speed currentTime rest).
Proof.
  revert k. induction rest as [|b r IH]; intros k Hk Ho.
  - destruct k; discriminate Hk.
  - cbn [catchUpEvents]. apply in_or_app. destruct k as [|k].
    + injection Hk as ->. left. rewrite Ho. left. reflexivity.
    + right. exact (IH k Hk Ho).
Qed.

Lemma armed_in (now speed currentTime : Q) (rest : list ActionRecord) :
  forall (id : nat) (i : Z) (k : nat) (a : ActionRecord),
    nth_error rest k = Some a -> overdue speed currentTime a = false ->
    exists t,
      In t (armed now speed currentTime id i rest)
      /\ firesIndex t = (i + Z.of_nat k)%Z /\ firesAction t = a
      /\ armedAt t = now /\ delay t = delayOf speed currentTime a.
Proof.
  induction rest as [|b r IH]; intros id i k a Hk Ho.
  - destruct k; discriminate Hk.
  - cbn [armed]. destruct k as [|k].
    + injection Hk as ->. rewrite Ho. eexists. split; [left; reflexivity|].
      cbn. repeat split. lia.
    + destruct (overdue speed currentTime b).
      * destruct (IH id (i + 1)%Z k a Hk Ho) as (t & Hin & Hi & Hrest).
        exists t. split; [exact Hin|]. split; [lia | exact Hrest].
      * destruct (IH (S id) (i + 1)%Z k a Hk Ho) as (t & Hin & Hi & Hrest).
        exists t. split; [right; exact Hin|]. split; [lia | exact Hrest].
Qed.

Lemma cursorAfter_bounds (speed currentTime : Q) (rest : list ActionRecord) :
  forall (i c : Z),
    cursorAfter speed currentTime i rest c = c
    \/ (i < cursorAfter speed currentTime i rest c)%Z.
Proof.
  induction rest as [|b r IH]; intros i c; cbn [cursorAfter].
  - left; reflexivity.
  - destruct (overdue speed currentTime b).
    + right. destruct (IH (i + 1)%Z (i + 1)%Z) as [H|H]; lia.
    + destruct (IH (i + 1)%Z c) as [H|H]; [left; exact H | right; lia].
Qed.

Lemma cursorAfter_past (speed currentTime : Q) (rest : list ActionRecord) :
  forall (i c : Z) (k : nat) (a : ActionRecord),
    nth_error rest k = Some a -> overdue speed currentTime a = true ->
    (i + Z.of_nat k < cursorAfter speed currentTime i rest c)%Z.
Proof.
  induction rest as [|b r IH]; intros i c k a Hk Ho.
  - destruct k; discriminate Hk.
  - cbn [cursorAfter]. destruct k as [|k].
    + injection Hk as ->. rewrite Ho.
      destruct (cursorAfter_bounds speed currentTime r (i + 1) (i + 1))
        as [H|H]; lia.
    + pose proof (IH (i + 1)%Z
                    (if overdue speed currentTime b then (i + 1)%Z else c)
                    k a Hk Ho).
      lia.
Qed.

Lemma at_index_skipn {A : Type} (l : list A) (i0 i : Z) (a : A) :
  (0 <= i0 <= i)%Z -> at_index l i = Some a ->
  nth_error (skipn (Z.to_nat i0) l) (Z.to_nat (i - i0)) = Some a.
Proof.
  intros Hi H. unfold at_index in H.
  destruct (i <? 0)%Z eqn:E; [apply Z.ltb_lt in E; lia|].
  rewrite nth_error_skipn.
  replace (Z.to_nat i0 + Z.to_nat (i - i0))%nat with (Z.to_nat i) by lia.
  exact H.
Qed.

Lemma catchUpEvents_in_typed (speed currentTime : Q)
  (rest : list ActionRecord) (k : nat) (a : ActionRecord) :
  nth_error rest k = Some a -> overdue speed currentTime a = true ->
  In (mkEvent ("action:" ++ type a) (Action a))
     (catchUpEvents true speed currentTime rest).
Proof.
  revert k. induction rest as [|b r IH]; intros k Hk Ho.
  - destruct k; discriminate Hk.
  - cbn [catchUpEvents]. apply in_or_app. destruct k as [|k].
    + injection Hk as ->. left. rewrite Ho. right. left. reflexivity.
    + right. exact (IH k Hk Ho).
Qed.

(** Claim C3.  A pass of [scheduleNextActions] on a playing player, over the
    entries from [actionIndex] on: an entry whose delay [timestamp /
    playbackSpeed - calculateCurrentTimestamp()] is negative is emitted in
    that call if and only if [debugMode] is on, and the cursor ends beyond
    it; an entry whose delay is not negative gets a timer armed at this
    instant for that delay, which will emit that entry. *)
Theorem scheduleNextActions_each_entry (now : Q) (p : EventStreamPlayer) :
  isPlaying p = true -> isPaused p = false -> (0 <= actionIndex p)%Z ->
  let q := after (scheduleNextActions now p) in
  let currentTime := calculateCurrentTimestamp now p in
  forall (i : Z) (action : ActionRecord),
    (actionIndex p <= i)%Z -> at_index (actionLog p) i = Some action ->
    let d := timestamp action / playbackSpeed (options p) - currentTime in
    threw (scheduleNextActions now p) = None
    /\ (d < 0 ->
        (exists new,
            emitted q = emitted p ++ new
            /\ (In (mkEvent "action" (Action action)) new
                <-> debugMode (options p) = true)
            /\ (In (mkEvent ("action:" ++ type action) (Action action)) new
                <-> debugMode (options p) = true))
        /\ (i < actionIndex q)%Z)
    /\ (0 <= d ->
        exists t,
          In t (timers q) /\ In (timerId t) (scheduledActions q)
          /\ firesIndex t = i /\ firesAction t = action
          /\ armedAt t = now /\ delay t = d).
Proof.
  intros Hpl Hpa Hix. cbn zeta. intros i action Hi Hat.
  assert (Hend : atEnd p = false).
  { unfold atEnd. apply Z.leb_gt. unfold at_index in Hat.
    destruct (i <? 0)%Z; [discriminate Hat|].
    assert (Z.to_nat i < length (actionLog p))%nat
      by (apply nth_error_Some; congruence).
    lia. }
  unfold scheduleNextActions.
  rewrite scheduleNextActionsAt_pass by assumption. cbn [after threw].
  set (speed := playbackSpeed (options p)).
  set (cT := calculateCurrentTimestamp now p).
  set (rest := skipn (Z.to_nat (actionIndex p)) (actionLog p)).
  assert (Hk : nth_error rest (Z.to_nat (i - actionIndex p)) = Some action)
    by (apply at_index_skipn; [lia | exact Hat]).
  fields. fold speed.
  split; [reflexivity|]. split.
  - intro Hd. apply overdue_lt in Hd. split.
    + eexists. split; [reflexivity|].
      destruct (debugMode (options p)) eqn:Hdbg.
      * split; (split; [reflexivity|intros _]).
        -- exact (catchUpEvents_in _ _ _ _ _ Hk Hd).
        -- exact (catchUpEvents_in_typed _ _ _ _ _ Hk Hd).
      * rewrite catchUpEvents_off.
        split; (split; [intros []|discriminate]).
    + pose proof (cursorAfter_past speed cT rest (actionIndex p)
                    (actionIndex p) _ _ Hk Hd).
      lia.
  - intro Hd. apply overdue_ge in Hd.
    destruct (armed_in now speed cT rest (nextTimerId p)
                (actionIndex p) _ _ Hk Hd)
      as (t & Hin & Hfi & Hfa & Har & Hde).
    exists t. split; [apply in_or_app; right; exact Hin|].
    split; [apply in_map; exact Hin|].
    split; [lia|]. split; [exact Hfa|]. split; [exact Har|exact Hde].
Qed.

Lemma scheduleNextActions_each_entry_witness :
  exists t,
    In t (timers (after (scheduleNextActions 1000 Scenario.resuming)))
    /\ firesIndex t = 2%Z
    /\ firesAction t = mkAction "navigation" 2500 ""
    /\ armedAt t = 1000.
Proof.
  pose proof (scheduleNextActions_each_entry 1000 Scenario.resuming) as H0.
  assert (A1 : isPlaying Scenario.resuming = true)
    by (vm_compute; reflexivity).
  assert (A2 : isPaused Scenario.resuming = false)
    by (vm_compute; reflexivity).
  assert (A3 : (0 <= actionIndex Scenario.resuming)%Z)
    by (vm_compute; discriminate).
  specialize (H0 A1 A2 A3). cbn zeta in H0.
  specialize (H0 2%Z (mkAction "navigation" 2500 "")).
  assert (A4 : (actionIndex Scenario.resuming <= 2)%Z)
    by (vm_compute; discriminate).
  assert (A5 : at_index (actionLog Scenario.resuming) 2
               = Some (mkAction "navigation" 2500 ""))
    by (vm_compute; reflexivity).
  destruct (H0 A4 A5) as (_ & _ & H).
  assert (A6 : 0 <= timestamp (mkAction "navigation" 2500 "")
                    / playbackSpeed (options Scenario.resuming)
                    - calculateCurrentTimestamp 1000 Scenario.resuming)
    by (vm_compute; discriminate).
  destruct (H A6) as (t & H1 & _ & H3 & H4 & H5 & _).
  exists t. split; [exact H1|]. split; [exact H3|].
  split; [exact H4 | exact H5].
Defined.

(** *** Timers firing *)

Lemma actionsOf_app (l1 l2 : list Event) :
  actionsOf (l1 ++ l2) = actionsOf l1 ++ actionsOf l2.
Proof.
  induction l1 as [|[n d] l1 IH]; [reflexivity|].
  cbn [app actionsOf]. destruct d; try exact IH.
  destruct (String.eqb n "action"); [cbn; f_equal|]; exact IH.
Qed.

Lemma actionsOf_actionEvents (a : ActionRecord) :
  actionsOf (actionEvents a) = [a].
Proof. reflexivity. Qed.

Lemma earliest_head (t : Timer) (ts : list Timer) :
  (forall u, In u ts -> Qltb (due u) (due t) = false) -> earliest t ts = t.
Proof.
  induction ts as [|u ts IH]; intro H; cbn [earliest]; [reflexivity|].
  rewrite (H u (or_introl eq_refl)). apply IH.
  intros v Hv. apply H. right. exact Hv.
Qed.

Lemma filter_other_ids (id : nat) (ts : list Timer) :
  (forall u, In u ts -> (id < timerId u)%nat) ->
  filter (fun t => negb (Nat.eqb (timerId t) id)) ts = ts.
Proof.
  induction ts as [|u ts IH]; intro H; cbn [filter]; [reflexivity|].
  replace (timerId u =? id)%nat with false.
  - cbn. f_equal. apply IH. intros v Hv. apply H. right. exact Hv.
  - symmetry. apply Nat.eqb_neq.
    pose proof (H u (or_introl eq_refl)). lia.
Qed.

Lemma fireNext_head (q : EventStreamPlayer) (t : Timer) (ts : list Timer) :
  timers q = t :: ts ->
  (forall u, In u ts ->
             Qltb (due u) (due t) = false /\ (timerId t < timerId u)%nat) ->
  fireNext q = (onTimeout t (due t) ;; ret true) (set_timers ts q).
Proof.
  intros Ht H. unfold fireNext. unfold bind at 1. cbn [this].
  unfold nextTimer. rewrite Ht.
  rewrite earliest_head by (intros u Hu; apply (H u Hu)).
  unfold bind at 1. cbn [clearTimeout assign]. rewrite Ht.
  cbn [filter]. rewrite Nat.eqb_refl. cbn [negb].
  rewrite filter_other_ids by (intros u Hu; apply (H u Hu)).
  reflexivity.
Qed.

Lemma fireNext_none (q : EventStreamPlayer) :
  timers q = [] -> fireNext q = Returned false q.
Proof.
  intro H. unfold fireNext, bind, this, nextTimer. rewrite H. reflexivity.
Qed.

Lemma runTimers_none (n : nat) (q : EventStreamPlayer) :
  timers q = [] -> runTimers n q = Returned tt q.
Proof.
  intro H. destruct n; [reflexivity|].
  cbn [runTimers]. unfold bind. rewrite fireNext_none by exact H.
  reflexivity.
Qed.

Lemma onTimeout_unfold (t : Timer) (now : Q) (p : EventStreamPlayer) :
  loop (options p) = false -> isPlaying p = true ->
  onTimeout t now p
  = Returned tt
      (if atEnd (fired (firesIndex t) (firesAction t) p)
       then stopped (fired (firesIndex t) (firesAction t) p)
       else fired (firesIndex t) (firesAction t) p).
Proof.
  intros Hl Hpl. unfold onTimeout. unfold bind at 1.
  change (emitAction (firesAction t) p)
    with (Returned tt (after (emitAction (firesAction t) p))).
  cbv beta iota. unfold bind at 1. cbn [assign].
  fold (fired (firesIndex t) (firesAction t) p).
  unfold bind at 1. cbn [this].
  destruct (atEnd (fired (firesIndex t) (firesAction t) p)) eqn:E;
    [|reflexivity].
  rewrite fired_options, Hl, stop_unfold, fired_isPlaying, Hpl.
  reflexivity.
Qed.

Lemma delayOf_mono (speed currentTime : Q) (a b : ActionRecord) :
  0 < speed -> timestamp a <= timestamp b ->
  delayOf speed currentTime a <= delayOf speed currentTime b.
Proof.
  intros Hs Hab. unfold delayOf, Qdiv, Qminus.
  apply Qplus_le_compat; [|apply Qle_refl].
  apply Qmult_le_compat_r; [exact Hab|].
  apply Qinv_le_0_compat. apply Qlt_le_weak. exact Hs.
Qed.

Lemma armed_inv (now speed currentTime : Q) (rest : list ActionRecord) :
  forall (id : nat) (i : Z) (u : Timer),
    In u (armed now speed currentTime id i rest) ->
    (id <= timerId u)%nat /\ armedAt u = now
    /\ exists b, In b rest /\ delay u = delayOf speed currentTime b.
Proof.
  induction rest as [|a r IH]; intros id i u Hu; cbn [armed] in Hu.
  - destruct Hu.
  - destruct (overdue speed currentTime a).
    + destruct (IH _ _ _ Hu) as (H1 & H2 & b & Hb & Hd).
      split; [exact H1|]. split; [exact H2|].
      exists b. split; [right; exact Hb | exact Hd].
    + destruct Hu as [<-|Hu].
      * cbn. split; [lia|]. split; [reflexivity|].
        exists a. split; [left; reflexivity | reflexivity].
      * destruct (IH _ _ _ Hu) as (H1 & H2 & b & Hb & Hd).
        split; [lia|]. split; [exact H2|].
        exists b. split; [right; exact Hb | exact Hd].
Qed.

(** Within the host's range a longer delay does not fire earlier. *)
Lemma hostDelay_mono (d d' : Q) :
  d <= d' -> d' <= TIMEOUT_MAX -> hostDelay d <= hostDelay d'.
Proof.
  intros Hd Hmax. unfold hostDelay.
  destruct (Qle_bool 1 d) eqn:E1; cbn [andb].
  - apply Qle_bool_iff in E1.
    assert (E2 : Qle_bool d TIMEOUT_MAX = true)
      by (apply Qle_bool_iff; lra).
    assert (E3 : Qle_bool 1 d' = true) by (apply Qle_bool_iff; lra).
    assert (E4 : Qle_bool d' TIMEOUT_MAX = true)
      by (apply Qle_bool_iff; exact Hmax).
    rewrite E2, E3, E4. exact Hd.
  - destruct (Qle_bool 1 d') eqn:E3; cbn [andb]; [|apply Qle_refl].
    assert (E4 : Qle_bool d' TIMEOUT_MAX = true)
      by (apply Qle_bool_iff; exact Hmax).
    rewrite E4. apply Qle_bool_iff. exact E3.
Qed.

(** Timers armed in one pass over a sorted stretch [rest] of the log, none
    of it overdue and every delay within the host's range, fire in the
    order of the log, each once; the last one stops the player. *)
Lemma runTimers_armed (now speed currentTime : Q) :
  0 < speed ->
  forall (rest pre : list ActionRecord) (q : EventStreamPlayer) (id : nat),
    rest <> [] ->
    actionLog q = pre ++ rest ->
    timers q = armed now speed currentTime id (Z.of_nat (length pre)) rest ->
    Forall (fun a => overdue speed currentTime a = false) rest ->
    Forall (fun a => delayOf speed currentTime a <= TIMEOUT_MAX) rest ->
    sorted_log rest ->
    isPlaying q = true -> loop (options q) = false ->
    let o := runTimers (length rest) q in
    threw o = None
    /\ actionsOf (emitted (after o)) = actionsOf (emitted q) ++ rest
    /\ timers (after o) = []
    /\ isPlaying (after o) = false.
Proof.
  intro Hs. induction rest as [|a r IH];
    intros pre q id Hne Hlog Htm Hov Hmax Hsort Hpl Hloop; [congruence|].
  inversion Hov as [|? ? Hoa Hor]; subst.
  inversion Hmax as [|? ? Hma Hmr]; subst.
  inversion Hsort as [|? ? Hle Hsr]; subst.
  cbn [armed] in Htm. rewrite Hoa in Htm.
  set (t := mkTimer id now (delayOf speed currentTime a)
              (Z.of_nat (length pre)) a) in Htm.
  set (ts := armed now speed currentTime (S id)
               (Z.of_nat (length pre) + 1)%Z r) in Htm.
  assert (Hts : forall u, In u ts ->
                Qltb (due u) (due t) = false /\ (timerId t < timerId u)%nat).
  { intros u Hu.
    destruct (armed_inv _ _ _ _ _ _ _ Hu) as (H1 & H2 & b & Hb & Hd).
    split; [|cbn; lia].
    apply Qltb_ge. unfold due. rewrite H2, Hd. cbn [armedAt delay t].
    apply Qplus_le_compat; [apply Qle_refl|].
    apply hostDelay_mono.
    - apply delayOf_mono; [exact Hs|].
      rewrite Forall_forall in Hle. exact (Hle b Hb).
    - rewrite Forall_forall in Hmr. exact (Hmr b Hb). }
  assert (Hstep :
    runTimers (length (a :: r)) q
    = runTimers (length r)
        (if atEnd (fired (Z.of_nat (length pre)) a (set_timers ts q))
         then stopped (fired (Z.of_nat (length pre)) a (set_timers ts q))
         else fired (Z.of_nat (length pre)) a (set_timers ts q))).
  { cbn [length runTimers]. unfold bind at 1.
    rewrite (fireNext_head q t ts Htm Hts).
    unfold bind at 1. rewrite onTimeout_unfold by assumption.
    reflexivity. }
  cbn zeta. rewrite Hstep. clear Hstep.
  assert (Hlog' : actionLog (set_timers ts q) = pre ++ a :: r) by exact Hlog.
  assert (Htm' : timers (set_timers ts q) = ts) by reflexivity.
  assert (Hpl' : isPlaying (set_timers ts q) = true) by exact Hpl.
  assert (Hloop' : loop (options (set_timers ts q)) = false) by exact Hloop.
  assert (Hem' : emitted (set_timers ts q) = emitted q) by reflexivity.
  generalize dependent (set_timers ts q).
  intros q' Hlog' Htm' Hpl' Hloop' Hem'.
  destruct r as [|b r'].
  - assert (E : atEnd (fired (Z.of_nat (length pre)) a q') = true).
    { unfold atEnd. fields. rewrite Hlog', length_app. cbn [length].
      apply Z.leb_le. lia. }
    rewrite E. cbn [length runTimers ret after threw].
    split; [reflexivity|]. split; [|split].
    + fields. rewrite !actionsOf_app, actionsOf_actionEvents, Hem'.
      cbn [actionsOf]. rewrite app_nil_r. reflexivity.
    + fields. rewrite Htm'. subst ts. cbn [armed]. apply clearAll_nil.
    + fields. reflexivity.
  - assert (E : atEnd (fired (Z.of_nat (length pre)) a q') = false).
    { unfold atEnd. fields. rewrite Hlog', length_app. cbn [length].
      apply Z.leb_gt. lia. }
    rewrite E.
    destruct (IH (pre ++ [a]) (fired (Z.of_nat (length pre)) a q') (S id))
      as (H1 & H2 & H3 & H4).
    + discriminate.
    + fields. rewrite Hlog', <- app_assoc. reflexivity.
    + fields. rewrite Htm'. subst ts.
      rewrite length_app. cbn [length].
      replace (Z.of_nat (length pre + 1)) with (Z.of_nat (length pre) + 1)%Z
        by lia.
      reflexivity.
    + exact Hor.
    + exact Hmr.
    + exact Hsr.
    + fields. exact Hpl'.
    + fields. exact Hloop'.
    + split; [exact H1|]. split; [|split; [exact H3 | exact H4]].
      rewrite H2, fired_emitted, actionsOf_app, actionsOf_actionEvents, Hem'.
      rewrite <- app_assoc. reflexivity.
Qed.

(** *** A sorted log; a player that plays *)

Lemma sortByTimestamp_sorted (l : list ActionRecord) :
  sorted_log l -> sortByTimestamp l = l.
Proof.
  induction 1 as [|a l Hle Hs IH]; [reflexivity|].
  cbn [sortByTimestamp]. rewrite IH.
  destruct l as [|b r]; [reflexivity|]. cbn [insertByTimestamp].
  inversion Hle as [|? ? Hab _]; subst.
  apply Qle_bool_iff in Hab. rewrite Hab. reflexivity.
Qed.

Lemma play_playing (now : Q) (p : EventStreamPlayer) :
  isPlaying p = true -> isPaused p = false -> play now p = Returned tt p.
Proof. intros H1 H2. rewrite play_unfold, H1, H2. reflexivity. Qed.

(** *** The clock, and delays out of the host's range *)

Lemma scheduleNextActionsOn_still (depth : nat) (now : Q) :
  forall p,
    scheduleNextActionsOn depth (still now) p
    = scheduleNextActionsAt depth now p.
Proof.
  induction depth as [|d IH]; intro p;
    cbn [scheduleNextActionsOn scheduleNextActionsAt]; unfold bind;
    (destruct (clearScheduledActions p) as [[] q|e q]; [|reflexivity]);
    cbn [this];
    (destruct (negb (isPlaying q) || isPaused q || atEnd q);
     [|reflexivity]);
    (destruct (atEnd q && loop (options q)); [|reflexivity]);
    cbn [assign]; [reflexivity|].
  change (fun k : nat => still now (S k)) with (still now). apply IH.
Qed.

Lemma playOn_still (now : Q) (p : EventStreamPlayer) :
  playOn (still now) p = play now p.
Proof.
  unfold playOn, play, scheduleNextActions, bind. cbn [this].
  destruct (isPlaying p && negb (isPaused p)); [reflexivity|].
  change (fun k : nat => still now (S k)) with (still now).
  destruct (isPaused p); cbn [assign];
    rewrite scheduleNextActionsOn_still; reflexivity.
Qed.

Lemma loadOn_still (content : Exn * string + list ActionRecord)
  (videoPath : bool) (now : Q) (p : EventStreamPlayer) :
  loadOn content videoPath (still now) p = load content videoPath now p.
Proof.
  unfold loadOn, load, bind.
  destruct (try_catch _ _ p) as [[] q|e q]; [|reflexivity].
  destruct ((if videoPath then assign (set_videoPlayer true) else ret tt) q)
    as [[] q1|e q1]; [|reflexivity].
  cbn [this].
  destruct (emit "loaded" _ q1) as [[] q2|e q2]; [|reflexivity].
  destruct (autoPlay (options q2)); [apply playOn_still | reflexivity].
Qed.

Lemma onTimeoutOn_still (t : Timer) (now : Q) (p : EventStreamPlayer) :
  onTimeoutOn t (still now) p = onTimeout t now p.
Proof.
  unfold onTimeoutOn, onTimeout, scheduleNextActions, bind.
  destruct (emitAction (firesAction t) p) as [[] q|e q]; [|reflexivity].
  cbn [assign this].
  destruct (atEnd _); [|reflexivity].
  destruct (loop _); [|reflexivity].
  change (fun k : nat => still now (S k)) with (still now).
  apply scheduleNextActionsOn_still.
Qed.

(** Claim C5, on the code.  Two sorted logs, played from the start at
    speed [1] with looping off, lose an entry.

    The log of [click] at [0], [input] at [1000] and [navigation] at
    [3000000000]: [play()] arms the timer of [navigation] with the delay
    [3000000000], which is above [2^31 - 1]; the host fires it after [1] ms,
    right after the timer of [click].  Its callback is that of the last
    index: it calls [stop()], which clears the timer of [input].  [click]
    and [navigation] are emitted, [input] never.

    The scenario's log, with a clock that moves from [100] to [101] between
    the two reads of [play()]: the position reads [1] in
    [scheduleNextActions], the delay of [click] is [-1], and the entry is
    dropped.  [input] and [navigation] are emitted, [click] never. *)
Theorem play_drops_an_entry :
  let p :=
    after (loadOn (inr Scenario.longLog) false (still 0)
             (constructor defaultOptions)) in
  let played := after (playOn (still 100) p) in
  let o := runTimers 3 played in
  let played' :=
    after (playOn (Scenario.ticking 100 101)
             (Scenario.loaded defaultOptions)) in
  let o' := runTimers 3 played' in
  sorted_log Scenario.longLog
  /\ actionLog p = Scenario.longLog
  /\ playbackSpeed (options p) == 1 /\ loop (options p) = false
  /\ (exists t,
         In t (timers played)
         /\ firesAction t = mkAction "navigation" 3000000000 ""
         /\ armedAt t == 100 /\ delay t == 3000000000 /\ due t == 101)
  /\ threw o = None
  /\ actionsOf (emitted (after o))
     = [mkAction "click" 0 ""; mkAction "navigation" 3000000000 ""]
  /\ timers (after o) = [] /\ isPlaying (after o) = false
  /\ sorted_log Scenario.demoLog
  /\ actionLog played' = Scenario.demoLog
  /\ map firesAction (timers played')
     = [mkAction "input" 1000 ""; mkAction "navigation" 2500 ""]
  /\ threw o' = None
  /\ actionsOf (emitted (after o'))
     = [mkAction "input" 1000 ""; mkAction "navigation" 2500 ""]
  /\ timers (after o') = [] /\ isPlaying (after o') = false.
Proof.
  cbv zeta.
  split; [repeat constructor; vm_compute; discriminate|].
  split; [vm_compute; reflexivity|].
  split; [vm_compute; reflexivity|].
  split; [vm_compute; reflexivity|].
  split.
  { vm_compute. eexists. split; [right; right; left; reflexivity|].
    repeat split. }
  split; [vm_compute; reflexivity|].
  split; [vm_compute; reflexivity|].
  split; [vm_compute; reflexivity|].
  split; [vm_compute; reflexivity|].
  split; [repeat constructor; vm_compute; discriminate|].
  split; [vm_compute; reflexivity|].
  split; [vm_compute; reflexivity|].
  split; [vm_compute; reflexivity|].
  split; [vm_compute; reflexivity|].
  split; vm_compute; reflexivity.
Qed.

(** *** The theorems at concrete players *)

Lemma seekTo_clamps_and_stays_paused_witness :
  0 <= currentTimestamp (after (seekTo 3000 650 Scenario.pausedOnce))
  /\ currentTimestamp (after (seekTo 3000 650 Scenario.pausedOnce))
     <= getDuration Scenario.pausedOnce
  /\ isPaused (after (seekTo 3000 650 Scenario.pausedOnce)) = true.
Proof.
  pose proof (seekTo_clamps_and_stays_paused 3000 650 Scenario.pausedOnce)
    as H.
  cbn zeta in H. destruct H as (H1 & _ & _ & H4 & H5).
  assert (A1 : 0 <= getDuration Scenario.pausedOnce)
    by (vm_compute; discriminate).
  assert (A2 : isPaused Scenario.pausedOnce = true)
    by (vm_compute; reflexivity).
  destruct (H4 A1) as [B1 B2]. destruct (H5 A2) as (_ & B3 & _).
  rewrite H1. split; [exact B1|]. split; [exact B2 | exact B3].
Defined.

Lemma findActionIndex_minus_one_witness :
  findActionIndex 3000 (Scenario.loaded defaultOptions) = (-1)%Z
  /\ actionIndex (after (seekTo 500 10 Scenario.loadedEmpty)) = (-1)%Z
  /\ actionIndex (after (play 10 Scenario.loadedEmpty)) = (-1)%Z.
Proof.
  destruct findActionIndex_minus_one as (H1 & H2 & H3).
  split; [|split].
  - apply H1. intros a Ha.
    assert (E : timestamp a <= 2500).
    { vm_compute in Ha.
      destruct Ha as [<-|[<-|[<-|[]]]]; vm_compute; discriminate. }
    intro Hle. apply (Qle_not_lt _ _ (Qle_trans _ _ _ Hle E)).
    reflexivity.
  - apply H2. vm_compute. reflexivity.
  - apply H3; vm_compute; reflexivity.
Defined.

Lemma setPlaybackSpeed_paused_witness :
  playbackSpeed
    (options (after (setPlaybackSpeed 2 700 Scenario.pausedAt500))) = 2
  /\ currentTimestamp (after (setPlaybackSpeed 2 700 Scenario.pausedAt500))
     = currentTimestamp Scenario.pausedAt500
  /\ isPaused (after (setPlaybackSpeed 2 700 Scenario.pausedAt500)) = true.
Proof.
  assert (A1 : 0 < 2) by reflexivity.
  assert (A2 : isPaused Scenario.pausedAt500 = true)
    by (vm_compute; reflexivity).
  pose proof (setPlaybackSpeed_paused 2 700 Scenario.pausedAt500 A1 A2) as H.
  cbn zeta in H.
  destruct H as (_ & _ & H3 & _ & H5 & _ & _ & _ & H9 & _).
  split; [exact H3|]. split; [exact H5 | exact H9].
Defined.

End PlayerFacts.

Module WriterFacts.

Import Writer Steps.

(** Read the fields of a writer after assignments. *)
Ltac assigned :=
  cbn [options actionLog videoWriter outputPath actionLogPath isWriting
       errorListener emitted disk set_actionLog set_videoWriter
       set_outputPath set_actionLogPath set_isWriting set_errorListener
       set_emitted set_disk mkdirError writeError directories files
       after threw returned].

(** *** The guards of [start] and [stop] *)

Lemma start_while_writing (path : PathOps) (basePath : string)
  (w : EventStreamWriter) :
  isWriting w = true -> start path basePath w = Returned tt w.
Proof. intro H. unfold start, bind, this. rewrite H. reflexivity. Qed.

Lemma stop_while_idle (w : EventStreamWriter) :
  isWriting w = false -> stop w = Returned None w.
Proof. intro H. unfold stop, bind, this. rewrite H. reflexivity. Qed.

Lemma start_unfold (path : PathOps) (basePath : string)
  (w : EventStreamWriter) :
  isWriting w = false ->
  start path basePath w
  = createDirectories path basePath (starting path basePath w).
Proof.
  intro H. unfold start. unfold bind at 1. cbn [this]. rewrite H.
  reflexivity.
Qed.

(** [ensureDirectoryExist] when [mkdir] fails with a code other than
    [EEXIST]: the error is reported and thrown again. *)
Lemma ensureDirectoryExist_fails (dirPath code : string)
  (w : EventStreamWriter) :
  mkdirError (disk w) dirPath = Some code ->
  String.eqb code "EEXIST" = false ->
  ensureDirectoryExist dirPath w
  = if errorListener w
    then Thrown (SystemError code)
           (set_emitted
              (emitted w
                 ++ [mkEvent "error"
                       (Failure "directoryCreate" (SystemError code))]) w)
    else Thrown UnhandledError w.
Proof.
  intros Hm Hc. unfold ensureDirectoryExist, try_catch.
  unfold bind at 1. unfold mkdir at 1. unfold bind at 1. cbn [this].
  rewrite Hm. cbn [throw hasCode]. rewrite Hc. cbn [negb].
  unfold bind, emitError, bind, this.
  destruct (errorListener w); reflexivity.
Qed.

(** [ensureDirectoryExist] when [mkdir] fails with [EEXIST]: nothing is
    reported and nothing is thrown. *)
Lemma ensureDirectoryExist_EEXIST (dirPath : string) (w : EventStreamWriter) :
  mkdirError (disk w) dirPath = Some "EEXIST"%string ->
  ensureDirectoryExist dirPath w = Returned None w.
Proof.
  intro Hm. unfold ensureDirectoryExist, try_catch.
  unfold bind at 1. unfold mkdir at 1. unfold bind at 1. cbn [this].
  rewrite Hm. reflexivity.
Qed.

(** *** Starting a writer *)

(** Split on a test of the code whose outcome is not known. *)
Ltac branch :=
  match goal with
  | |- context [match ?x with _ => _ end] =>
      lazymatch x with
      | context [match _ with _ => _ end] => fail
      | _ => destruct x eqn:?
      end
  end.

Lemma recordAction_isWriting (a : ActionRecord) (w : EventStreamWriter) :
  isWriting (after (recordAction a w)) = isWriting w.
Proof.
  unfold recordAction, appendToActionLog, emitError, emit, readFile,
    writeFile, try_catch, bind, this, assign, ret, throw.
  cbv beta iota.
  repeat (assigned; cbv beta iota; branch); assigned; reflexivity.
Qed.

Lemma stop_thrown_isWriting (w : EventStreamWriter) :
  threw (stop w) <> None -> isWriting (after (stop w)) = isWriting w.
Proof.
  unfold stop, saveActionLog, emitError, emit, writeFile, try_catch, bind,
    this, assign, ret, throw.
  cbv beta iota.
  repeat (assigned; cbv beta iota; branch); assigned;
    intro H; congruence.
Qed.

(** Claim C2, as the code has it.  A writer is constructed with [isWriting]
    set and both paths [null], whatever the options; and on every writer
    whose [isWriting] is set, for every base path, [start] returns at once
    and changes nothing: the paths stay, no directory is created, no
    ['writerStarted'] is emitted.  The flag stays set through [start],
    through [recordAction] and through a [stop] that throws; only a [stop]
    that returns clears it. *)
Theorem start_does_nothing_while_writing :
  (forall (opts : Options) (d : Disk),
      isWriting (constructor opts d) = true
      /\ outputPath (constructor opts d) = None
      /\ actionLogPath (constructor opts d) = None)
  /\ (forall (path : PathOps) (basePath : string) (w : EventStreamWriter),
         isWriting w = true ->
         let w' := after (start path basePath w) in
         start path basePath w = Returned tt w'
         /\ w' = w
         /\ outputPath w' = outputPath w
         /\ actionLogPath w' = actionLogPath w
         /\ directories (disk w') = directories (disk w)
         /\ emitted w' = emitted w)
  /\ (forall (a : ActionRecord) (w : EventStreamWriter),
         isWriting w = true -> isWriting (after (recordAction a w)) = true)
  /\ (forall w : EventStreamWriter,
         isWriting w = true -> threw (stop w) <> None ->
         isWriting (after (stop w)) = true).
Proof.
  split; [|split; [|split]].
  - intros opts d. repeat split.
  - intros path basePath w H. cbn zeta.
    rewrite (start_while_writing path basePath w H). cbn [after].
    repeat split.
  - intros a w H. rewrite recordAction_isWriting. exact H.
  - intros w H Ht. rewrite (stop_thrown_isWriting w Ht). exact H.
Qed.

Lemma start_does_nothing_while_writing_witness :
  start posix "rec/session.json"
    (constructor Recording.plainOptions Recording.emptyDisk)
  = Returned tt (constructor Recording.plainOptions Recording.emptyDisk).
Proof.
  destruct start_does_nothing_while_writing as (_ & H & _).
  assert (A : isWriting
                (constructor Recording.plainOptions Recording.emptyDisk)
              = true) by reflexivity.
  destruct (H posix "rec/session.json"%string _ A) as (H1 & H2 & _).
  cbn zeta in H1, H2. rewrite H1, H2. reflexivity.
Defined.

(** Claim C2 as stated fails on a writer that has been stopped: the writer
    of a recorder after one session has [isWriting] off, and [start] then
    sets the paths, creates the directories and emits ['writerStarted']. *)
Lemma start_sets_up_a_stopped_writer :
  isWriting (Recording.stoppedWriter Recording.emptyDisk) = false
  /\ outputPath (Recording.stoppedWriter Recording.emptyDisk) = None
  /\ outputPath
       (after (start posix "rec/session.json"
                 (Recording.stoppedWriter Recording.emptyDisk)))
     = Some "rec/session.json"%string
  /\ actionLogPath
       (after (start posix "rec/session.json"
                 (Recording.stoppedWriter Recording.emptyDisk)))
     = Some "rec/session_actions.json"%string
  /\ directories
       (disk (after (start posix "rec/session.json"
                       (Recording.stoppedWriter Recording.emptyDisk))))
     = ["rec"; "rec"]%string
  /\ In (mkEvent "writerStarted"
           (Paths (Some "rec/session.json"%string)
              (Some "rec/session_actions.json"%string)))
        (emitted
           (after (start posix "rec/session.json"
                     (Recording.stoppedWriter Recording.emptyDisk)))).
Proof.
  vm_compute. repeat split. right. right. left. reflexivity.
Qed.

(** *** Stopping when nothing is running *)

Lemma recorder_stop_while_idle (now : Q)
  (r : Recorder.ActionTrackingRecorder) :
  Recorder.isRecording r = false ->
  Recorder.stop now r = Returned (Recorder.recordingResult r) r.
Proof.
  intro H. unfold Recorder.stop, bind, this. rewrite H. reflexivity.
Qed.

(** Claim C6, as the code has it.  The writer's [stop], called when the
    writer is not writing, changes nothing, throws nothing and returns
    [undefined]; the recorder's [stop], called when no recording is in
    progress, changes nothing, throws nothing and returns the stored
    [recordingResult], which after a [stop] that returned is what that
    [stop] returned. *)
Theorem stop_when_nothing_runs :
  (forall w : EventStreamWriter,
      isWriting w = false -> stop w = Returned None w)
  /\ (forall (now : Q) (r : Recorder.ActionTrackingRecorder),
         Recorder.isRecording r = false ->
         Recorder.stop now r = Returned (Recorder.recordingResult r) r)
  /\ (forall (now : Q) (r r' : Recorder.ActionTrackingRecorder)
             (res : Recorder.Result),
         Recorder.isRecording r = true ->
         Recorder.stop now r = Returned res r' ->
         forall now', Recorder.stop now' r' = Returned res r').
Proof.
  split; [exact stop_while_idle|]. split; [exact recorder_stop_while_idle|].
  intros now r r' res Hrec Hstop now'.
  assert (H : Recorder.isRecording r' = false
              /\ Recorder.recordingResult r' = res).
  { unfold Recorder.stop in Hstop. unfold bind at 1 in Hstop.
    cbn [this] in Hstop. rewrite Hrec in Hstop. cbn [negb] in Hstop.
    unfold bind at 1 in Hstop. cbn [assign] in Hstop.
    unfold bind at 1 in Hstop.
    destruct (Recorder.onCollector (Collector.stop now)
                (Recorder.set_isRecording false r)) as [[] r1|e r1] eqn:E1;
      [|discriminate Hstop].
    assert (H1 : Recorder.isRecording r1 = false).
    { unfold Recorder.onCollector in E1.
      destruct (Collector.stop now
                  (Recorder.collector (Recorder.set_isRecording false r)));
        inversion E1; reflexivity. }
    unfold bind at 1 in Hstop.
    destruct (Recorder.onWriter stop r1) as [v r2|e r2] eqn:E2;
      [|discriminate Hstop].
    assert (H2 : Recorder.isRecording r2 = false).
    { unfold Recorder.onWriter in E2.
      destruct (stop (Recorder.writer r1)); inversion E2; exact H1. }
    unfold bind, assign, ret in Hstop. inversion Hstop. subst.
    split; [exact H2 | reflexivity]. }
  destruct H as [H1 H2].
  rewrite (recorder_stop_while_idle now' r' H1), H2. reflexivity.
Qed.

Lemma stop_when_nothing_runs_witness :
  stop (Recording.stoppedWriter Recording.emptyDisk)
  = Returned None (Recording.stoppedWriter Recording.emptyDisk)
  /\ returned (Recorder.stop 30 (Recording.afterOneSession Recording.emptyDisk))
     = Some (Recorder.Object (mkStopResult None None [])).
Proof.
  destruct stop_when_nothing_runs as (H1 & H2 & _).
  assert (A1 : isWriting (Recording.stoppedWriter Recording.emptyDisk) = false)
    by (vm_compute; reflexivity).
  assert (A2 : Recorder.isRecording
                 (Recording.afterOneSession Recording.emptyDisk) = false)
    by (vm_compute; reflexivity).
  split; [exact (H1 _ A1)|].
  rewrite (H2 30 _ A2). vm_compute. reflexivity.
Defined.

(** Claim C6 as stated fails on the writer: the first [stop] returns the
    log and its location, the second one returns [undefined]. *)
Lemma second_stop_returns_undefined :
  returned
    (stop (after (recordAction Recording.aClick
             (after (onError
                (constructor Recording.plainOptions Recording.emptyDisk))))))
  = Some (Some (mkStopResult None None [Recording.aClick]))
  /\ returned
       (stop (after (stop (after (recordAction Recording.aClick
                (after (onError
                   (constructor Recording.plainOptions
                      Recording.emptyDisk))))))))
     = Some None
  /\ threw
       (stop (after (stop (after (recordAction Recording.aClick
                (after (onError
                   (constructor Recording.plainOptions
                      Recording.emptyDisk))))))))
     = None.
Proof. vm_compute. repeat split. Qed.

(** *** A directory that cannot be created *)

Lemma createDirectories_fails (path : PathOps) (basePath code : string)
  (w : EventStreamWriter) :
  mkdirError (disk w) (dirname path basePath) = Some code ->
  String.eqb code "EEXIST" = false ->
  createDirectories path basePath w
  = if errorListener w
    then Thrown (SystemError code)
           (set_emitted
              (emitted w
                 ++ [mkEvent "error"
                       (Failure "directoryCreate" (SystemError code))]) w)
    else Thrown UnhandledError w.
Proof.
  intros Hm Hc. unfold createDirectories. unfold bind at 1.
  cbn [dirnameOf ret]. unfold bind at 1.
  rewrite (ensureDirectoryExist_fails _ code w Hm Hc).
  destruct (errorListener w); reflexivity.
Qed.

Lemma start_rejects (path : PathOps) (basePath code : string)
  (w : EventStreamWriter) :
  isWriting w = false ->
  mkdirError (disk w) (dirname path basePath) = Some code ->
  String.eqb code "EEXIST" = false ->
  threw (start path basePath w)
  = Some (if errorListener w then SystemError code else UnhandledError)
  /\ emitted (after (start path basePath w))
     = emitted w
         ++ (if errorListener w
             then [mkEvent "error"
                     (Failure "directoryCreate" (SystemError code))]
             else [])
  /\ directories (disk (after (start path basePath w)))
     = directories (disk w).
Proof.
  intros Hw Hm Hc. rewrite (start_unfold path basePath w Hw).
  assert (Hm' : mkdirError (disk (starting path basePath w))
                  (dirname path basePath) = Some code) by exact Hm.
  rewrite (createDirectories_fails path basePath code _ Hm' Hc).
  replace (errorListener (starting path basePath w)) with (errorListener w)
    by reflexivity.
  destruct (errorListener w); cbn [after threw]; assigned;
    rewrite ?app_nil_r; auto.
Qed.

(** Claim C7, as the code has it.  When [start] gets as far as creating the
    directories (the writer is not writing yet) and [mkdir] fails for the
    output directory with a code other than [EEXIST], [start] throws: the
    error itself, after reporting it as an ['error'] event, or, with no
    ['error'] listener, the emitter's error for the unhandled event; no
    directory is created.  The recorder's [start] throws the same.  A
    failure with code [EEXIST] is not reported and not thrown. *)
Theorem start_throws_when_mkdir_fails (path : PathOps)
  (basePath code : string) :
  String.eqb code "EEXIST" = false ->
  (forall w : EventStreamWriter,
      isWriting w = false ->
      mkdirError (disk w) (dirname path basePath) = Some code ->
      threw (start path basePath w)
      = Some (if errorListener w then SystemError code else UnhandledError)
      /\ emitted (after (start path basePath w))
         = emitted w
             ++ (if errorListener w
                 then [mkEvent "error"
                         (Failure "directoryCreate" (SystemError code))]
                 else [])
      /\ directories (disk (after (start path basePath w)))
         = directories (disk w))
  /\ (forall (now : Q) (outputPath : string)
             (r : Recorder.ActionTrackingRecorder),
         Recorder.isRecording r = false ->
         isWriting (Recorder.writer r) = false ->
         Recorder.withVideoFormat path (Recorder.options r) outputPath
         = basePath ->
         mkdirError (disk (Recorder.writer r)) (dirname path basePath)
         = Some code ->
         threw (Recorder.start path outputPath now r)
         = Some (if errorListener (Recorder.writer r)
                 then SystemError code else UnhandledError))
  /\ (forall (dirPath : string) (w : EventStreamWriter),
         mkdirError (disk w) dirPath = Some "EEXIST"%string ->
         ensureDirectoryExist dirPath w = Returned None w).
Proof.
  intro Hc. split; [|split].
  - intros w Hw Hm. exact (start_rejects path basePath code w Hw Hm Hc).
  - intros now outputPath r Hrec Hw Hp Hm.
    destruct (start_rejects path basePath code (Recorder.writer r) Hw Hm Hc)
      as (Ht & _).
    unfold Recorder.start. unfold bind at 1. cbn [this]. rewrite Hrec.
    unfold bind at 1. cbn [assign]. rewrite Hp.
    unfold bind at 1. unfold Recorder.onWriter at 1.
    replace (Recorder.writer (Recorder.set_isRecording true r))
      with (Recorder.writer r) by reflexivity.
    destruct (start path basePath (Recorder.writer r)) as [v w'|e w'];
      cbn [threw] in Ht |- *; [|exact Ht].
    destruct (errorListener (Recorder.writer r)); discriminate Ht.
  - exact ensureDirectoryExist_EEXIST.
Qed.

Lemma start_throws_when_mkdir_fails_witness :
  threw (start posix "rec/session.json"
           (Recording.stoppedWriter (Recording.diskWithout "EACCES")))
  = Some (SystemError "EACCES").
Proof.
  assert (A1 : String.eqb "EACCES" "EEXIST" = false) by reflexivity.
  destruct (start_throws_when_mkdir_fails posix "rec/session.json" "EACCES" A1)
    as (H & _).
  assert (A2 : isWriting
                 (Recording.stoppedWriter (Recording.diskWithout "EACCES"))
               = false) by (vm_compute; reflexivity).
  assert (A3 : mkdirError
                 (disk (Recording.stoppedWriter
                          (Recording.diskWithout "EACCES")))
                 (dirname posix "rec/session.json")
               = Some "EACCES"%string) by (vm_compute; reflexivity).
  destruct (H _ A2 A3) as (H1 & _).
  rewrite H1. vm_compute. reflexivity.
Defined.

(** Claim C7 as stated fails twice over.  A stopped writer whose output
    directory cannot be created because [mkdir] fails with [EEXIST] starts
    without an error, and so does the recorder on it; and a recorder that
    has not run a session yet starts without an error although [mkdir]
    would fail with [EACCES], because its writer does not get as far. *)
Lemma start_returns_without_the_directory :
  isWriting (Recording.stoppedWriter (Recording.diskWithout "EEXIST")) = false
  /\ mkdirError
       (disk (Recording.stoppedWriter (Recording.diskWithout "EEXIST")))
       (dirname posix "rec/session.json")
     = Some "EEXIST"%string
  /\ threw (start posix "rec/session.json"
              (Recording.stoppedWriter (Recording.diskWithout "EEXIST")))
     = None
  /\ directories
       (disk (after (start posix "rec/session.json"
                       (Recording.stoppedWriter
                          (Recording.diskWithout "EEXIST")))))
     = []
  /\ threw (Recorder.start posix "rec/session.json" 20
              (Recording.afterOneSession (Recording.diskWithout "EEXIST")))
     = None
  /\ mkdirError (Recording.diskWithout "EACCES")
       (dirname posix "rec/session.json")
     = Some "EACCES"%string
  /\ threw (Recorder.start posix "rec/session.json" 0
              (Recording.recorderOn (Recording.diskWithout "EACCES")))
     = None
  /\ directories
       (disk (Recorder.writer
                (after (Recorder.start posix "rec/session.json" 0
                          (Recording.recorderOn
                             (Recording.diskWithout "EACCES"))))))
     = [].
Proof.
  vm_compute. repeat split.
Qed.

End WriterFacts.

Module PlayerMore.

Import Player Pass PlayerFacts.

(** *** More fields *)

Lemma restarted_fields (now : Q) (p : EventStreamPlayer) :
  options (restarted now p) = options p
  /\ actionLog (restarted now p) = actionLog p
  /\ isPlaying (restarted now p) = isPlaying p
  /\ isPaused (restarted now p) = isPaused p
  /\ timers (restarted now p) = timers p
  /\ scheduledActions (restarted now p) = scheduledActions p
  /\ emitted (restarted now p) = emitted p
  /\ nextTimerId (restarted now p) = nextTimerId p
  /\ currentTimestamp (restarted now p) = 0
  /\ actionIndex (restarted now p) = 0%Z
  /\ startTime (restarted now p) = now.
Proof. repeat split. Qed.

Lemma atSpeed_fields (s : Q) (p : EventStreamPlayer) :
  options (atSpeed s p) = set_playbackSpeed s (options p)
  /\ actionLog (atSpeed s p) = actionLog p
  /\ isPlaying (atSpeed s p) = isPlaying p
  /\ isPaused (atSpeed s p) = isPaused p
  /\ timers (atSpeed s p) = timers p
  /\ scheduledActions (atSpeed s p) = scheduledActions p
  /\ emitted (atSpeed s p) = emitted p
  /\ currentTimestamp (atSpeed s p) = currentTimestamp p
  /\ actionIndex (atSpeed s p) = actionIndex p
  /\ startTime (atSpeed s p) = startTime p.
Proof. repeat split. Qed.

(** *** The methods, unfolded *)

Lemma setPlaybackSpeed_unfold (s now : Q) (p : EventStreamPlayer) :
  setPlaybackSpeed s now p
  = if Qle_bool s 0 then Returned tt p
    else if isPlaying p && negb (isPaused p)
         then (play now ;;
               q <- this ;;
               emit "speedChanged" (Speed (playbackSpeed (options q))))
                (atSpeed s (pausedFrom now p))
         else Returned tt
                (set_emitted
                   (emitted p ++ [mkEvent "speedChanged" (Speed s)])
                   (atSpeed s p)).
Proof.
  unfold setPlaybackSpeed. destruct (Qle_bool s 0); [reflexivity|].
  unfold bind at 1. cbn [this].
  destruct (isPlaying p && negb (isPaused p)) eqn:E.
  - unfold bind at 1. rewrite pause_unfold.
    apply andb_true_iff in E. destruct E as [E1 E2].
    apply negb_true_iff in E2. rewrite E1, E2. reflexivity.
  - reflexivity.
Qed.

Lemma onTimeout_cases (t : Timer) (now : Q) (p : EventStreamPlayer) :
  onTimeout t now p
  = if atEnd (fired (firesIndex t) (firesAction t) p)
    then if loop (options p)
         then scheduleNextActions now
                (restarted now (fired (firesIndex t) (firesAction t) p))
         else stop (fired (firesIndex t) (firesAction t) p)
    else Returned tt (fired (firesIndex t) (firesAction t) p).
Proof.
  unfold onTimeout. unfold bind at 1.
  change (emitAction (firesAction t) p)
    with (Returned tt (after (emitAction (firesAction t) p))).
  cbv beta iota. unfold bind at 1. cbn [assign].
  fold (fired (firesIndex t) (firesAction t) p).
  unfold bind at 1. cbn [this].
  destruct (atEnd (fired (firesIndex t) (firesAction t) p)); [|reflexivity].
  rewrite fired_options. destruct (loop (options p)); reflexivity.
Qed.

Lemma fireNext_cases (p : EventStreamPlayer) :
  fireNext p
  = match nextTimer p with
    | None => Returned false p
    | Some t =>
        (onTimeout t (due t) ;; ret true)
          (set_timers
             (filter (fun u => negb (Nat.eqb (timerId u) (timerId t)))
                (timers p)) p)
    end.
Proof.
  unfold fireNext. unfold bind at 1. cbn [this].
  destruct (nextTimer p); reflexivity.
Qed.

(** *** What no scheduling pass changes *)

Lemma scheduleNextActionsAt_mode (d : nat) (now : Q) :
  forall p : EventStreamPlayer,
    let q := after (scheduleNextActionsAt d now p) in
    options q = options p /\ actionLog q = actionLog p
    /\ isPlaying q = isPlaying p /\ isPaused q = isPaused p.
Proof.
  induction d as [|d IH]; intro p; cbn zeta;
    destruct (atEnd p && loop (options p)) eqn:Hl.
  - apply andb_true_iff in Hl. destruct Hl as [Hend Hl].
    destruct (scheduleNextActionsAt_restart 0 now p Hend Hl) as [_ E].
    rewrite E. cbn [after]. repeat split.
  - destruct (scheduleNextActionsAt_position 0 now p Hl)
      as (H1 & H2 & _ & _ & H5 & H6). auto.
  - apply andb_true_iff in Hl. destruct Hl as [Hend Hl].
    destruct (scheduleNextActionsAt_restart d now p Hend Hl) as [E _].
    rewrite E. destruct (IH (restarted now (cleared p))) as (H1 & H2 & H3 & H4).
    rewrite H1, H2, H3, H4. repeat split.
  - destruct (scheduleNextActionsAt_position (S d) now p Hl)
      as (H1 & H2 & _ & _ & H5 & H6). auto.
Qed.

Lemma scheduleAndAnnounce_mode (now : Q) (p : EventStreamPlayer) :
  let q := after (scheduleAndAnnounce now p) in
  options q = options p /\ actionLog q = actionLog p
  /\ isPlaying q = isPlaying p /\ isPaused q = isPaused p.
Proof.
  cbn zeta. pose proof (scheduleNextActionsAt_mode 1 now p) as H.
  cbn zeta in H. fold (scheduleNextActions now) in H.
  destruct (scheduleAndAnnounce_after now p) as [E|E]; rewrite E;
    [exact H|].
  generalize dependent (after (scheduleNextActions now p)).
  intros q H _. exact H.
Qed.

Lemma play_mode (now : Q) (p : EventStreamPlayer) :
  let q := after (play now p) in
  options q = options p /\ actionLog q = actionLog p
  /\ isPlaying q = true /\ isPaused q = false.
Proof.
  cbn zeta. rewrite play_unfold.
  destruct (isPlaying p && negb (isPaused p)) eqn:E.
  - apply andb_true_iff in E. destruct E as [E1 E2].
    apply negb_true_iff in E2. cbn [after]. auto.
  - destruct (scheduleAndAnnounce_mode now (entering now p))
      as (H1 & H2 & H3 & H4).
    rewrite H1, H2, H3, H4. fields. auto.
Qed.

(** *** The pending timers are the scheduled ones *)

Lemma clearAll_listed (ids : list nat) :
  forall ts : list Timer,
    (forall t, In t ts -> In (timerId t) ids) -> clearAll ids ts = [].
Proof.
  induction ids as [|id ids IH]; intros ts H.
  - destruct ts as [|t ts]; [reflexivity|].
    destruct (H t (or_introl eq_refl)).
  - change (clearAll (id :: ids) ts)
      with (clearAll ids
              (filter (fun t => negb (Nat.eqb (timerId t) id)) ts)).
    apply IH. intros t Ht. apply filter_In in Ht. destruct Ht as [Ht Hne].
    apply negb_true_iff, Nat.eqb_neq in Hne.
    destruct (H t Ht) as [E|E]; [congruence | exact E].
Qed.

Lemma cleared_no_timer (p : EventStreamPlayer) :
  scheduled p -> timers (cleared p) = [].
Proof. intro H. fields. apply clearAll_listed. exact H. Qed.

Lemma no_timer_scheduled (p : EventStreamPlayer) :
  timers p = [] -> scheduled p.
Proof. intros H t Ht. rewrite H in Ht. destruct Ht. Qed.

Lemma no_timer_armedAtInstant (now : Q) (p : EventStreamPlayer) :
  timers p = [] -> armedAtInstant now p.
Proof. intros H t Ht. rewrite H in Ht. destruct Ht. Qed.

Lemma armedAtInstant_scheduled (now : Q) (p : EventStreamPlayer) :
  armedAtInstant now p -> scheduled p.
Proof. intros H t Ht. apply (H t Ht). Qed.

Lemma passed_armedAtInstant (now cT : Q) (i : Z) (rest : list ActionRecord)
  (p : EventStreamPlayer) :
  timers p = [] -> armedAtInstant now (passed now cT i rest p).
Proof.
  intros H t Ht. rewrite passed_timers, H in Ht. cbn [app] in Ht.
  rewrite passed_scheduledActions.
  split.
  - destruct (armed_inv _ _ _ _ _ _ _ Ht) as (_ & E & _). exact E.
  - apply in_or_app. right. apply in_map. exact Ht.
Qed.

Lemma scheduleNextActionsAt_armedAtInstant (d : nat) (now : Q) :
  forall p : EventStreamPlayer,
    scheduled p -> armedAtInstant now (after (scheduleNextActionsAt d now p)).
Proof.
  induction d as [|d IH]; intros p Hs;
    pose proof (cleared_no_timer p Hs) as Hc;
    destruct (atEnd p && loop (options p)) eqn:Hl.
  - apply andb_true_iff in Hl. destruct Hl as [Hend Hl].
    destruct (scheduleNextActionsAt_restart 0 now p Hend Hl) as [_ E].
    rewrite E. cbn [after]. apply no_timer_armedAtInstant. exact Hc.
  - destruct (scheduleNextActionsAt_cases 0 now p Hl)
      as [E|(cT & i & rest & E)]; rewrite E.
    + apply no_timer_armedAtInstant. exact Hc.
    + apply passed_armedAtInstant. exact Hc.
  - apply andb_true_iff in Hl. destruct Hl as [Hend Hl].
    destruct (scheduleNextActionsAt_restart d now p Hend Hl) as [E _].
    rewrite E. apply IH. apply no_timer_scheduled. exact Hc.
  - destruct (scheduleNextActionsAt_cases (S d) now p Hl)
      as [E|(cT & i & rest & E)]; rewrite E.
    + apply no_timer_armedAtInstant. exact Hc.
    + apply passed_armedAtInstant. exact Hc.
Qed.

Lemma scheduleAndAnnounce_armedAtInstant (now : Q) (p : EventStreamPlayer) :
  scheduled p -> armedAtInstant now (after (scheduleAndAnnounce now p)).
Proof.
  intro Hs. pose proof (scheduleNextActionsAt_armedAtInstant 1 now p Hs) as H.
  fold (scheduleNextActions now) in H.
  destruct (scheduleAndAnnounce_after now p) as [E|E]; rewrite E;
    [exact H|].
  generalize dependent (after (scheduleNextActions now p)).
  intros q H _. exact H.
Qed.

Lemma entering_scheduled (now : Q) (p : EventStreamPlayer) :
  scheduled p -> scheduled (entering now p).
Proof. intros H t Ht. fields_in Ht. fields. exact (H t Ht). Qed.

Lemma play_scheduled (now : Q) (p : EventStreamPlayer) :
  scheduled p -> scheduled (after (play now p)).
Proof.
  intro Hs. rewrite play_unfold.
  destruct (isPlaying p && negb (isPaused p)); [exact Hs|].
  apply (armedAtInstant_scheduled now).
  apply scheduleAndAnnounce_armedAtInstant, entering_scheduled, Hs.
Qed.

Lemma pausedFrom_no_timer (now : Q) (p : EventStreamPlayer) :
  scheduled p -> timers (pausedFrom now p) = [].
Proof. intro H. fields. apply clearAll_listed. exact H. Qed.

Lemma stopped_no_timer (p : EventStreamPlayer) :
  scheduled p -> timers (stopped p) = [].
Proof. intro H. fields. apply clearAll_listed. exact H. Qed.

Lemma pause_scheduled (now : Q) (p : EventStreamPlayer) :
  scheduled p -> scheduled (after (pause now p)).
Proof.
  intro Hs. rewrite pause_unfold.
  destruct (negb (isPlaying p) || isPaused p); [exact Hs|].
  apply no_timer_scheduled, pausedFrom_no_timer, Hs.
Qed.

Lemma stop_scheduled (p : EventStreamPlayer) :
  scheduled p -> scheduled (after (stop p)).
Proof.
  intro Hs. rewrite stop_unfold.
  destruct (negb (isPlaying p)); [exact Hs|].
  apply no_timer_scheduled, stopped_no_timer, Hs.
Qed.

Lemma sought_scheduled (c : Q) (p : EventStreamPlayer) :
  scheduled p -> scheduled (sought c p).
Proof. intros H t Ht. fields_in Ht. fields. exact (H t Ht). Qed.

Lemma seekTo_scheduled (t now : Q) (p : EventStreamPlayer) :
  scheduled p -> scheduled (after (seekTo t now p)).
Proof.
  intro Hs. rewrite seekTo_unfold.
  destruct (isPlaying p && negb (isPaused p)).
  - apply play_scheduled, sought_scheduled, no_timer_scheduled,
      pausedFrom_no_timer, Hs.
  - apply sought_scheduled, Hs.
Qed.

Lemma setPlaybackSpeed_scheduled (s now : Q) (p : EventStreamPlayer) :
  scheduled p -> scheduled (after (setPlaybackSpeed s now p)).
Proof.
  intro Hs. rewrite setPlaybackSpeed_unfold.
  destruct (Qle_bool s 0); [exact Hs|].
  destruct (isPlaying p && negb (isPaused p)); [|exact Hs].
  assert (H : scheduled (after (play now (atSpeed s (pausedFrom now p))))).
  { apply play_scheduled, no_timer_scheduled.
    exact (pausedFrom_no_timer now p Hs). }
  unfold bind.
  destruct (play now (atSpeed s (pausedFrom now p))) as [[] q|e q];
    exact H.
Qed.

Lemma onTimeout_scheduled (t : Timer) (now : Q) (p : EventStreamPlayer) :
  scheduled p -> scheduled (after (onTimeout t now p)).
Proof.
  intro Hs. rewrite onTimeout_cases.
  assert (Hf : scheduled (fired (firesIndex t) (firesAction t) p)).
  { intros u Hu. fields_in Hu. fields. exact (Hs u Hu). }
  destruct (atEnd (fired (firesIndex t) (firesAction t) p)); [|exact Hf].
  destruct (loop (options p)).
  - apply (armedAtInstant_scheduled now).
    apply scheduleNextActionsAt_armedAtInstant. exact Hf.
  - apply stop_scheduled. exact Hf.
Qed.

Lemma fireNext_scheduled (p : EventStreamPlayer) :
  scheduled p -> scheduled (after (fireNext p)).
Proof.
  intro Hs. rewrite fireNext_cases.
  destruct (nextTimer p) as [t|]; [|exact Hs].
  assert (H : scheduled
                (after (onTimeout t (due t)
                   (set_timers
                      (filter (fun u => negb (Nat.eqb (timerId u) (timerId t)))
                         (timers p)) p)))).
  { apply onTimeout_scheduled. intros u Hu.
    cbn [timers set_timers] in Hu. apply filter_In in Hu.
    exact (Hs u (proj1 Hu)). }
  unfold bind.
  destruct (onTimeout t (due t) _) as [[] q|e q]; exact H.
Qed.

Lemma runTimers_scheduled (n : nat) :
  forall p : EventStreamPlayer,
    scheduled p -> scheduled (after (runTimers n p)).
Proof.
  induction n as [|n IH]; intros p Hs; [exact Hs|].
  cbn [runTimers]. unfold bind.
  pose proof (fireNext_scheduled p Hs) as H.
  destruct (fireNext p) as [[|] q|e q]; cbn [after] in H |- *;
    [apply IH; exact H | exact H | exact H].
Qed.

Lemma load_cases (content : Exn * string + list ActionRecord) (videoPath : bool)
  (now : Q) (p : EventStreamPlayer) :
  exists q,
    timers q = timers p /\ scheduledActions q = scheduledActions p
    /\ (after (load content videoPath now p) = q
        \/ after (load content videoPath now p) = after (play now q)).
Proof.
  unfold load, try_catch, emitError, emit.
  unfold bind, assign, this, ret, throw. cbv beta iota.
  destruct content as [[e m]|log]; cbv beta iota.
  - destruct (errorListener p); eexists; (split; [|split; [|left; reflexivity]]);
      reflexivity.
  - destruct videoPath; cbv beta iota;
      match goal with
      | |- context [autoPlay (options ?x)] =>
          change (autoPlay (options x)) with (autoPlay (options p))
      end;
      (destruct (autoPlay (options p));
       [ eexists; (split; [|split; [|right; reflexivity]]); reflexivity
       | eexists; (split; [|split; [|left; reflexivity]]); reflexivity ]).
Qed.

Lemma load_scheduled (content : Exn * string + list ActionRecord) (videoPath : bool)
  (now : Q) (p : EventStreamPlayer) :
  scheduled p -> scheduled (after (load content videoPath now p)).
Proof.
  intro Hs.
  destruct (load_cases content videoPath now p) as (q & Ht & Hsch & [E|E]);
    rewrite E.
  - intros t H. rewrite Ht in H. rewrite Hsch. exact (Hs t H).
  - apply play_scheduled. intros t H. rewrite Ht in H. rewrite Hsch.
    exact (Hs t H).
Qed.

(** X1.  Every pending timer is one that [scheduledActions] lists: this
    holds for a new player and every method keeps it, so does a timer that
    fires. *)
Theorem pending_timers_are_scheduled :
  (forall opts, scheduled (constructor opts))
  /\ (forall p : EventStreamPlayer,
         scheduled p ->
         (forall content videoPath now,
             scheduled (after (load content videoPath now p)))
         /\ (forall now, scheduled (after (play now p)))
         /\ (forall now, scheduled (after (pause now p)))
         /\ scheduled (after (stop p))
         /\ (forall t now, scheduled (after (seekTo t now p)))
         /\ (forall s now, scheduled (after (setPlaybackSpeed s now p)))
         /\ (forall n, scheduled (after (runTimers n p)))).
Proof.
  split.
  - intros opts t H. destruct H.
  - intros p Hs. split; [|split; [|split; [|split; [|split; [|split]]]]].
    + intros. apply load_scheduled, Hs.
    + intros. apply play_scheduled, Hs.
    + intros. apply pause_scheduled, Hs.
    + apply stop_scheduled, Hs.
    + intros. apply seekTo_scheduled, Hs.
    + intros. apply setPlaybackSpeed_scheduled, Hs.
    + intros. apply runTimers_scheduled, Hs.
Qed.

(** X2.  On a player whose pending timers are the scheduled ones, a
    [pause()] that pauses and a [stop()] that stops leave no timer pending,
    so nothing is emitted until the next [play()]; and after a [play()] that
    starts or resumes, every pending timer was armed by that call. *)
Theorem pause_and_stop_cancel_every_timer (p : EventStreamPlayer) :
  scheduled p ->
  (forall now, isPlaying p = true -> isPaused p = false ->
      timers (after (pause now p)) = []
      /\ forall n, emitted (after (runTimers n (after (pause now p))))
                   = emitted (after (pause now p)))
  /\ (isPlaying p = true ->
      timers (after (stop p)) = []
      /\ forall n, emitted (after (runTimers n (after (stop p))))
                   = emitted (after (stop p)))
  /\ (forall now, isPlaying p && negb (isPaused p) = false ->
      forall t, In t (timers (after (play now p))) -> armedAt t = now).
Proof.
  intro Hs. split; [|split].
  - intros now H1 H2. rewrite pause_unfold, H1, H2. cbn [negb orb after].
    pose proof (pausedFrom_no_timer now p Hs) as Ht.
    split; [exact Ht|]. intro n. rewrite (runTimers_none n _ Ht). reflexivity.
  - intro H1. rewrite stop_unfold, H1. cbn [negb after].
    pose proof (stopped_no_timer p Hs) as Ht.
    split; [exact Ht|]. intro n. rewrite (runTimers_none n _ Ht). reflexivity.
  - intros now Hg t Ht. rewrite play_unfold, Hg in Ht.
    exact (proj1 (scheduleAndAnnounce_armedAtInstant now (entering now p)
                    (entering_scheduled now p Hs) t Ht)).
Qed.

Lemma pause_and_stop_cancel_every_timer_witness :
  timers (after (pause 600 (after (play 100 (Scenario.loaded defaultOptions)))))
  = [].
Proof.
  assert (A : scheduled (after (play 100 (Scenario.loaded defaultOptions)))).
  { apply play_scheduled. intros t H. vm_compute in H. destruct H. }
  destruct (pause_and_stop_cancel_every_timer _ A) as (H & _).
  assert (A1 : isPlaying (after (play 100 (Scenario.loaded defaultOptions)))
               = true) by (vm_compute; reflexivity).
  assert (A2 : isPaused (after (play 100 (Scenario.loaded defaultOptions)))
               = false) by (vm_compute; reflexivity).
  exact (proj1 (H 600 A1 A2)).
Defined.

Lemma pending_timers_are_scheduled_witness :
  scheduled (after (play 100 (Scenario.loaded defaultOptions))).
Proof.
  destruct pending_timers_are_scheduled as [_ H].
  assert (A : scheduled (Scenario.loaded defaultOptions)).
  { intros t Ht. vm_compute in Ht. destruct Ht. }
  destruct (H _ A) as (_ & H2 & _). exact (H2 100).
Defined.

(** *** Playing twice, pausing *)

(** X3.  [play()] always leaves the player playing and not paused, whether
    it returns or throws; so a second [play()], at any instant, returns at
    once: it arms no timer and emits nothing. *)
Theorem play_twice_is_play_once (now now' : Q) (p : EventStreamPlayer) :
  isPlaying (after (play now p)) = true
  /\ isPaused (after (play now p)) = false
  /\ play now' (after (play now p)) = Returned tt (after (play now p)).
Proof.
  destruct (play_mode now p) as (_ & _ & H1 & H2).
  split; [exact H1|]. split; [exact H2|].
  apply play_playing; assumption.
Qed.

(** X4.  A [pause()] that pauses stores no new position: it sets [isPaused]
    before it reads the clock, so [currentTimestamp] stays what it was when
    playback started or was last sought, however long the player has
    played; the cursor and the anchor stay too, and ['pause'] reports the
    old position.  A resume then starts the clock from that old position
    (when it does not restart a loop). *)
Theorem pause_keeps_the_old_position (now1 now2 : Q) (p : EventStreamPlayer) :
  isPlaying p = true -> isPaused p = false ->
  let q := after (pause now1 p) in
  pause now1 p = Returned tt q
  /\ isPaused q = true
  /\ currentTimestamp q = currentTimestamp p
  /\ actionIndex q = actionIndex p
  /\ startTime q = startTime p
  /\ emitted q
     = emitted p
         ++ [mkEvent "pause" (Position (currentTimestamp p) (actionIndex p))]
  /\ (0 < playbackSpeed (options p) ->
      atEnd p && loop (options p) = false ->
      calculateCurrentTimestamp now2 (after (play now2 q))
      == currentTimestamp p).
Proof.
  intros Hpl Hpa. cbn zeta. rewrite pause_unfold, Hpl, Hpa.
  cbn [negb orb after]. fields.
  split; [reflexivity|]. split; [reflexivity|]. split; [reflexivity|].
  split; [reflexivity|]. split; [reflexivity|]. split; [reflexivity|].
  intros Hs Hl.
  assert (Hp : isPaused (pausedFrom now1 p) = true) by (fields; reflexivity).
  assert (Hl' : atEnd (pausedFrom now1 p)
                && loop (options (pausedFrom now1 p)) = false)
    by (unfold atEnd; fields; exact Hl).
  assert (Hs' : 0 < playbackSpeed (options (pausedFrom now1 p)))
    by (fields; exact Hs).
  assert (Hc' : currentTimestamp (pausedFrom now1 p) = currentTimestamp p)
    by (fields; reflexivity).
  generalize dependent (pausedFrom now1 p). intros s Hp Hl' Hs' Hc'.
  destruct (play_resumed now2 s Hp Hl') as (Ho & _ & Hc & Hst & Hip & Hia).
  generalize dependent (after (play now2 s)). intros r Ho Hc Hst Hip Hia.
  fields_in Ho. fields_in Hst. fields_in Hip. fields_in Hia.
  unfold calculateCurrentTimestamp. rewrite Hip, Hia, Hst, Ho. cbn [negb].
  rewrite Hc'.
  assert (Hne : ~ playbackSpeed (options s) == 0).
  { intro E. rewrite E in Hs'. apply (Qlt_irrefl 0 Hs'). }
  field. exact Hne.
Qed.

Lemma pause_keeps_the_old_position_witness :
  currentTimestamp
    (after (pause 600 (after (play 100 (Scenario.loaded defaultOptions)))))
  = currentTimestamp (after (play 100 (Scenario.loaded defaultOptions)))
  /\ calculateCurrentTimestamp 600
       (after (play 100 (Scenario.loaded defaultOptions))) == 500.
Proof.
  assert (A1 : isPlaying (after (play 100 (Scenario.loaded defaultOptions)))
               = true) by (vm_compute; reflexivity).
  assert (A2 : isPaused (after (play 100 (Scenario.loaded defaultOptions)))
               = false) by (vm_compute; reflexivity).
  pose proof (pause_keeps_the_old_position 600 5000 _ A1 A2) as H.
  cbn zeta in H. destruct H as (_ & _ & H & _).
  split; [exact H|]. vm_compute. reflexivity.
Defined.

(** *** The cursor that [findActionIndex] gives *)

Lemma findIndexFrom_first {A : Type} (f : A -> bool) (l : list A) :
  forall i : Z,
    (findIndexFrom f l i = (-1)%Z /\ forall a, In a l -> f a = false)
    \/ exists (k : nat) (a : A),
         findIndexFrom f l i = (i + Z.of_nat k)%Z
         /\ nth_error l k = Some a /\ f a = true
         /\ forall j b, (j < k)%nat -> nth_error l j = Some b -> f b = false.
Proof.
  induction l as [|x l IH]; intro i; cbn [findIndexFrom].
  - left. split; [reflexivity | intros a []].
  - destruct (f x) eqn:E.
    + right. exists 0%nat, x. split; [lia|]. split; [reflexivity|].
      split; [exact E|]. intros j b Hj. lia.
    + destruct (IH (i + 1)%Z) as [[H1 H2]|(k & a & H1 & H2 & H3 & H4)].
      * left. split; [exact H1|]. intros a [<-|Ha]; [exact E | exact (H2 a Ha)].
      * right. exists (S k), a. split; [lia|]. split; [exact H2|].
        split; [exact H3|]. intros j b Hj Hb. destruct j as [|j].
        -- injection Hb as <-. exact E.
        -- apply (H4 j b); [lia | exact Hb].
Qed.

Lemma getActionDetails_nth (k : nat) (p : EventStreamPlayer)
  (a : ActionRecord) :
  nth_error (actionLog p) k = Some a ->
  getActionDetails (Z.of_nat k) p = Some a.
Proof.
  intro H. unfold getActionDetails.
  assert (k < length (actionLog p))%nat by (apply nth_error_Some; congruence).
  replace (Z.of_nat k <? 0)%Z with false by (symmetry; apply Z.ltb_ge; lia).
  replace (Z.of_nat (length (actionLog p)) <=? Z.of_nat k)%Z with false
    by (symmetry; apply Z.leb_gt; lia).
  cbn [orb]. rewrite Nat2Z.id. exact H.
Qed.

(** X5.  [findActionIndex(t)] is the index of the first entry at or after
    [t]: either it is [-1], every entry is before [t] and
    [getActionDetails(-1)] is [null]; or it is an index in range,
    [getActionDetails] gives there an entry at or after [t], and every
    entry at a smaller index is before [t].  [getActionDetails] is [null]
    exactly out of range. *)
Theorem findActionIndex_is_first (t : Q) (p : EventStreamPlayer) :
  ((findActionIndex t p = (-1)%Z
    /\ getActionDetails (findActionIndex t p) p = None
    /\ forall a, In a (actionLog p) -> timestamp a < t)
   \/ (exists a,
         (0 <= findActionIndex t p < Z.of_nat (length (actionLog p)))%Z
         /\ getActionDetails (findActionIndex t p) p = Some a
         /\ t <= timestamp a
         /\ forall j b, (0 <= j < findActionIndex t p)%Z ->
                        getActionDetails j p = Some b -> timestamp b < t))
  /\ (forall i, getActionDetails i p = None
                <-> (i < 0 \/ Z.of_nat (length (actionLog p)) <= i)%Z).
Proof.
  split.
  - unfold findActionIndex, findIndex.
    destruct (findIndexFrom_first
                (fun action => Qle_bool t (timestamp action)) (actionLog p) 0)
      as [[H1 H2]|(k & a & H1 & H2 & H3 & H4)].
    + left. rewrite H1. split; [reflexivity|]. split; [reflexivity|].
      intros a Ha. apply Qle_bool_false. exact (H2 a Ha).
    + right. exists a. rewrite H1. cbn [Z.add].
      assert (k < length (actionLog p))%nat
        by (apply nth_error_Some; congruence).
      split; [lia|]. split; [apply getActionDetails_nth; exact H2|].
      split; [apply Qle_bool_iff; exact H3|].
      intros j b Hj Hb. apply Qle_bool_false.
      apply (H4 (Z.to_nat j) b); [lia|].
      unfold getActionDetails in Hb.
      destruct ((j <? 0)%Z || (Z.of_nat (length (actionLog p)) <=? j)%Z);
        [discriminate Hb | exact Hb].
  - intro i. unfold getActionDetails.
    destruct (i <? 0)%Z eqn:E1; cbn [orb].
    + apply Z.ltb_lt in E1. split; [intros _; lia | reflexivity].
    + apply Z.ltb_ge in E1.
      destruct (Z.of_nat (length (actionLog p)) <=? i)%Z eqn:E2.
      * apply Z.leb_le in E2. split; [intros _; lia | reflexivity].
      * apply Z.leb_gt in E2. split.
        -- intro H. apply nth_error_None in H. lia.
        -- intros [H|H]; lia.
Qed.

(** *** Playing from the start *)

Lemma catchUpEvents_none (debug : bool) (speed cT : Q)
  (rest : list ActionRecord) :
  Forall (fun a => overdue speed cT a = false) rest ->
  catchUpEvents debug speed cT rest = [].
Proof.
  induction 1 as [|a l Ha _ IH]; [reflexivity|].
  cbn [catchUpEvents]. rewrite Ha. exact IH.
Qed.

Lemma armed_app_overdue (now speed cT : Q) (od r : list ActionRecord) :
  Forall (fun a => overdue speed cT a = true) od ->
  forall id i,
    armed now speed cT id i (od ++ r)
    = armed now speed cT id (i + Z.of_nat (length od)) r.
Proof.
  induction 1 as [|a l Ha _ IH]; intros id i.
  - cbn [app length Z.of_nat]. rewrite Z.add_0_r. reflexivity.
  - cbn [app armed]. rewrite Ha, IH. cbn [length].
    replace (i + 1 + Z.of_nat (length l))%Z
      with (i + Z.of_nat (S (length l)))%Z by lia.
    reflexivity.
Qed.

Lemma armed_Forall2 (now speed cT : Q) (rest : list ActionRecord) :
  Forall (fun a => overdue speed cT a = false) rest ->
  forall id i,
    Forall2 (fun t a => firesAction t = a /\ armedAt t = now
                        /\ delay t = delayOf speed cT a)
      (armed now speed cT id i rest) rest.
Proof.
  induction 1 as [|a l Ha _ IH]; intros id i; cbn [armed].
  - constructor.
  - rewrite Ha. constructor; [cbn; auto | apply IH].
Qed.

Lemma catchUpEvents_app (debug : bool) (speed cT : Q)
  (l1 l2 : list ActionRecord) :
  catchUpEvents debug speed cT (l1 ++ l2)
  = catchUpEvents debug speed cT l1 ++ catchUpEvents debug speed cT l2.
Proof.
  induction l1 as [|a l IH]; cbn [app catchUpEvents]; [reflexivity|].
  rewrite IH, app_assoc. reflexivity.
Qed.

Lemma actionsOf_catchUpEvents (speed cT : Q) (od : list ActionRecord) :
  Forall (fun a => overdue speed cT a = true) od ->
  actionsOf (catchUpEvents true speed cT od) = od.
Proof.
  induction 1 as [|a l Ha _ IH]; [reflexivity|].
  cbn [catchUpEvents]. rewrite Ha. cbn [andb].
  rewrite actionsOf_app, actionsOf_actionEvents, IH. reflexivity.
Qed.

(** The pass of a player that starts or resumes at a cursor in range, on a
    stretch of the log whose overdue entries [od] come first: one timer per
    entry of the others, [nod]; the overdue ones are emitted at once in
    debug mode and dropped otherwise. *)
Lemma scheduleNextActions_split (now : Q) (e : EventStreamPlayer) (k : nat)
  (od nod : list ActionRecord) :
  isPlaying e = true -> isPaused e = false ->
  actionIndex e = Z.of_nat k -> (k < length (actionLog e))%nat ->
  scheduled e ->
  skipn k (actionLog e) = od ++ nod ->
  Forall (fun a => overdue (playbackSpeed (options e))
                     (calculateCurrentTimestamp now e) a = true) od ->
  Forall (fun a => overdue (playbackSpeed (options e))
                     (calculateCurrentTimestamp now e) a = false) nod ->
  exists q,
    scheduleNextActions now e = Returned tt q
    /\ timers q
       = armed now (playbackSpeed (options e))
           (calculateCurrentTimestamp now e) (nextTimerId e)
           (Z.of_nat (k + length od)) nod
    /\ actionsOf (emitted q)
       = actionsOf (emitted e) ++ (if debugMode (options e) then od else [])
    /\ isPlaying q = true /\ isPaused q = false
    /\ actionLog q = actionLog e /\ options q = options e
    /\ currentTimestamp q = currentTimestamp e
    /\ startTime q = startTime e
    /\ scheduled q
    /\ emitted q
       = emitted e
           ++ catchUpEvents (debugMode (options e)) (playbackSpeed (options e))
                (calculateCurrentTimestamp now e) od
    /\ actionIndex q
       = cursorAfter (playbackSpeed (options e))
           (calculateCurrentTimestamp now e) (Z.of_nat k) (od ++ nod)
           (Z.of_nat k).
Proof.
  intros Hpl Hpa Hix Hk Hsch Hsplit Hod Hnod.
  assert (Hend : atEnd e = false).
  { unfold atEnd. rewrite Hix. apply Z.leb_gt. lia. }
  unfold scheduleNextActions.
  rewrite scheduleNextActionsAt_pass by (rewrite ?Hix; auto; lia).
  rewrite Hix, Nat2Z.id.
  pose proof (cleared_no_timer e Hsch) as Hno.
  pose proof (passed_armedAtInstant now (calculateCurrentTimestamp now e)
                (Z.of_nat k) (skipn k (actionLog e)) (cleared e) Hno) as Hsq.
  apply armedAtInstant_scheduled in Hsq.
  generalize (passed_timers now (calculateCurrentTimestamp now e)
                (Z.of_nat k) (skipn k (actionLog e)) (cleared e)).
  generalize (passed_emitted now (calculateCurrentTimestamp now e)
                (Z.of_nat k) (skipn k (actionLog e)) (cleared e)).
  generalize (passed_isPlaying now (calculateCurrentTimestamp now e)
                (Z.of_nat k) (skipn k (actionLog e)) (cleared e)).
  generalize (passed_isPaused now (calculateCurrentTimestamp now e)
                (Z.of_nat k) (skipn k (actionLog e)) (cleared e)).
  generalize (passed_actionLog now (calculateCurrentTimestamp now e)
                (Z.of_nat k) (skipn k (actionLog e)) (cleared e)).
  generalize (passed_options now (calculateCurrentTimestamp now e)
                (Z.of_nat k) (skipn k (actionLog e)) (cleared e)).
  generalize (passed_currentTimestamp now (calculateCurrentTimestamp now e)
                (Z.of_nat k) (skipn k (actionLog e)) (cleared e)).
  generalize (passed_startTime now (calculateCurrentTimestamp now e)
                (Z.of_nat k) (skipn k (actionLog e)) (cleared e)).
  generalize (passed_actionIndex now (calculateCurrentTimestamp now e)
                (Z.of_nat k) (skipn k (actionLog e)) (cleared e)).
  generalize dependent (passed now (calculateCurrentTimestamp now e)
                (Z.of_nat k) (skipn k (actionLog e)) (cleared e)).
  intros P Hsq Hi Hst Hc Ho Hl Hq Hp He Ht.
  fields_in Hi. fields_in Hst. fields_in Hc. fields_in Ho. fields_in Hl.
  fields_in Hq. fields_in Hp. fields_in He. fields_in Ht.
  rewrite cleared_timers in Hno. rewrite Hno in Ht. cbn [app] in Ht.
  rewrite Hsplit in He, Ht, Hi. rewrite Hix in Hi.
  rewrite (armed_app_overdue _ _ _ _ _ Hod) in Ht.
  rewrite catchUpEvents_app, (catchUpEvents_none _ _ _ _ Hnod), app_nil_r
    in He.
  exists P. rewrite Hp, Hq, Hpl, Hpa.
  split; [reflexivity|]. split; [rewrite Ht; f_equal; lia|].
  split; [|auto 12].
  rewrite He, actionsOf_app. f_equal.
  destruct (debugMode (options e)).
  - apply actionsOf_catchUpEvents. exact Hod.
  - rewrite catchUpEvents_off. reflexivity.
Qed.

Lemma scheduleAndAnnounce_returned (now : Q) (e q : EventStreamPlayer) :
  scheduleNextActions now e = Returned tt q ->
  scheduleAndAnnounce now e
  = Returned tt
      (set_emitted
         (emitted q
            ++ [mkEvent "play" (Position (currentTimestamp q) (actionIndex q))])
         q).
Proof. intro H. unfold scheduleAndAnnounce, bind. rewrite H. reflexivity. Qed.

(** A pass that does not restart the loop reads the clock once. *)
Lemma scheduleNextActionsOn_no_restart (d : nat) (clock : nat -> Q)
  (p : EventStreamPlayer) :
  atEnd p && loop (options p) = false ->
  scheduleNextActionsOn d clock p = scheduleNextActionsAt d (clock 0%nat) p.
Proof.
  intro Hl.
  destruct d; cbn [scheduleNextActionsOn scheduleNextActionsAt]; unfold bind;
    rewrite clearScheduledActions_effect; fold (cleared p); cbn [this];
    replace (atEnd (cleared p)) with (atEnd p) by reflexivity;
    replace (options (cleared p)) with (options p) by reflexivity;
    rewrite Hl; reflexivity.
Qed.

Lemma playOn_unfold (clock : nat -> Q) (p : EventStreamPlayer) :
  atEnd (entering (clock 0%nat) p) && loop (options p) = false ->
  playOn clock p
  = if isPlaying p && negb (isPaused p) then Returned tt p
    else scheduleAndAnnounce (clock 1%nat) (entering (clock 0%nat) p).
Proof.
  intro Hl.
  unfold playOn, scheduleAndAnnounce, scheduleNextActions, bind, this, assign.
  destruct (isPlaying p && negb (isPaused p)); [reflexivity|].
  unfold entering in Hl |- *.
  destruct (isPaused p);
    rewrite scheduleNextActionsOn_no_restart by exact Hl; reflexivity.
Qed.

Lemma playOn_playing (clock : nat -> Q) (p : EventStreamPlayer) :
  isPlaying p = true -> isPaused p = false -> playOn clock p = Returned tt p.
Proof.
  intros H1 H2. unfold playOn, bind, this. rewrite H1, H2. reflexivity.
Qed.

Lemma playable_not_overdue (clock : nat -> Q) (speed cT : Q)
  (log : list ActionRecord) :
  0 < speed -> playable clock speed log ->
  cT == (clock 1%nat - clock 0%nat) * speed ->
  Forall (fun a => overdue speed cT a = false) log
  /\ Forall (fun a => delayOf speed cT a <= TIMEOUT_MAX) log
  /\ nonneg_log log.
Proof.
  intros Hs [Hc H] HcT. unfold nonneg_log. rewrite !Forall_forall in *.
  assert (Ht : 0 <= (clock 1%nat - clock 0%nat) * speed) by nra.
  split; [|split]; intros a Ha; destruct (H a Ha) as [H1 H2].
  - apply overdue_ge. rewrite HcT. lra.
  - unfold delayOf. rewrite HcT. lra.
  - assert (Hx : timestamp a == timestamp a / speed * speed)
      by (field; lra).
    generalize dependent (timestamp a / speed). intros x H1 H2 Hx. nra.
Qed.

(** [play] from position [0] of a sorted log that is playable with the
    clock reads of the call: one timer per entry, and the timers emit the
    log. *)
Lemma playOn_from_zero (clock : nat -> Q) (p : EventStreamPlayer) :
  isPlaying p = false -> isPaused p = false -> scheduled p ->
  currentTimestamp p = 0 ->
  0 < playbackSpeed (options p) -> loop (options p) = false ->
  sorted_log (actionLog p) -> actionLog p <> [] ->
  playable clock (playbackSpeed (options p)) (actionLog p) ->
  exists played,
    playOn clock p = Returned tt played
    /\ isPlaying played = true /\ isPaused played = false
    /\ actionLog played = actionLog p
    /\ Forall2 (fun t b => firesAction t = b /\ armedAt t = clock 1%nat
                           /\ delay t
                              == timestamp b / playbackSpeed (options p)
                                 - (clock 1%nat - clock 0%nat)
                                   * playbackSpeed (options p))
         (timers played) (actionLog p)
    /\ actionsOf (emitted played) = actionsOf (emitted p)
    /\ let o := runTimers (length (actionLog p)) played in
       threw o = None
       /\ actionsOf (emitted (after o)) = actionsOf (emitted p) ++ actionLog p
       /\ timers (after o) = []
       /\ isPlaying (after o) = false.
Proof.
  intros Hpl Hpa Hsch Hc Hs Hloop Hsort Hne Hplay.
  assert (HcT : calculateCurrentTimestamp (clock 1%nat)
                  (entering (clock 0%nat) p)
                == (clock 1%nat - clock 0%nat) * playbackSpeed (options p)).
  { unfold calculateCurrentTimestamp.
    rewrite entering_isPlaying, entering_isPaused, entering_startTime,
      entering_options, Hc.
    cbn [negb]. field. lra. }
  destruct (playable_not_overdue clock _ _ _ Hs Hplay HcT)
    as (Hnod & Hmax & Hnn).
  assert (Hix : actionIndex (entering (clock 0%nat) p) = 0%Z).
  { rewrite entering_actionIndex_fresh by exact Hpa.
    unfold findActionIndex, findIndex.
    destruct (actionLog p) as [|a l]; [congruence|].
    cbn [findIndexFrom].
    replace (Qle_bool (currentTimestamp p) (timestamp a)) with true;
      [reflexivity|].
    symmetry. apply Qle_bool_iff. rewrite Hc.
    inversion Hnn; assumption. }
  assert (Hlen : (0 < length (actionLog p))%nat)
    by (destruct (actionLog p); [congruence | cbn [length]; lia]).
  assert (Hend : atEnd (entering (clock 0%nat) p) = false).
  { unfold atEnd. rewrite Hix, entering_actionLog. apply Z.leb_gt. lia. }
  rewrite playOn_unfold by (rewrite Hend; reflexivity).
  rewrite Hpl. cbn [andb].
  destruct (scheduleNextActions_split (clock 1%nat)
              (entering (clock 0%nat) p) 0 [] (actionLog p))
    as (q & Hq & Htm & Hem & Hqp & Hqa & Hql & Hqo & _).
  - apply entering_isPlaying.
  - apply entering_isPaused.
  - exact Hix.
  - fields. exact Hlen.
  - apply entering_scheduled. exact Hsch.
  - fields. reflexivity.
  - constructor.
  - fields. exact Hnod.
  - fields_in Htm. fields_in Hem. fields_in Hql. fields_in Hqo.
    cbn [length Nat.add Z.of_nat] in Htm.
    rewrite (scheduleAndAnnounce_returned _ _ q Hq).
    assert (Htm' : timers (set_emitted
        (emitted q ++ [mkEvent "play"
                          (Position (currentTimestamp q) (actionIndex q))]) q)
      = timers q) by reflexivity.
    assert (Hem' : actionsOf (emitted (set_emitted
        (emitted q ++ [mkEvent "play"
                          (Position (currentTimestamp q) (actionIndex q))]) q))
      = actionsOf (emitted q)).
    { assigned. rewrite actionsOf_app. cbn [actionsOf]. apply app_nil_r. }
    assert (Hqp' : isPlaying (set_emitted
        (emitted q ++ [mkEvent "play"
                          (Position (currentTimestamp q) (actionIndex q))]) q)
      = isPlaying q) by reflexivity.
    assert (Hqa' : isPaused (set_emitted
        (emitted q ++ [mkEvent "play"
                          (Position (currentTimestamp q) (actionIndex q))]) q)
      = isPaused q) by reflexivity.
    assert (Hql' : actionLog (set_emitted
        (emitted q ++ [mkEvent "play"
                          (Position (currentTimestamp q) (actionIndex q))]) q)
      = actionLog q) by reflexivity.
    assert (Hqo' : options (set_emitted
        (emitted q ++ [mkEvent "play"
                          (Position (currentTimestamp q) (actionIndex q))]) q)
      = options q) by reflexivity.
    generalize dependent (set_emitted
        (emitted q ++ [mkEvent "play"
                          (Position (currentTimestamp q) (actionIndex q))]) q).
    intros played Htm' Hem' Hqp' Hqa' Hql' Hqo'.
    rewrite Htm in Htm'. rewrite Hem in Hem'. rewrite Hqp in Hqp'.
    rewrite Hqa in Hqa'. rewrite Hql in Hql'. rewrite Hqo in Hqo'.
    clear q Hq Htm Hem Hqp Hqa Hql Hqo.
    assert (Hem : actionsOf (emitted played) = actionsOf (emitted p))
      by (rewrite Hem'; destruct (debugMode (options p)); apply app_nil_r).
    clear Hem'.
    generalize dependent (calculateCurrentTimestamp (clock 1%nat)
                            (entering (clock 0%nat) p)).
    intros cT HcT Hnod Hmax Htm'.
    exists played. split; [reflexivity|].
    split; [exact Hqp'|]. split; [exact Hqa'|]. split; [exact Hql'|].
    split.
    { rewrite Htm'.
      eapply Forall2_impl; [|apply armed_Forall2; exact Hnod].
      intros t a (H1 & H2 & H3). split; [exact H1|]. split; [exact H2|].
      rewrite H3. unfold delayOf. rewrite HcT. reflexivity. }
    split; [exact Hem|].
    destruct (runTimers_armed (clock 1%nat) (playbackSpeed (options p)) cT Hs
                (actionLog p) [] played (nextTimerId p))
      as (H1 & H2 & H3 & H4); try assumption.
    + rewrite Hqo'. exact Hloop.
    + cbn zeta. split; [exact H1|]. split; [|split; [exact H3 | exact H4]].
      rewrite H2, Hem. reflexivity.
Qed.

(** *** [stop], then [play] *)

(** X9.  [stop()] rewinds: after [stop()] on a playing player, [play()]
    starts over from the first entry.  [stop()] leaves the position and the
    cursor at [0] and no timer.  On a sorted log with entries, at a
    positive speed and without looping, the [play()] after it arms one
    timer per entry of the log, and these emit the whole log once more, in
    order; provided the log is playable with the two clock reads of that
    [play()]: the clock does not go back between them, no entry is due
    before the second read, and no entry is due later than the host's
    longest delay, [2^31 - 1] ms. *)
Theorem stop_then_play_replays_the_log (clock : nat -> Q)
  (p : EventStreamPlayer) :
  isPlaying p = true -> scheduled p ->
  0 < playbackSpeed (options p) -> loop (options p) = false ->
  sorted_log (actionLog p) -> actionLog p <> [] ->
  playable clock (playbackSpeed (options p)) (actionLog p) ->
  let halted := after (stop p) in
  let played := after (playOn clock halted) in
  let o := runTimers (length (actionLog p)) played in
  currentTimestamp halted = 0 /\ actionIndex halted = 0%Z
  /\ timers halted = []
  /\ threw (playOn clock halted) = None
  /\ Forall2 (fun t b => firesAction t = b /\ armedAt t = clock 1%nat
                         /\ delay t
                            == timestamp b / playbackSpeed (options p)
                               - (clock 1%nat - clock 0%nat)
                                 * playbackSpeed (options p))
       (timers played) (actionLog p)
  /\ threw o = None
  /\ actionsOf (emitted (after o)) = actionsOf (emitted p) ++ actionLog p
  /\ timers (after o) = []
  /\ isPlaying (after o) = false.
Proof.
  intros Hpl Hsch Hs Hloop Hsort Hne Hplay. cbn zeta.
  rewrite stop_unfold, Hpl. cbn [negb after].
  pose proof (stopped_no_timer p Hsch) as Hno.
  split; [reflexivity|]. split; [reflexivity|]. split; [exact Hno|].
  destruct (playOn_from_zero clock (stopped p))
    as (played & H1 & _ & _ & _ & H5 & _ & H7).
  - reflexivity.
  - reflexivity.
  - apply no_timer_scheduled. exact Hno.
  - reflexivity.
  - fields. exact Hs.
  - fields. exact Hloop.
  - fields. exact Hsort.
  - fields. exact Hne.
  - fields. exact Hplay.
  - rewrite H1. cbn [after threw]. split; [reflexivity|].
    cbn zeta in H7. revert H5 H7. fields.
    rewrite !actionsOf_app. cbn [actionsOf]. rewrite !app_nil_r.
    intros H5 (A1 & A2 & A3 & A4). auto 10.
Qed.

Lemma stop_then_play_replays_the_log_witness :
  actionsOf
    (emitted
       (after
          (runTimers
             (length
                (actionLog (after (play 100 (Scenario.loaded defaultOptions)))))
             (after
                (playOn (still 300)
                   (after
                      (stop
                         (after (play 100
                                   (Scenario.loaded defaultOptions))))))))))
  = Scenario.demoLog.
Proof.
  assert (A0 : isPlaying (after (play 100 (Scenario.loaded defaultOptions)))
               = true) by (vm_compute; reflexivity).
  assert (A1 : scheduled (after (play 100 (Scenario.loaded defaultOptions)))).
  { apply play_scheduled. intros t H. vm_compute in H. destruct H. }
  assert (A2 : 0 < playbackSpeed
                     (options
                        (after (play 100 (Scenario.loaded defaultOptions)))))
    by (vm_compute; reflexivity).
  assert (A4 : loop
                 (options (after (play 100 (Scenario.loaded defaultOptions))))
               = false) by (vm_compute; reflexivity).
  assert (A5 : sorted_log
                 (actionLog
                    (after (play 100 (Scenario.loaded defaultOptions))))).
  { vm_compute. repeat constructor; discriminate. }
  assert (A7 : actionLog (after (play 100 (Scenario.loaded defaultOptions)))
               <> []) by (vm_compute; discriminate).
  assert (A8 : playable (still 300)
                 (playbackSpeed
                    (options
                       (after (play 100 (Scenario.loaded defaultOptions)))))
                 (actionLog
                    (after (play 100 (Scenario.loaded defaultOptions))))).
  { vm_compute. split; [discriminate|].
    repeat constructor; discriminate. }
  pose proof (stop_then_play_replays_the_log (still 300) _ A0 A1 A2 A4 A5 A7
                A8) as H.
  cbn zeta in H. destruct H as (_ & _ & _ & _ & _ & _ & H & _).
  rewrite H. vm_compute. reflexivity.
Defined.

(** *** Looping *)

Lemma onTimeoutOn_cases (t : Timer) (clock : nat -> Q)
  (p : EventStreamPlayer) :
  onTimeoutOn t clock p
  = if atEnd (fired (firesIndex t) (firesAction t) p)
    then if loop (options p)
         then scheduleNextActionsOn 1 (fun k => clock (S k))
                (restarted (clock 0%nat)
                   (fired (firesIndex t) (firesAction t) p))
         else stop (fired (firesIndex t) (firesAction t) p)
    else Returned tt (fired (firesIndex t) (firesAction t) p).
Proof.
  unfold onTimeoutOn. unfold bind at 1.
  change (emitAction (firesAction t) p)
    with (Returned tt (after (emitAction (firesAction t) p))).
  cbv beta iota. unfold bind at 1. cbn [assign].
  fold (fired (firesIndex t) (firesAction t) p).
  unfold bind at 1. cbn [this].
  destruct (atEnd (fired (firesIndex t) (firesAction t) p)); [|reflexivity].
  rewrite fired_options. destruct (loop (options p)); reflexivity.
Qed.

Lemma cursorAfter_none (speed cT : Q) (rest : list ActionRecord) :
  Forall (fun a => overdue speed cT a = false) rest ->
  forall i c, cursorAfter speed cT i rest c = c.
Proof.
  induction 1 as [|a l Ha _ IH]; intros i c; [reflexivity|].
  cbn [cursorAfter]. rewrite Ha. apply IH.
Qed.

(** X10.  A looping player starts over instead of stopping.  With [loop]
    on, the callback of the timer of the last entry emits its action and
    then rewinds: the position and the cursor are [0], [startTime] is the
    first clock read of the callback, the player stays in the playing
    state, no ['stop'] is emitted, and one timer per entry of the log is
    pending again, armed at the second clock read; provided no entry is due
    before that second read. *)
Theorem looping_player_starts_over (t : Timer) (clock : nat -> Q)
  (p : EventStreamPlayer) :
  isPlaying p = true -> isPaused p = false -> scheduled p ->
  loop (options p) = true -> 0 < playbackSpeed (options p) ->
  actionLog p <> [] ->
  (firesIndex t + 1)%Z = Z.of_nat (length (actionLog p)) ->
  Forall (fun a => (clock 1%nat - clock 0%nat) * playbackSpeed (options p)
                   <= timestamp a / playbackSpeed (options p))
    (actionLog p) ->
  let o := onTimeoutOn t clock p in
  threw o = None
  /\ isPlaying (after o) = true /\ isPaused (after o) = false
  /\ currentTimestamp (after o) = 0 /\ actionIndex (after o) = 0%Z
  /\ startTime (after o) = clock 0%nat
  /\ emitted (after o) = emitted p ++ actionEvents (firesAction t)
  /\ Forall2 (fun u b => firesAction u = b /\ armedAt u = clock 1%nat
                         /\ delay u
                            == timestamp b / playbackSpeed (options p)
                               - (clock 1%nat - clock 0%nat)
                                 * playbackSpeed (options p))
       (timers (after o)) (actionLog p).
Proof.
  intros Hpl Hpa Hsch Hloop Hs Hne Hlast Htick. cbn zeta.
  rewrite onTimeoutOn_cases.
  assert (E : atEnd (fired (firesIndex t) (firesAction t) p) = true).
  { unfold atEnd. fields. apply Z.leb_le. lia. }
  rewrite E, Hloop. clear E.
  destruct (restarted_fields (clock 0%nat)
              (fired (firesIndex t) (firesAction t) p))
    as (R1 & R2 & R3 & R4 & R5 & R6 & R7 & _ & R9 & R10 & R11).
  fields_in R1. fields_in R2. fields_in R3. fields_in R4. fields_in R5.
  fields_in R6. rewrite fired_emitted in R7.
  generalize dependent (restarted (clock 0%nat)
                          (fired (firesIndex t) (firesAction t) p)).
  intros e R1 R2 R3 R4 R5 R6 R7 R9 R10 R11.
  assert (Hsch' : scheduled e).
  { intros u Hu. rewrite R5 in Hu. rewrite R6. exact (Hsch u Hu). }
  assert (Hlen : (0 < length (actionLog p))%nat)
    by (destruct (actionLog p); [congruence | cbn [length]; lia]).
  assert (Hend : atEnd e = false).
  { unfold atEnd. rewrite R2, R10. apply Z.leb_gt. lia. }
  rewrite scheduleNextActionsOn_no_restart by (rewrite Hend; reflexivity).
  assert (HcT : calculateCurrentTimestamp (clock 1%nat) e
                == (clock 1%nat - clock 0%nat) * playbackSpeed (options p)).
  { unfold calculateCurrentTimestamp. rewrite R1, R3, R4, R11, Hpl, Hpa.
    cbn [negb]. reflexivity. }
  assert (Hnod : Forall
            (fun a => overdue (playbackSpeed (options p))
                        (calculateCurrentTimestamp (clock 1%nat) e) a
                      = false) (actionLog p)).
  { rewrite Forall_forall in Htick |- *. intros a Ha.
    apply overdue_ge. rewrite HcT. specialize (Htick a Ha). lra. }
  destruct (scheduleNextActions_split (clock 1%nat) e 0 [] (actionLog p))
    as (q & Hq & B1 & _ & B3 & B4 & _ & _ & B7 & B8 & _ & B10 & B11).
  - rewrite R3. exact Hpl.
  - rewrite R4. exact Hpa.
  - exact R10.
  - rewrite R2. exact Hlen.
  - exact Hsch'.
  - rewrite R2. reflexivity.
  - constructor.
  - rewrite R1. exact Hnod.
  - unfold scheduleNextActions in Hq. rewrite Hq. cbn [after threw].
    rewrite R1 in B1, B10, B11. rewrite R9 in B7. rewrite R11 in B8.
    rewrite R7 in B10. cbn [catchUpEvents] in B10.
    rewrite app_nil_r in B10. cbn [app] in B11.
    rewrite (cursorAfter_none _ _ _ Hnod) in B11.
    split; [reflexivity|]. split; [exact B3|]. split; [exact B4|].
    split; [exact B7|]. split; [exact B11|]. split; [exact B8|].
    split; [exact B10|].
    rewrite B1.
    eapply Forall2_impl; [|apply armed_Forall2; exact Hnod].
    intros u a (H1 & H2 & H3). split; [exact H1|]. split; [exact H2|].
    rewrite H3. unfold delayOf. rewrite HcT. reflexivity.
Qed.

Lemma looping_player_starts_over_witness :
  isPlaying
    (after
       (onTimeoutOn (mkTimer 2 100 1250 2 (mkAction "navigation" 2500 ""))
          (still 1350)
          (after
             (runTimers 2
                (after (play 100 (Scenario.loaded Scenario.loopingOptions)))))))
  = true
  /\ actionIndex
       (after
          (onTimeoutOn (mkTimer 2 100 1250 2 (mkAction "navigation" 2500 ""))
             (still 1350)
             (after
                (runTimers 2
                   (after (play 100
                             (Scenario.loaded Scenario.loopingOptions)))))))
     = 0%Z.
Proof.
  assert (A1 : isPlaying
                 (after
                    (runTimers 2
                       (after (play 100
                                 (Scenario.loaded Scenario.loopingOptions)))))
               = true) by (vm_compute; reflexivity).
  assert (A2 : isPaused
                 (after
                    (runTimers 2
                       (after (play 100
                                 (Scenario.loaded Scenario.loopingOptions)))))
               = false) by (vm_compute; reflexivity).
  assert (A3 : scheduled
                 (after
                    (runTimers 2
                       (after (play 100
                                 (Scenario.loaded Scenario.loopingOptions)))))).
  { intros t H. vm_compute in H. destruct H as [<-|[]].
    vm_compute. auto. }
  assert (A4 : loop
                 (options
                    (after
                       (runTimers 2
                          (after (play 100
                                    (Scenario.loaded
                                       Scenario.loopingOptions))))))
               = true) by (vm_compute; reflexivity).
  assert (A5 : 0 < playbackSpeed
                     (options
                        (after
                           (runTimers 2
                              (after (play 100
                                        (Scenario.loaded
                                           Scenario.loopingOptions)))))))
    by (vm_compute; reflexivity).
  assert (A6 : actionLog
                 (after
                    (runTimers 2
                       (after (play 100
                                 (Scenario.loaded Scenario.loopingOptions)))))
               <> []) by (vm_compute; discriminate).
  assert (A7 : (firesIndex
                  (mkTimer 2 100 1250 2 (mkAction "navigation" 2500 "")) + 1)%Z
               = Z.of_nat
                   (length
                      (actionLog
                         (after
                            (runTimers 2
                               (after (play 100
                                         (Scenario.loaded
                                            Scenario.loopingOptions))))))))
    by (vm_compute; reflexivity).
  assert (A8 : Forall
                 (fun a =>
                    (still 1350 1%nat - still 1350 0%nat)
                    * playbackSpeed
                        (options
                           (after
                              (runTimers 2
                                 (after (play 100
                                           (Scenario.loaded
                                              Scenario.loopingOptions))))))
                    <= timestamp a
                       / playbackSpeed
                           (options
                              (after
                                 (runTimers 2
                                    (after (play 100
                                              (Scenario.loaded
                                                 Scenario.loopingOptions)))))))
                 (actionLog
                    (after
                       (runTimers 2
                          (after (play 100
                                    (Scenario.loaded
                                       Scenario.loopingOptions))))))).
  { vm_compute. repeat constructor; discriminate. }
  pose proof (looping_player_starts_over
                (mkTimer 2 100 1250 2 (mkAction "navigation" 2500 ""))
                (still 1350) _ A1 A2 A3 A4 A5 A6 A7 A8) as H.
  cbn zeta in H. destruct H as (_ & H1 & _ & _ & H2 & _).
  split; [exact H1 | exact H2].
Defined.

(** *** [load] *)

Lemma insertByTimestamp_perm (a : ActionRecord) (l : list ActionRecord) :
  Permutation (a :: l) (insertByTimestamp a l).
Proof.
  induction l as [|b r IH]; cbn [insertByTimestamp]; [reflexivity|].
  destruct (Qle_bool (timestamp a) (timestamp b)); [reflexivity|].
  rewrite perm_swap. apply perm_skip. exact IH.
Qed.

Lemma sortByTimestamp_perm (l : list ActionRecord) :
  Permutation l (sortByTimestamp l).
Proof.
  induction l as [|a r IH]; cbn [sortByTimestamp]; [reflexivity|].
  rewrite <- insertByTimestamp_perm. apply perm_skip. exact IH.
Qed.

Lemma insertByTimestamp_sorted (a : ActionRecord) (l : list ActionRecord) :
  sorted_log l -> sorted_log (insertByTimestamp a l).
Proof.
  induction 1 as [|b r Hle Hs IH]; cbn [insertByTimestamp].
  - constructor; constructor.
  - destruct (Qle_bool (timestamp a) (timestamp b)) eqn:E.
    + apply Qle_bool_iff in E. constructor; [|constructor; assumption].
      constructor; [exact E|].
      rewrite Forall_forall in Hle |- *. intros c Hc.
      exact (Qle_trans _ _ _ E (Hle c Hc)).
    + apply Qle_bool_false in E. constructor; [|exact IH].
      apply (Permutation_Forall (insertByTimestamp_perm a r)).
      constructor; [apply Qlt_le_weak; exact E | exact Hle].
Qed.

Lemma sortByTimestamp_sorts (l : list ActionRecord) :
  sorted_log (sortByTimestamp l).
Proof.
  induction l as [|a r IH]; cbn [sortByTimestamp]; [constructor|].
  apply insertByTimestamp_sorted. exact IH.
Qed.

(** The sort is stable: the entries of one timestamp keep their order. *)
Lemma insertByTimestamp_stable (ts : Q) (a : ActionRecord)
  (l : list ActionRecord) :
  filter (fun b => Qeq_bool (timestamp b) ts) (insertByTimestamp a l)
  = filter (fun b => Qeq_bool (timestamp b) ts) (a :: l).
Proof.
  induction l as [|b r IH]; cbn [insertByTimestamp]; [reflexivity|].
  destruct (Qle_bool (timestamp a) (timestamp b)) eqn:E; [reflexivity|].
  apply Qle_bool_false in E.
  cbn [filter] in IH |- *. rewrite IH.
  destruct (Qeq_bool (timestamp a) ts) eqn:Ea; [|reflexivity].
  destruct (Qeq_bool (timestamp b) ts) eqn:Eb; [|reflexivity].
  apply Qeq_bool_iff in Ea. apply Qeq_bool_iff in Eb. lra.
Qed.

Lemma sortByTimestamp_stable (ts : Q) (l : list ActionRecord) :
  filter (fun b => Qeq_bool (timestamp b) ts) (sortByTimestamp l)
  = filter (fun b => Qeq_bool (timestamp b) ts) l.
Proof.
  induction l as [|a r IH]; cbn [sortByTimestamp]; [reflexivity|].
  rewrite insertByTimestamp_stable. cbn [filter]. rewrite IH. reflexivity.
Qed.

Lemma sorted_log_inv (a : ActionRecord) (l : list ActionRecord) :
  sorted_log (a :: l) ->
  Forall (fun b => timestamp a <= timestamp b) l /\ sorted_log l.
Proof. intro H. inversion H. auto. Qed.

Lemma sorted_log_last (l : list ActionRecord) (z : ActionRecord) :
  sorted_log (l ++ [z]) ->
  Forall (fun a => timestamp a <= timestamp z) (l ++ [z]).
Proof.
  induction l as [|a r IH]; cbn [app]; intro H.
  - constructor; [apply Qle_refl | constructor].
  - destruct (sorted_log_inv _ _ H) as [Hle Hs].
    constructor; [|exact (IH Hs)].
    rewrite Forall_forall in Hle. apply Hle.
    apply in_or_app. right. left. reflexivity.
Qed.

Lemma load_success (log : list ActionRecord) (videoPath : bool) (now : Q)
  (p : EventStreamPlayer) :
  load (inr log) videoPath now p
  = if autoPlay (options p)
    then play now
           (loadedFrom log (if videoPath then set_videoPlayer true p else p))
    else Returned tt
           (loadedFrom log (if videoPath then set_videoPlayer true p else p)).
Proof.
  unfold load, loadedFrom, try_catch, emit.
  unfold bind, assign, this, ret. cbv beta iota.
  destruct videoPath; cbv beta iota;
    match goal with
    | |- context [autoPlay (options ?x)] =>
        change (autoPlay (options x)) with (autoPlay (options p))
    end;
    destruct (autoPlay (options p)); reflexivity.
Qed.

Lemma loadedFrom_fields (log : list ActionRecord) (v : bool)
  (p : EventStreamPlayer) :
  let q := loadedFrom log (if v then set_videoPlayer true p else p) in
  actionLog q = sortByTimestamp log
  /\ options q = options p
  /\ isPlaying q = isPlaying p /\ isPaused q = isPaused p
  /\ currentTimestamp q = currentTimestamp p
  /\ timers q = timers p /\ scheduledActions q = scheduledActions p
  /\ emitted q
     = emitted p
         ++ [mkEvent "loaded"
               (Loaded (Z.of_nat (length (sortByTimestamp log)))
                  (getDuration q))].
Proof. destruct v; repeat split. Qed.

Lemma load_actionLog (log : list ActionRecord) (videoPath : bool) (now : Q)
  (p : EventStreamPlayer) :
  actionLog (after (load (inr log) videoPath now p)) = sortByTimestamp log.
Proof.
  rewrite load_success.
  destruct (loadedFrom_fields log videoPath p) as (H1 & _).
  destruct (autoPlay (options p)); [|exact H1].
  destruct (play_mode now
              (loadedFrom log
                 (if videoPath then set_videoPlayer true p else p)))
    as (_ & H2 & _).
  rewrite H2. exact H1.
Qed.

(** X11.  [load] sorts what it read: whatever the order of the entries in
    the file, the player's log is sorted ascending by timestamp and is a
    rearrangement of the file's entries, the entries of one timestamp in
    the order of the file; [getDuration()] is then the largest timestamp.
    This holds with and without [autoPlay]. *)
Theorem load_sorts_the_log (log : list ActionRecord) (videoPath : bool)
  (now : Q) (p : EventStreamPlayer) :
  let q := after (load (inr log) videoPath now p) in
  sorted_log (actionLog q)
  /\ Permutation log (actionLog q)
  /\ (forall ts,
        filter (fun a => Qeq_bool (timestamp a) ts) (actionLog q)
        = filter (fun a => Qeq_bool (timestamp a) ts) log)
  /\ Forall (fun a => timestamp a <= getDuration q) log.
Proof.
  cbn zeta. pose proof (load_actionLog log videoPath now p) as Hlog.
  generalize dependent (after (load (inr log) videoPath now p)).
  intros q Hlog. rewrite Hlog.
  split; [apply sortByTimestamp_sorts|].
  split; [apply sortByTimestamp_perm|].
  split; [intro ts; apply sortByTimestamp_stable|].
  apply (Permutation_Forall (Permutation_sym (sortByTimestamp_perm log))).
  pose proof (sortByTimestamp_sorts log) as Hs.
  destruct (sortByTimestamp log) as [|a r] eqn:E using rev_ind;
    [constructor|].
  rewrite (getDuration_last q r a Hlog). apply sorted_log_last. exact Hs.
Qed.

Lemma loadOn_success (log : list ActionRecord) (videoPath : bool)
  (clock : nat -> Q) (p : EventStreamPlayer) :
  loadOn (inr log) videoPath clock p
  = if autoPlay (options p)
    then playOn clock
           (loadedFrom log (if videoPath then set_videoPlayer true p else p))
    else Returned tt
           (loadedFrom log (if videoPath then set_videoPlayer true p else p)).
Proof.
  unfold loadOn, loadedFrom, try_catch, emit.
  unfold bind, assign, this, ret. cbv beta iota.
  destruct videoPath; cbv beta iota;
    match goal with
    | |- context [autoPlay (options ?x)] =>
        change (autoPlay (options x)) with (autoPlay (options p))
    end;
    destruct (autoPlay (options p)); reflexivity.
Qed.

Lemma playable_sorted (clock : nat -> Q) (speed : Q)
  (log : list ActionRecord) :
  playable clock speed log -> playable clock speed (sortByTimestamp log).
Proof.
  intros [H1 H2]. split; [exact H1|].
  exact (Permutation_Forall (sortByTimestamp_perm log) H2).
Qed.

(** A file's log, loaded into a new player and played: the timers emit it
    sorted, when it is playable with the clock reads of the [play()] that
    starts the playback. *)
Lemma load_then_play (log : list ActionRecord)
  (opts : Options) (videoPath : bool) (clock0 clock : nat -> Q) :
  log <> [] -> 0 < playbackSpeed opts -> loop opts = false ->
  playable (if autoPlay opts then clock0 else clock) (playbackSpeed opts)
    log ->
  let p := after (loadOn (inr log) videoPath clock0 (constructor opts)) in
  let o := runTimers (length log) (after (playOn clock p)) in
  threw (loadOn (inr log) videoPath clock0 (constructor opts)) = None
  /\ threw (playOn clock p) = None
  /\ threw o = None
  /\ actionsOf (emitted (after o)) = sortByTimestamp log
  /\ timers (after o) = []
  /\ isPlaying (after o) = false
  /\ actionLog p = sortByTimestamp log.
Proof.
  intros Hne Hs Hloop Hplay. cbn zeta.
  rewrite loadOn_success.
  destruct (loadedFrom_fields log videoPath (constructor opts))
    as (F1 & F2 & F3 & F4 & F5 & F6 & _ & F8).
  assert (Hem : actionsOf
                  (emitted
                     (loadedFrom log
                        (if videoPath
                         then set_videoPlayer true (constructor opts)
                         else constructor opts))) = []).
  { rewrite F8. reflexivity. }
  clear F8.
  change (options (constructor opts)) with opts in *.
  change (isPlaying (constructor opts)) with false in F3.
  change (isPaused (constructor opts)) with false in F4.
  change (currentTimestamp (constructor opts)) with 0 in F5.
  change (timers (constructor opts)) with (@nil Timer) in F6.
  generalize dependent
    (loadedFrom log
       (if videoPath then set_videoPlayer true (constructor opts)
        else constructor opts)).
  intros L F1 F2 F3 F4 F5 F6 Hem.
  assert (Hlen : length (actionLog L) = length log).
  { rewrite F1. symmetry.
    apply Permutation_length, sortByTimestamp_perm. }
  assert (Hrun : forall c,
    playable c (playbackSpeed opts) log ->
    exists played,
      playOn c L = Returned tt played
      /\ isPlaying played = true /\ isPaused played = false
      /\ threw (runTimers (length log) played) = None
      /\ actionsOf (emitted (after (runTimers (length log) played)))
         = sortByTimestamp log
      /\ timers (after (runTimers (length log) played)) = []
      /\ isPlaying (after (runTimers (length log) played)) = false
      /\ actionLog played = sortByTimestamp log).
  { intros c Hc. destruct (playOn_from_zero c L)
      as (played & H1 & H2 & H3 & H4 & _ & _ & H7);
      rewrite ?F1, ?F2; try assumption.
    - apply no_timer_scheduled. exact F6.
    - apply sortByTimestamp_sorts.
    - intro E. apply Hne. apply Permutation_nil.
      rewrite <- E. apply Permutation_sym, sortByTimestamp_perm.
    - apply playable_sorted. exact Hc.
    - cbn zeta in H7. rewrite Hlen, Hem, F1 in H7. cbn [app] in H7.
      rewrite F1 in H4. exists played. tauto. }
  destruct (autoPlay opts).
  - destruct (Hrun clock0 Hplay)
      as (played & H1 & H2 & H3 & H4 & H5 & H6 & H7 & H8).
    rewrite H1. cbn [after threw].
    rewrite (playOn_playing clock played H2 H3). cbn [after threw]. auto 10.
  - cbn [after threw].
    destruct (Hrun clock Hplay)
      as (played & H1 & H2 & H3 & H4 & H5 & H6 & H7 & _).
    rewrite H1. cbn [after threw]. auto 10.
Qed.

(** X12.  Load and play, whatever the order in the file and the speed: a
    file's log with entries is loaded into a new player with a positive
    speed and looping off; then [play()] and the timers emit the entries
    sorted by timestamp, each once, and the player stops with no timer
    pending.  With [autoPlay] it is [load] that starts the playback, and
    the [play()] after it changes nothing.  This holds when the log is
    playable with the two clock reads of the [play()] that starts the
    playback: the clock does not go back between them, no entry is due
    before the second read (with the same instant read twice: no timestamp
    is negative), and no entry is due later than the host's longest delay
    ([timestamp / speed <= 2^31 - 1]). *)
Theorem load_then_play_emits_the_sorted_log (log : list ActionRecord)
  (opts : Options) (videoPath : bool) (clock0 clock : nat -> Q) :
  log <> [] -> 0 < playbackSpeed opts -> loop opts = false ->
  playable (if autoPlay opts then clock0 else clock) (playbackSpeed opts)
    log ->
  let p := after (loadOn (inr log) videoPath clock0 (constructor opts)) in
  let o := runTimers (length log) (after (playOn clock p)) in
  threw (loadOn (inr log) videoPath clock0 (constructor opts)) = None
  /\ threw (playOn clock p) = None
  /\ threw o = None
  /\ actionsOf (emitted (after o)) = sortByTimestamp log
  /\ timers (after o) = []
  /\ isPlaying (after o) = false.
Proof.
  intros Hne Hs Hloop Hplay.
  destruct (load_then_play log opts videoPath clock0 clock Hne Hs Hloop Hplay)
    as (H1 & H2 & H3 & H4 & H5 & H6 & _).
  auto 10.
Qed.

Lemma load_then_play_emits_the_sorted_log_witness :
  actionsOf
    (emitted
       (after
          (runTimers
             (length [mkAction "b" 30 ""; mkAction "a" 10 ""])
             (after
                (playOn (Scenario.ticking 100 101)
                   (after
                      (loadOn (inr [mkAction "b" 30 ""; mkAction "a" 10 ""])
                         false (still 0)
                         (constructor (mkOptions 2 false false false)))))))))
  = [mkAction "a" 10 ""; mkAction "b" 30 ""].
Proof.
  assert (A2 : [mkAction "b" 30 ""; mkAction "a" 10 ""] <> [])
    by discriminate.
  assert (A3 : 0 < playbackSpeed (mkOptions 2 false false false))
    by reflexivity.
  assert (A4 : loop (mkOptions 2 false false false) = false) by reflexivity.
  assert (A5 : playable
                 (if autoPlay (mkOptions 2 false false false)
                  then still 0 else Scenario.ticking 100 101)
                 (playbackSpeed (mkOptions 2 false false false))
                 [mkAction "b" 30 ""; mkAction "a" 10 ""]).
  { vm_compute. split; [discriminate|].
    repeat constructor; discriminate. }
  pose proof (load_then_play_emits_the_sorted_log _ _ false (still 0)
                (Scenario.ticking 100 101) A2 A3 A4 A5) as H.
  cbn zeta in H. destruct H as (_ & _ & _ & H & _).
  rewrite H. vm_compute. reflexivity.
Defined.

(** X13.  A [load] that cannot read or parse the file changes nothing but
    the emitted events and throws.  With an ['error'] listener it emits
    ['error'] with the type [actionLogLoad] and the error caught, and
    throws a new error whose message is [Failed to load action log: ]
    followed by the message of the error caught; without one the emit
    itself throws, and the player is exactly as it was.  In both cases the
    log is kept, no ['loaded'] is emitted and [autoPlay] does not start
    playback. *)
Theorem load_failure_keeps_the_player (error : Exn) (message : string)
  (videoPath : bool) (now : Q) (p : EventStreamPlayer) :
  let o := load (inl (error, message)) videoPath now p in
  (if errorListener p
   then threw o
        = Some (Error ("Failed to load action log: " ++ message)%string)
        /\ after o
           = set_emitted
               (emitted p
                  ++ [mkEvent "error" (Failure "actionLogLoad" error)]) p
   else threw o = Some UnhandledError /\ after o = p)
  /\ actionLog (after o) = actionLog p
  /\ isPlaying (after o) = isPlaying p
  /\ timers (after o) = timers p.
Proof.
  cbn zeta. unfold load, try_catch, emitError, emit, messageOf.
  unfold bind, assign, this, ret, throw. cbv beta iota.
  destruct (errorListener p) eqn:E; cbn [threw after]; auto.
Qed.

(** *** What playback never changes *)

Lemma pause_kept (now : Q) (p : EventStreamPlayer) :
  actionLog (after (pause now p)) = actionLog p
  /\ options (after (pause now p)) = options p.
Proof.
  rewrite pause_unfold.
  destruct (negb (isPlaying p) || isPaused p); cbn [after]; fields; auto.
Qed.

Lemma stop_kept (p : EventStreamPlayer) :
  actionLog (after (stop p)) = actionLog p
  /\ options (after (stop p)) = options p.
Proof.
  rewrite stop_unfold.
  destruct (negb (isPlaying p)); cbn [after]; fields; auto.
Qed.

Lemma play_kept (now : Q) (p : EventStreamPlayer) :
  actionLog (after (play now p)) = actionLog p
  /\ options (after (play now p)) = options p.
Proof. destruct (play_mode now p) as (H1 & H2 & _). auto. Qed.

Lemma seekTo_kept (t now : Q) (p : EventStreamPlayer) :
  actionLog (after (seekTo t now p)) = actionLog p
  /\ options (after (seekTo t now p)) = options p.
Proof.
  rewrite seekTo_unfold.
  destruct (isPlaying p && negb (isPaused p)).
  - destruct (play_kept now (sought (clamp t (getDuration p))
                               (pausedFrom now p))) as [H1 H2].
    rewrite H1, H2. fields. auto.
  - cbn [after]. fields. auto.
Qed.

Lemma setPlaybackSpeed_kept (s now : Q) (p : EventStreamPlayer) :
  actionLog (after (setPlaybackSpeed s now p)) = actionLog p
  /\ options (after (setPlaybackSpeed s now p))
     = if Qle_bool s 0 then options p else set_playbackSpeed s (options p).
Proof.
  rewrite setPlaybackSpeed_unfold.
  destruct (Qle_bool s 0); [cbn [after]; auto|].
  destruct (isPlaying p && negb (isPaused p)); [|cbn [after]; auto].
  destruct (play_kept now (atSpeed s (pausedFrom now p))) as [H1 H2].
  destruct (atSpeed_fields s (pausedFrom now p)) as (A1 & A2 & _).
  rewrite A2 in H1. rewrite A1 in H2. fields_in H1. fields_in H2.
  unfold bind.
  destruct (play now (atSpeed s (pausedFrom now p))) as [[] q|e q];
    cbn [after] in H1, H2 |- *; [|auto].
  unfold this, emit, assign. assigned. auto.
Qed.

Lemma onTimeout_kept (t : Timer) (now : Q) (p : EventStreamPlayer) :
  actionLog (after (onTimeout t now p)) = actionLog p
  /\ options (after (onTimeout t now p)) = options p.
Proof.
  rewrite onTimeout_cases.
  destruct (atEnd (fired (firesIndex t) (firesAction t) p));
    [|cbn [after]; fields; auto].
  destruct (loop (options p)).
  - unfold scheduleNextActions.
    destruct (scheduleNextActionsAt_mode 1 now
                (restarted now (fired (firesIndex t) (firesAction t) p)))
      as (H1 & H2 & _).
    destruct (restarted_fields now (fired (firesIndex t) (firesAction t) p))
      as (R1 & R2 & _).
    rewrite H1, H2, R1, R2. fields. auto.
  - destruct (stop_kept (fired (firesIndex t) (firesAction t) p))
      as [H1 H2].
    rewrite H1, H2. fields. auto.
Qed.

Lemma fireNext_kept (p : EventStreamPlayer) :
  actionLog (after (fireNext p)) = actionLog p
  /\ options (after (fireNext p)) = options p.
Proof.
  rewrite fireNext_cases.
  destruct (nextTimer p) as [t|]; [|cbn [after]; auto].
  pose proof (onTimeout_kept t (due t)
                (set_timers
                   (filter (fun u => negb (Nat.eqb (timerId u) (timerId t)))
                      (timers p)) p)) as H.
  unfold bind.
  destruct (onTimeout t (due t) _) as [[] q|e q]; exact H.
Qed.

Lemma runTimers_kept (n : nat) :
  forall p : EventStreamPlayer,
    actionLog (after (runTimers n p)) = actionLog p
    /\ options (after (runTimers n p)) = options p.
Proof.
  induction n as [|n IH]; intro p; [cbn [runTimers ret after]; auto|].
  cbn [runTimers]. unfold bind.
  pose proof (fireNext_kept p) as H.
  destruct (fireNext p) as [[|] q|e q]; cbn [after] in H |- *;
    [|exact H | exact H].
  destruct (IH q) as [H1 H2]. destruct H as [H3 H4].
  rewrite H1, H2. auto.
Qed.

(** X14.  Playback never changes the log or the options: [play], [pause],
    [stop], [seekTo] and the timers leave both as they are.  The one
    exception is [setPlaybackSpeed(s)] with [s > 0], which sets the speed
    and nothing else of the options; with [s <= 0] it returns at once,
    changing nothing and emitting nothing.  So a positive speed stays
    positive, and no call ever divides by a speed of zero. *)
Theorem playback_keeps_the_log_and_the_options (p : EventStreamPlayer) :
  (forall now,
      actionLog (after (play now p)) = actionLog p
      /\ options (after (play now p)) = options p)
  /\ (forall now,
         actionLog (after (pause now p)) = actionLog p
         /\ options (after (pause now p)) = options p)
  /\ (actionLog (after (stop p)) = actionLog p
      /\ options (after (stop p)) = options p)
  /\ (forall t now,
         actionLog (after (seekTo t now p)) = actionLog p
         /\ options (after (seekTo t now p)) = options p)
  /\ (forall n,
         actionLog (after (runTimers n p)) = actionLog p
         /\ options (after (runTimers n p)) = options p)
  /\ (forall s now,
         actionLog (after (setPlaybackSpeed s now p)) = actionLog p
         /\ options (after (setPlaybackSpeed s now p))
            = if Qle_bool s 0 then options p
              else set_playbackSpeed s (options p))
  /\ (forall s now, s <= 0 -> setPlaybackSpeed s now p = Returned tt p)
  /\ (forall s now,
         0 < playbackSpeed (options p) ->
         0 < playbackSpeed (options (after (setPlaybackSpeed s now p)))).
Proof.
  split; [intro; apply play_kept|].
  split; [intro; apply pause_kept|].
  split; [apply stop_kept|].
  split; [intros; apply seekTo_kept|].
  split; [intro; apply runTimers_kept|].
  split; [intros; apply setPlaybackSpeed_kept|].
  split.
  - intros s now Hs. unfold setPlaybackSpeed.
    apply Qle_bool_iff in Hs. rewrite Hs. reflexivity.
  - intros s now Hp.
    destruct (setPlaybackSpeed_kept s now p) as [_ H]. rewrite H.
    destruct (Qle_bool s 0) eqn:E; [exact Hp|].
    apply Qle_bool_false in E. exact E.
Qed.

End PlayerMore.

Module WriterMore.

Import Writer Steps Routing WriterFacts.

(** Run a method of the writer on the cases of its tests. *)
Ltac run :=
  unfold start, stop, recordAction, saveActionLog, appendToActionLog,
    ensureDirectoryExist, initializeVideoWriter, dirnameOf, mkdir, readFile,
    writeFile, emitError, emit, try_catch, bind, this, assign, ret, throw;
  cbv beta iota;
  repeat (assigned; cbv beta iota; branch); assigned;
  repeat match goal with
         | H : negb _ = true |- _ => apply negb_true_iff in H
         | H : negb _ = false |- _ => apply negb_false_iff in H
         end;
  try congruence.

(** *** [recordAction] *)

Lemma recordAction_actionLog (a : ActionRecord) (w : EventStreamWriter) :
  actionLog (after (recordAction a w))
  = if isWriting w then actionLog w ++ [a] else actionLog w.
Proof. run; reflexivity. Qed.

Lemma recordAction_kept (a : ActionRecord) (w : EventStreamWriter) :
  let w' := after (recordAction a w) in
  options w' = options w /\ actionLogPath w' = actionLogPath w
  /\ outputPath w' = outputPath w /\ errorListener w' = errorListener w
  /\ isWriting w' = isWriting w
  /\ writeError (disk w') = writeError (disk w)
  /\ mkdirError (disk w') = mkdirError (disk w)
  /\ directories (disk w') = directories (disk w).
Proof. cbn zeta. run; repeat split; congruence. Qed.

Lemma recordAction_returns (a : ActionRecord) (w : EventStreamWriter) :
  errorListener w = true \/ immediateActionWrites (options w) = false ->
  threw (recordAction a w) = None.
Proof. intros [H|H]; run; congruence. Qed.

Lemma recordAction_idle (a : ActionRecord) (w : EventStreamWriter) :
  isWriting w = false -> recordAction a w = Returned tt w.
Proof. intro H. unfold recordAction, bind, this. rewrite H. reflexivity. Qed.

Lemma recordAction_recorded (a : ActionRecord) (w : EventStreamWriter) :
  isWriting w = true -> threw (recordAction a w) = None ->
  filter isRecorded (emitted (after (recordAction a w)))
  = filter isRecorded (emitted w)
      ++ [mkEvent "actionRecorded" (Recorded a (S (length (actionLog w))))].
Proof.
  intros Hw. run; intro Ht; try congruence;
    rewrite ?filter_app, ?length_app; cbn [filter isRecorded name length];
    rewrite ?app_nil_r, ?Nat.add_1_r; reflexivity.
Qed.

Lemma forEach_cons {S A : Type} (f : A -> Method S unit) (x : A)
  (r : list A) (s : S) :
  forEach f (x :: r) s
  = match f x s with
    | Returned _ s' => forEach f r s'
    | Thrown e s' => Thrown e s'
    end.
Proof. reflexivity. Qed.

(** X15.  [recordAction] keeps the order of arrival.  On a writer that is
    writing, and that has an ['error'] listener or writes nothing at once,
    recording the actions [l] one after the other never throws, appends
    them to the log in that order, leaves the writer writing, and emits
    for each one ['actionRecorded'] with the running total.  On a writer
    that is not writing the calls change nothing. *)
Theorem recordAction_appends_in_order (l : list ActionRecord)
  (w : EventStreamWriter) :
  isWriting w = true ->
  errorListener w = true \/ immediateActionWrites (options w) = false ->
  let o := forEach recordAction l w in
  threw o = None
  /\ getActionLog (after o) = getActionLog w ++ l
  /\ isWriting (after o) = true
  /\ filter isRecorded (emitted (after o))
     = filter isRecorded (emitted w)
         ++ map (fun an => mkEvent "actionRecorded"
                             (Recorded (fst an) (snd an)))
              (combine l (seq (S (length (actionLog w))) (length l)))
  /\ (forall w' : EventStreamWriter,
         isWriting w' = false -> forEach recordAction l w' = Returned tt w').
Proof.
  intros Hw Hl. cbn zeta. unfold getActionLog.
  split; [|split; [|split; [|split]]].
  5: { intros w' Hw'. induction l as [|a r IH]; [reflexivity|].
       rewrite forEach_cons, (recordAction_idle a w' Hw'). exact IH. }
  all: revert w Hw Hl; induction l as [|a r IH]; intros w Hw Hl;
    [cbn [forEach ret threw after length seq combine map];
     rewrite ?app_nil_r; auto|];
    rewrite forEach_cons;
    pose proof (recordAction_returns a w Hl) as Hr;
    pose proof (recordAction_actionLog a w) as Hlog;
    pose proof (recordAction_recorded a w Hw Hr) as Hev;
    destruct (recordAction_kept a w) as (K1 & _ & _ & K4 & K5 & _);
    destruct (recordAction a w) as [[] w1|e w1]; [|discriminate Hr];
    cbn [after] in Hlog, Hev, K1, K4, K5;
    rewrite Hw in Hlog, K5;
    assert (Hl1 : errorListener w1 = true
                  \/ immediateActionWrites (options w1) = false)
      by (rewrite K1, K4; exact Hl).
  - apply IH; assumption.
  - rewrite (IH w1 K5 Hl1), Hlog, <- app_assoc. reflexivity.
  - apply IH; assumption.
  - rewrite (IH w1 K5 Hl1), Hev, Hlog, <- app_assoc, length_app.
    cbn [length seq combine map fst snd app].
    rewrite Nat.add_1_r. reflexivity.
Qed.

Lemma recordAction_appends_in_order_witness :
  getActionLog
    (after
       (forEach recordAction
          [Recording.aClick; mkAction "input" 5 ""]
          (after (onError
                    (constructor Recording.plainOptions Recording.emptyDisk)))))
  = [Recording.aClick; mkAction "input" 5 ""].
Proof.
  assert (A1 : isWriting
                 (after (onError
                           (constructor Recording.plainOptions
                              Recording.emptyDisk))) = true)
    by reflexivity.
  assert (A2 : errorListener
                 (after (onError
                           (constructor Recording.plainOptions
                              Recording.emptyDisk))) = true
               \/ immediateActionWrites
                    (options
                       (after (onError
                                 (constructor Recording.plainOptions
                                    Recording.emptyDisk)))) = false)
    by (left; reflexivity).
  pose proof (recordAction_appends_in_order
                [Recording.aClick; mkAction "input" 5 ""] _ A1 A2) as H.
  cbn zeta in H. destruct H as (_ & H & _). exact H.
Defined.

(** *** Immediate writes *)

Lemma recordAction_written (a : ActionRecord) (w : EventStreamWriter)
  (f : string) :
  isWriting w = true -> immediateActionWrites (options w) = true ->
  actionLogPath w = Some f -> writeError (disk w) f = None ->
  threw (recordAction a w) = None
  /\ existingLog f (disk (after (recordAction a w)))
     = existingLog f (disk w) ++ [a]
  /\ (forall g, String.eqb g f = false ->
                contentOf g (files (disk (after (recordAction a w))))
                = contentOf g (files (disk w)))
  /\ emitted (after (recordAction a w))
     = emitted w
         ++ [mkEvent "actionRecorded"
               (Recorded a (length (actionLog w ++ [a])))].
Proof.
  intros Hw Hi Hp He. unfold existingLog.
  unfold recordAction, appendToActionLog, readFile, writeFile, emitError,
    emit, try_catch, bind, this, assign, ret, throw.
  cbv beta iota. assigned.
  rewrite Hw. cbn [negb]. cbv beta iota. assigned.
  rewrite Hi. cbv beta iota. assigned. rewrite Hp. cbv beta iota. assigned.
  destruct (contentOf f (files (disk w))) as [c|] eqn:Ec;
    repeat (cbv beta iota; assigned; rewrite ?Hp, ?He);
    cbn [contentOf]; rewrite String.eqb_refl;
    (split; [reflexivity|]); (split; [reflexivity|]);
    (split; [|reflexivity]); intros g Hg; rewrite Hg; reflexivity.
Qed.

(** X16.  With [immediateActionWrites], on a writer that is writing to a
    file [f] that can be written, each [recordAction] reads the file, adds
    the action and writes the file back.  So recording the actions [l]
    one after the other (each call awaited) leaves in [f] what it held
    before followed by [l], in order; no other file changes, nothing is
    thrown and no ['error'] is emitted.  What the file held before
    recording started is kept. *)
Theorem immediate_writes_append_to_the_file (l : list ActionRecord)
  (w : EventStreamWriter) (f : string) :
  isWriting w = true -> immediateActionWrites (options w) = true ->
  actionLogPath w = Some f -> writeError (disk w) f = None ->
  let o := forEach recordAction l w in
  threw o = None
  /\ existingLog f (disk (after o)) = existingLog f (disk w) ++ l
  /\ (forall g, String.eqb g f = false ->
                contentOf g (files (disk (after o)))
                = contentOf g (files (disk w)))
  /\ filter (fun e => String.eqb (name e) "error") (emitted (after o))
     = filter (fun e => String.eqb (name e) "error") (emitted w).
Proof.
  cbn zeta. revert w. induction l as [|a r IH]; intros w Hw Hi Hp He.
  - cbn [forEach ret threw after]. rewrite app_nil_r. auto.
  - rewrite forEach_cons.
    destruct (recordAction_written a w f Hw Hi Hp He)
      as (H1 & H2 & H3 & H4).
    destruct (recordAction_kept a w) as (K1 & K2 & _ & _ & K5 & K6 & _).
    destruct (recordAction a w) as [[] w1|e w1]; [|discriminate H1].
    cbn [after] in H2, H3, H4, K1, K2, K5, K6.
    destruct (IH w1) as (A1 & A2 & A3 & A4).
    + rewrite K5. exact Hw.
    + rewrite K1. exact Hi.
    + rewrite K2. exact Hp.
    + rewrite K6. exact He.
    + split; [exact A1|].
      split; [rewrite A2, H2, <- app_assoc; reflexivity|].
      split; [intros g Hg; rewrite (A3 g Hg); exact (H3 g Hg)|].
      rewrite A4, H4, filter_app. cbn [filter name String.eqb Ascii.eqb
                                        Bool.eqb].
      apply app_nil_r.
Qed.

Lemma immediate_writes_append_to_the_file_witness :
  existingLog "rec/session_actions.json"
    (disk
       (after
          (forEach recordAction [Recording.aClick; mkAction "input" 5 ""]
             Recording.secondSession)))
  = existingLog "rec/session_actions.json" (disk Recording.secondSession)
      ++ [Recording.aClick; mkAction "input" 5 ""].
Proof.
  assert (A1 : isWriting Recording.secondSession = true)
    by (vm_compute; reflexivity).
  assert (A2 : immediateActionWrites (options Recording.secondSession) = true)
    by (vm_compute; reflexivity).
  assert (A3 : actionLogPath Recording.secondSession
               = Some "rec/session_actions.json"%string)
    by (vm_compute; reflexivity).
  assert (A4 : writeError (disk Recording.secondSession)
                 "rec/session_actions.json" = None)
    by (vm_compute; reflexivity).
  pose proof (immediate_writes_append_to_the_file
                [Recording.aClick; mkAction "input" 5 ""]
                Recording.secondSession "rec/session_actions.json"
                A1 A2 A3 A4) as H.
  cbn zeta in H. destruct H as (_ & H & _). exact H.
Defined.

(** *** [stop] *)

(** X17.  [stop] saves a snapshot and hands the log back.  On a writer
    that is writing to a file [f] that can be written, [stop] returns the
    output path, [f] and the whole log; reading [f] back then gives that
    log, whatever the file held before; the writer is no longer writing,
    and a later [recordAction] changes nothing. *)
Theorem stop_saves_the_log (w : EventStreamWriter) (f : string) :
  isWriting w = true -> actionLogPath w = Some f ->
  writeError (disk w) f = None ->
  let o := stop w in
  returned o
  = Some (Some (mkStopResult (outputPath w) (Some f) (actionLog w)))
  /\ readFile (Some f) (after o) = Returned (actionLog w) (after o)
  /\ isWriting (after o) = false
  /\ getActionLog (after o) = actionLog w
  /\ (forall a, recordAction a (after o) = Returned tt (after o)).
Proof.
  intros Hw Hp He. cbn zeta.
  assert (E : exists w',
             stop w
             = Returned
                 (Some (mkStopResult (outputPath w) (Some f) (actionLog w)))
                 w'
             /\ isWriting w' = false /\ actionLog w' = actionLog w
             /\ contentOf f (files (disk w')) = Some (actionLog w)).
  { unfold stop, saveActionLog, writeFile, emitError, emit, try_catch, bind,
      this, assign, ret, throw.
    cbv beta iota. rewrite Hw. cbn [negb]. cbv beta iota.
    rewrite Hp. cbv beta iota. rewrite He. cbv beta iota. assigned.
    destruct (videoWriter w); cbv beta iota; assigned; rewrite Hp;
      eexists; (split; [reflexivity|]); assigned;
      cbn [contentOf]; rewrite String.eqb_refl; auto. }
  destruct E as (w' & E & H1 & H2 & H3). rewrite E. cbn [returned after].
  split; [reflexivity|].
  split; [unfold readFile, bind, this; rewrite H3; reflexivity|].
  split; [exact H1|]. split; [exact H2|].
  intro a. apply recordAction_idle. exact H1.
Qed.

Lemma stop_saves_the_log_witness :
  readFile (Some "rec/session_actions.json"%string)
    (after (stop (after (recordAction Recording.aClick
                           Recording.secondSession))))
  = Returned
      (actionLog (after (recordAction Recording.aClick
                           Recording.secondSession)))
      (after (stop (after (recordAction Recording.aClick
                             Recording.secondSession)))).
Proof.
  assert (A1 : isWriting (after (recordAction Recording.aClick
                                   Recording.secondSession)) = true)
    by (vm_compute; reflexivity).
  assert (A3 : actionLogPath (after (recordAction Recording.aClick
                                       Recording.secondSession))
               = Some "rec/session_actions.json"%string)
    by (vm_compute; reflexivity).
  assert (A4 : writeError
                 (disk (after (recordAction Recording.aClick
                                 Recording.secondSession)))
                 "rec/session_actions.json" = None)
    by (vm_compute; reflexivity).
  pose proof (stop_saves_the_log _ _ A1 A3 A4) as H.
  cbn zeta in H. destruct H as (_ & H & _). exact H.
Defined.

(** X18.  A save that fails does not make [stop] fail.  When the log file
    cannot be written (the path is [null] because [start] never set it, or
    [writeFile] fails) and the writer has an ['error'] listener, [stop]
    emits ['error'] with the type [actionLogSave] and then goes on as if
    the save had worked: it returns the log with the path, and the writer
    is no longer writing.  Without a listener the emit throws and the
    writer stays exactly as it was, still writing.  No file is written in
    either case. *)
Theorem stop_hides_a_failed_save (w : EventStreamWriter) (error : Exn) :
  isWriting w = true ->
  (actionLogPath w = None /\ error = TypeError)
  \/ (exists f code, actionLogPath w = Some f
                     /\ writeError (disk w) f = Some code
                     /\ error = SystemError code) ->
  let o := stop w in
  disk (after o) = disk w
  /\ if errorListener w
     then returned o
          = Some (Some (mkStopResult (outputPath w) (actionLogPath w)
                          (actionLog w)))
          /\ isWriting (after o) = false
          /\ In (mkEvent "error" (Failure "actionLogSave" error))
               (emitted (after o))
     else threw o = Some UnhandledError /\ after o = w.
Proof.
  intros Hw Hcase. cbn zeta.
  unfold stop, saveActionLog, writeFile, emitError, emit, try_catch, bind,
    this, assign, ret, throw.
  cbv beta iota. rewrite Hw. cbn [negb]. cbv beta iota.
  destruct Hcase as [[Hp ->]|(f & code & Hp & He & ->)];
    rewrite Hp; cbv beta iota; rewrite ?He; cbv beta iota;
    (destruct (errorListener w) eqn:El; cbv beta iota; assigned;
     [ destruct (videoWriter w); cbv beta iota; assigned; rewrite ?Hp;
       (split; [reflexivity|]); (split; [reflexivity|]);
       (split; [reflexivity|]);
       rewrite <- ?app_assoc; apply in_or_app; right; left; reflexivity
     | split; [reflexivity | split; reflexivity] ]).
Qed.

Lemma stop_hides_a_failed_save_witness :
  disk (after (stop (after (onError
                              (constructor Recording.plainOptions
                                 Recording.emptyDisk)))))
  = disk (after (onError
                   (constructor Recording.plainOptions Recording.emptyDisk))).
Proof.
  assert (A1 : isWriting
                 (after (onError
                           (constructor Recording.plainOptions
                              Recording.emptyDisk))) = true)
    by reflexivity.
  assert (A2 : (actionLogPath
                  (after (onError
                            (constructor Recording.plainOptions
                               Recording.emptyDisk))) = None
                /\ TypeError = TypeError)
               \/ (exists f code,
                      actionLogPath
                        (after (onError
                                  (constructor Recording.plainOptions
                                     Recording.emptyDisk))) = Some f
                      /\ writeError
                           (disk
                              (after (onError
                                        (constructor Recording.plainOptions
                                           Recording.emptyDisk)))) f
                         = Some code
                      /\ TypeError = SystemError code))
    by (left; split; reflexivity).
  exact (proj1 (stop_hides_a_failed_save _ TypeError A1 A2)).
Defined.

(** *** [start] *)

Lemma writer_start_kept (path : PathOps) (basePath : string)
  (w : EventStreamWriter) :
  actionLog (after (start path basePath w)) = actionLog w
  /\ isWriting (after (start path basePath w)) = true
  /\ errorListener (after (start path basePath w)) = errorListener w
  /\ options (after (start path basePath w)) = options w.
Proof. run; repeat split; congruence. Qed.

Lemma writer_stop_kept (w : EventStreamWriter) :
  actionLog (after (stop w)) = actionLog w
  /\ errorListener (after (stop w)) = errorListener w
  /\ options (after (stop w)) = options w.
Proof. run; repeat split; congruence. Qed.

(** X19.  The log only grows.  [start] and [stop] never change the log,
    whether they return or throw, and [recordAction] only appends; no call
    clears it.  [start] sets [isWriting] before anything can fail, so after
    any [start], even one that threw, the writer records.  Hence what is
    recorded in a new session is appended to the entries of the sessions
    before it. *)
Theorem the_log_only_grows (path : PathOps) (basePath : string)
  (a : ActionRecord) (w : EventStreamWriter) :
  getActionLog (after (start path basePath w)) = getActionLog w
  /\ isWriting (after (start path basePath w)) = true
  /\ getActionLog (after (stop w)) = getActionLog w
  /\ getActionLog (after (recordAction a w))
     = (if isWriting w then getActionLog w ++ [a] else getActionLog w)
  /\ getActionLog
       (after (recordAction a
                 (after (start path basePath (after (stop w))))))
     = getActionLog w ++ [a].
Proof.
  unfold getActionLog.
  destruct (writer_start_kept path basePath w) as (S1 & S2 & _).
  destruct (writer_stop_kept w) as (T1 & _).
  split; [exact S1|]. split; [exact S2|]. split; [exact T1|].
  split; [apply recordAction_actionLog|].
  rewrite recordAction_actionLog.
  destruct (writer_start_kept path basePath (after (stop w))) as (U1 & U2 & _).
  rewrite U2, U1, T1. reflexivity.
Qed.

End WriterMore.

Module SessionFacts.

Import Writer Routing WriterFacts WriterMore.

(** Read the fields of a recorder after assignments. *)
Ltac recorded :=
  cbn [Recorder.options Recorder.isRecording Recorder.recordingResult
       Recorder.collector Recorder.writer Recorder.set_isRecording
       Recorder.set_recordingResult Recorder.set_collector
       Recorder.set_writer after threw returned].

(** *** The writer of a recorder *)

Lemma recordAction_no_path (a : ActionRecord) (w : EventStreamWriter) :
  actionLogPath w = None -> disk (after (recordAction a w)) = disk w.
Proof. intro H. run; reflexivity. Qed.

Lemma forEach_recordAction (l : list ActionRecord) :
  forall w : EventStreamWriter,
    isWriting w = true -> errorListener w = true ->
    exists w',
      forEach recordAction l w = Returned tt w'
      /\ actionLog w' = actionLog w ++ l
      /\ isWriting w' = true /\ errorListener w' = true
      /\ options w' = options w
      /\ actionLogPath w' = actionLogPath w
      /\ outputPath w' = outputPath w
      /\ (actionLogPath w = None -> disk w' = disk w).
Proof.
  induction l as [|a r IH]; intros w Hw Hl.
  - exists w. cbn [forEach ret]. rewrite app_nil_r. auto 10.
  - rewrite forEach_cons.
    pose proof (recordAction_returns a w (or_introl Hl)) as Hr.
    pose proof (recordAction_actionLog a w) as Hlog.
    pose proof (recordAction_no_path a w) as Hd.
    destruct (recordAction_kept a w) as (K1 & K2 & K3 & K4 & K5 & _).
    destruct (recordAction a w) as [[] w1|e w1]; [|discriminate Hr].
    cbn [after] in Hlog, Hd, K1, K2, K3, K4, K5.
    rewrite Hw in Hlog, K5. rewrite Hl in K4.
    destruct (IH w1 K5 K4) as (w' & E & A1 & A2 & A3 & A4 & A5 & A6 & A7).
    exists w'. split; [exact E|].
    split; [rewrite A1, Hlog, <- app_assoc; reflexivity|].
    split; [exact A2|]. split; [exact A3|].
    split; [rewrite A4; exact K1|]. split; [rewrite A5; exact K2|].
    split; [rewrite A6; exact K3|].
    intro Hp. rewrite A7 by (rewrite K2; exact Hp). exact (Hd Hp).
Qed.

Lemma stop_without_path (w : EventStreamWriter) :
  isWriting w = true -> actionLogPath w = None -> errorListener w = true ->
  exists w',
    stop w
    = Returned (Some (mkStopResult (outputPath w) None (actionLog w))) w'
    /\ disk w' = disk w /\ actionLog w' = actionLog w
    /\ isWriting w' = false.
Proof.
  intros Hw Hp Hl.
  unfold stop, saveActionLog, writeFile, emitError, emit, try_catch, bind,
    this, assign, ret, throw.
  cbv beta iota. rewrite Hw. cbn [negb]. cbv beta iota.
  rewrite Hp. cbv beta iota. rewrite Hl. cbv beta iota. assigned.
  destruct (videoWriter w); cbv beta iota; assigned; rewrite Hp;
    eexists; (split; [reflexivity|]); assigned; auto.
Qed.

Lemma collector_stop_returns (now : Q) (c : Collector.EventStreamCollector) :
  exists c',
    Collector.stop now c = Returned tt c'
    /\ Collector.startTimestamp c' = Collector.startTimestamp c.
Proof.
  unfold Collector.stop, bind, this, assign, ret.
  destruct (Collector.isCollecting c); eexists; split; reflexivity.
Qed.

(** *** A session of a new recorder *)

(** X20.  A recorder made by the constructor never writes a file.  Its
    writer is constructed already writing, so [start] skips the writer's
    set-up and the log path stays [null]: the session that [start] returns
    has [actionLogPath] [null]; the actions routed to the writer are kept
    in memory only; and [stop] returns them with both paths [null].  The
    file system is what it was before the session, with or without
    [immediateActionWrites]. *)
Theorem new_recorder_writes_no_file (path : PathOps)
  (opts : Recorder.Options) (d : Disk) (out : string) (now0 now1 : Q)
  (l : list ActionRecord) :
  let started := Recorder.start path out now0 (Recorder.constructor opts d) in
  let routed := Recorder.onWriter (forEach recordAction l) (after started) in
  let stopped := Recorder.stop now1 (after routed) in
  returned started
  = Some (Recorder.mkSession (Recorder.withVideoFormat path opts out) None
            opts)
  /\ threw routed = None
  /\ returned stopped = Some (Recorder.Object (mkStopResult None None l))
  /\ disk (Recorder.writer (after stopped)) = d
  /\ Recorder.getActionLog (after stopped) = l.
Proof.
  cbn zeta.
  assert (Hstart :
    exists r1,
      Recorder.start path out now0 (Recorder.constructor opts d)
      = Returned
          (Recorder.mkSession (Recorder.withVideoFormat path opts out) None
             opts) r1
      /\ Recorder.isRecording r1 = true
      /\ Recorder.writer r1
         = set_errorListener true
             (constructor (Recorder.writerOptions opts) d)).
  { unfold Recorder.start. unfold bind at 1. cbn [this].
    unfold Recorder.constructor at 1. recorded. cbv beta iota.
    unfold bind at 1. cbn [assign]. unfold bind at 1.
    unfold Recorder.onWriter at 1. recorded.
    rewrite start_while_writing by reflexivity.
    unfold bind at 1. unfold Recorder.onCollector at 1.
    unfold Collector.start, Collector.constructor, bind, this, assign, ret.
    recorded. cbn [Collector.isCollecting]. cbv beta iota. recorded.
    eexists. split; [reflexivity|]. recorded. split; reflexivity. }
  destruct Hstart as (r1 & E1 & Hrec & Hw1). rewrite E1.
  cbn [returned after]. split; [reflexivity|].
  destruct (forEach_recordAction l (Recorder.writer r1))
    as (w2 & E2 & A1 & A2 & A3 & _ & A5 & A6 & A7);
    [rewrite Hw1; reflexivity | rewrite Hw1; reflexivity|].
  rewrite Hw1 in A1, A5, A6, A7. cbn in A1, A5, A6.
  specialize (A7 eq_refl). cbn in A7.
  assert (Er : Recorder.onWriter (forEach recordAction l) r1
               = Returned tt (Recorder.set_writer w2 r1))
    by (unfold Recorder.onWriter; rewrite E2; reflexivity).
  rewrite Er. cbn [threw after]. split; [reflexivity|].
  destruct (stop_without_path w2 A2 A5 A3) as (w3 & E3 & B1 & B2 & B3).
  rewrite A6, A1 in E3. rewrite A7 in B1. rewrite A1 in B2.
  destruct (collector_stop_returns now1 (Recorder.collector r1))
    as (c & Ec & _).
  assert (Es : Recorder.stop now1 (Recorder.set_writer w2 r1)
               = Returned (Recorder.Object (mkStopResult None None l))
                   (Recorder.set_recordingResult
                      (Recorder.Object (mkStopResult None None l))
                      (Recorder.set_writer w3
                         (Recorder.set_collector c
                            (Recorder.set_isRecording false
                               (Recorder.set_writer w2 r1)))))).
  { unfold Recorder.stop. unfold bind at 1. cbn [this]. recorded.
    rewrite Hrec. cbn [negb]. unfold bind at 1. cbn [assign].
    unfold bind at 1. unfold Recorder.onCollector at 1. recorded.
    rewrite Ec. unfold bind at 1. unfold Recorder.onWriter at 1. recorded.
    rewrite E3. reflexivity. }
  rewrite Es. cbn [returned after].
  unfold Recorder.getActionLog, getActionLog. recorded. auto.
Qed.

(** *** The flag [isRecording] *)

Lemma onWriter_isRecording {A : Type} (m : Method EventStreamWriter A)
  (r : Recorder.ActionTrackingRecorder) :
  Recorder.isRecording (after (Recorder.onWriter m r))
  = Recorder.isRecording r.
Proof.
  unfold Recorder.onWriter. destruct (m (Recorder.writer r)); reflexivity.
Qed.

Lemma onCollector_isRecording {A : Type}
  (m : Method Collector.EventStreamCollector A)
  (r : Recorder.ActionTrackingRecorder) :
  Recorder.isRecording (after (Recorder.onCollector m r))
  = Recorder.isRecording r.
Proof.
  unfold Recorder.onCollector. destruct (m (Recorder.collector r));
    reflexivity.
Qed.

Lemma recorder_start_isRecording (path : PathOps) (out : string) (now : Q)
  (r : Recorder.ActionTrackingRecorder) :
  Recorder.isRecording (after (Recorder.start path out now r)) = true.
Proof.
  unfold Recorder.start. unfold bind at 1. cbn [this].
  destruct (Recorder.isRecording r) eqn:E; [exact E|].
  unfold bind at 1. cbn [assign]. unfold bind at 1.
  pose proof (onWriter_isRecording
                (start path (Recorder.withVideoFormat path
                               (Recorder.options r) out))
                (Recorder.set_isRecording true r)) as H1.
  destruct (Recorder.onWriter _ (Recorder.set_isRecording true r))
    as [[] r1|e r1]; cbn [after] in H1 |- *; [|exact H1].
  unfold bind at 1.
  pose proof (onCollector_isRecording (Collector.start now) r1) as H2.
  destruct (Recorder.onCollector (Collector.start now) r1) as [[] r2|e r2];
    cbn [after] in H2 |- *; [|rewrite H2; exact H1].
  unfold bind, this, ret. cbn [after]. rewrite H2. exact H1.
Qed.

Lemma recorder_stop_isRecording (now : Q)
  (r : Recorder.ActionTrackingRecorder) :
  Recorder.isRecording (after (Recorder.stop now r)) = false.
Proof.
  unfold Recorder.stop. unfold bind at 1. cbn [this].
  destruct (Recorder.isRecording r) eqn:E; cbn [negb]; [|exact E].
  unfold bind at 1. cbn [assign]. unfold bind at 1.
  pose proof (onCollector_isRecording (Collector.stop now)
                (Recorder.set_isRecording false r)) as H1.
  destruct (Recorder.onCollector (Collector.stop now)
              (Recorder.set_isRecording false r)) as [[] r1|e r1];
    cbn [after] in H1 |- *; [|exact H1].
  unfold bind at 1.
  pose proof (onWriter_isRecording stop r1) as H2.
  destruct (Recorder.onWriter stop r1) as [v r2|e r2];
    cbn [after] in H2 |- *; [|rewrite H2; exact H1].
  unfold bind, assign, ret. cbn [after]. recorded. rewrite H2. exact H1.
Qed.

(** X21.  [start] marks the recorder as recording before it starts the
    writer, and nothing clears the mark when the writer's [start] throws.
    So after any [start], whether it returned or threw, a further [start]
    is refused with [Recording is already in progress] and changes
    nothing; only [stop] clears the mark, and it does so even when the
    writer's [stop] throws. *)
Theorem start_is_refused_until_stop (path : PathOps) (out out' : string)
  (now now' : Q) (r : Recorder.ActionTrackingRecorder) :
  let r1 := after (Recorder.start path out now r) in
  Recorder.isRecording r1 = true
  /\ Recorder.start path out' now' r1
     = Thrown (Error "Recording is already in progress") r1
  /\ Recorder.isRecording (after (Recorder.stop now' r1)) = false.
Proof.
  cbn zeta.
  pose proof (recorder_start_isRecording path out now r) as H.
  split; [exact H|]. split; [|apply recorder_stop_isRecording].
  generalize dependent (after (Recorder.start path out now r)).
  intros r1 H. unfold Recorder.start, bind, this. rewrite H. reflexivity.
Qed.

(** *** The recording clock *)

(** X22.  The collector's clock starts at the first [start()] and is never
    stopped.  For a collector started at an instant [t0] other than [0],
    [getElapsedTime()] is the time since [t0]; a second [start()] while
    collecting does not move the origin, and [stop()] does not stop the
    clock: the elapsed time keeps growing after it.  A [start()] after a
    [stop()] sets a new origin.  Before the first [start()] the elapsed
    time is [0]. *)
Theorem the_clock_runs_from_the_first_start (t0 t t' now : Q)
  (c : Collector.EventStreamCollector) :
  Collector.isCollecting c = false -> ~ t0 == 0 -> ~ t' == 0 ->
  let c1 := after (Collector.start t0 c) in
  Collector.getElapsedTime now Collector.constructor = 0
  /\ Collector.getElapsedTime now c1 = now - t0
  /\ Collector.getElapsedTime now (after (Collector.start t c1)) = now - t0
  /\ Collector.getElapsedTime now (after (Collector.stop t c1)) = now - t0
  /\ Collector.getElapsedTime now
       (after (Collector.start t' (after (Collector.stop t c1))))
     = now - t'
  /\ In ("collectorStopped"%string, t - t0)
       (Collector.emitted (after (Collector.stop t c1))).
Proof.
  intros Hc H0 H'. cbn zeta.
  assert (E0 : Qeq_bool t0 0 = false).
  { destruct (Qeq_bool t0 0) eqn:E; [|reflexivity].
    apply Qeq_bool_iff in E. contradiction. }
  assert (E' : Qeq_bool t' 0 = false).
  { destruct (Qeq_bool t' 0) eqn:E; [|reflexivity].
    apply Qeq_bool_iff in E. contradiction. }
  unfold Collector.start, Collector.stop, Collector.getElapsedTime,
    Collector.constructor, bind, this, assign, ret.
  cbv beta iota. rewrite Hc.
  cbn [after Collector.isCollecting Collector.startTimestamp
       Collector.emitted negb].
  cbv beta iota.
  cbn [after Collector.isCollecting Collector.startTimestamp
       Collector.emitted negb].
  rewrite E0, E'.
  repeat split. apply in_or_app. right. left. reflexivity.
Qed.

Lemma the_clock_runs_from_the_first_start_witness :
  Collector.getElapsedTime 250
    (after (Collector.stop 200 (after (Collector.start 100
                                         Collector.constructor))))
  = 250 - 100.
Proof.
  assert (A1 : Collector.isCollecting Collector.constructor = false)
    by reflexivity.
  assert (A2 : ~ 100 == 0) by discriminate.
  assert (A3 : ~ 300 == 0) by discriminate.
  pose proof (the_clock_runs_from_the_first_start 100 200 300 250 _
                A1 A2 A3) as H.
  cbn zeta in H. destruct H as (_ & _ & _ & H & _). exact H.
Defined.

(** *** From the clicks to the playback *)

Lemma handleDOMClick_effect (data : string) (now : Q)
  (r : Recorder.ActionTrackingRecorder) :
  isWriting (Recorder.writer r) = true ->
  errorListener (Recorder.writer r) = true ->
  exists r',
    handleDOMClick data now r = Returned tt r'
    /\ actionLog (Recorder.writer r')
       = actionLog (Recorder.writer r)
           ++ [mkAction "click"
                 (Collector.getElapsedTime now (Recorder.collector r)) data]
    /\ isWriting (Recorder.writer r') = true
    /\ errorListener (Recorder.writer r') = true
    /\ Collector.startTimestamp (Recorder.collector r')
       = Collector.startTimestamp (Recorder.collector r).
Proof.
  intros Hw Hl.
  set (a := mkAction "click"
              (Collector.getElapsedTime now (Recorder.collector r)) data).
  pose proof (recordAction_returns a (Recorder.writer r) (or_introl Hl))
    as Hr.
  pose proof (recordAction_actionLog a (Recorder.writer r)) as Hlog.
  destruct (recordAction_kept a (Recorder.writer r))
    as (_ & _ & _ & K4 & K5 & _).
  destruct (recordAction a (Recorder.writer r)) as [[] w1|e w1] eqn:E;
    [|discriminate Hr].
  cbn [after] in Hlog, K4, K5. rewrite Hw in Hlog, K5. rewrite Hl in K4.
  unfold handleDOMClick. unfold bind at 1. cbn [this].
  fold a. unfold bind at 1. unfold Recorder.onCollector at 1.
  unfold assign at 1. unfold Recorder.onWriter. recorded.
  rewrite E. eexists. split; [reflexivity|]. recorded.
  cbn [Collector.startTimestamp]. auto.
Qed.

Lemma handleDOMClick_all (t0 : Q) (clicks : list (string * Q)) :
  ~ t0 == 0 ->
  forall r : Recorder.ActionTrackingRecorder,
    isWriting (Recorder.writer r) = true ->
    errorListener (Recorder.writer r) = true ->
    Collector.startTimestamp (Recorder.collector r) = Some t0 ->
    exists r',
      forEach (fun c => handleDOMClick (fst c) (snd c)) clicks r
      = Returned tt r'
      /\ actionLog (Recorder.writer r')
         = actionLog (Recorder.writer r) ++ map (clickAction t0) clicks.
Proof.
  intro H0. induction clicks as [|[data now] cs IH]; intros r Hw Hl Hs.
  - exists r. cbn [forEach ret map]. rewrite app_nil_r. auto.
  - rewrite forEach_cons. cbn [fst snd].
    destruct (handleDOMClick_effect data now r Hw Hl)
      as (r1 & E & A1 & A2 & A3 & A4).
    rewrite E. rewrite Hs in A4.
    destruct (IH r1 A2 A3 A4) as (r2 & E2 & B).
    exists r2. split; [exact E2|].
    rewrite B, A1, <- app_assoc. cbn [map app]. do 3 f_equal.
    unfold Collector.getElapsedTime, clickAction. rewrite Hs. cbn [fst snd].
    destruct (Qeq_bool t0 0) eqn:Eq; [|reflexivity].
    apply Qeq_bool_iff in Eq. contradiction.
Qed.

Lemma clickAction_sorted (t0 : Q) (clicks : list (string * Q)) :
  StronglySorted (fun c1 c2 => snd c1 <= snd c2) clicks ->
  sorted_log (map (clickAction t0) clicks).
Proof.
  induction 1 as [|c cs Hs IH Hle]; cbn [map]; constructor; [|exact IH].
  rewrite Forall_map. rewrite Forall_forall in Hle |- *.
  intros c' Hc'. unfold clickAction. cbn [timestamp].
  specialize (Hle c' Hc'). lra.
Qed.

Lemma clickAction_nonneg (t0 : Q) (clicks : list (string * Q)) :
  Forall (fun c => t0 <= snd c) clicks ->
  nonneg_log (map (clickAction t0) clicks).
Proof.
  intro H. unfold nonneg_log. rewrite Forall_map.
  rewrite Forall_forall in H |- *. intros c Hc.
  unfold clickAction. cbn [timestamp]. specialize (H c Hc). lra.
Qed.

(** X23.  What is recorded is what is replayed.  A new recorder is started
    at an instant [t0] other than [0]; clicks reach [handleDOMClick] at
    instants that do not decrease, none before [t0].  Then the recorder's
    log holds one entry per click, in the order of the clicks, with the
    time since [t0] as timestamp: it is sorted and has no negative
    timestamp.  Loaded into a new player with a positive speed and looping
    off, and played, it is emitted entry by entry in the order of the
    clicks; provided it is playable with the two clock reads of the
    [play()] that starts the playback: the clock does not go back between
    them, no click is due before the second read, and none is due later
    than the host's longest delay, [2^31 - 1] ms. *)
Theorem recorded_clicks_replay_in_order (path : PathOps)
  (opts : Recorder.Options) (d : Disk) (out : string) (t0 : Q)
  (clicks : list (string * Q)) (playerOptions : Player.Options)
  (videoPath : bool) (clock0 clock : nat -> Q) :
  ~ t0 == 0 -> clicks <> [] ->
  Forall (fun c => t0 <= snd c) clicks ->
  StronglySorted (fun c1 c2 => snd c1 <= snd c2) clicks ->
  0 < Player.playbackSpeed playerOptions ->
  Player.loop playerOptions = false ->
  Pass.playable (if Player.autoPlay playerOptions then clock0 else clock)
    (Player.playbackSpeed playerOptions) (map (clickAction t0) clicks) ->
  let started :=
    after (Recorder.start path out t0 (Recorder.constructor opts d)) in
  let clicked :=
    forEach (fun c => handleDOMClick (fst c) (snd c)) clicks started in
  let log := Recorder.getActionLog (after clicked) in
  let p :=
    after (Player.loadOn (inr log) videoPath clock0
             (Player.constructor playerOptions)) in
  let o := Player.runTimers (length log) (after (Player.playOn clock p)) in
  threw clicked = None
  /\ log = map (clickAction t0) clicks
  /\ sorted_log log /\ nonneg_log log
  /\ Player.actionLog p = log
  /\ threw o = None
  /\ Player.actionsOf (Player.emitted (after o)) = log
  /\ Player.timers (after o) = [].
Proof.
  intros H0 Hne Hge Hsorted Hs Hloop Hplay. cbn zeta.
  assert (Hstart :
    exists r1,
      after (Recorder.start path out t0 (Recorder.constructor opts d)) = r1
      /\ Recorder.writer r1
         = set_errorListener true
             (constructor (Recorder.writerOptions opts) d)
      /\ Collector.startTimestamp (Recorder.collector r1) = Some t0).
  { unfold Recorder.start. unfold bind at 1. cbn [this].
    unfold Recorder.constructor at 1. recorded. cbv beta iota.
    unfold bind at 1. cbn [assign]. unfold bind at 1.
    unfold Recorder.onWriter at 1. recorded.
    rewrite start_while_writing by reflexivity.
    unfold bind at 1. unfold Recorder.onCollector at 1.
    unfold Collector.start, Collector.constructor, bind, this, assign, ret.
    recorded. cbn [Collector.isCollecting]. cbv beta iota. recorded.
    eexists. split; [reflexivity|]. recorded. split; reflexivity. }
  destruct Hstart as (r1 & -> & Hw1 & Hc1).
  destruct (handleDOMClick_all t0 clicks H0 r1) as (r2 & E2 & Hlog);
    [rewrite Hw1; reflexivity | rewrite Hw1; reflexivity | exact Hc1|].
  rewrite Hw1 in Hlog. cbn [actionLog set_errorListener constructor app]
    in Hlog.
  rewrite E2. cbn [threw after].
  unfold Recorder.getActionLog, getActionLog. rewrite Hlog.
  pose proof (clickAction_sorted t0 clicks Hsorted) as Hsl.
  pose proof (clickAction_nonneg t0 clicks Hge) as Hnl.
  assert (Hne' : map (clickAction t0) clicks <> []).
  { destruct clicks; [congruence | discriminate]. }
  split; [reflexivity|]. split; [reflexivity|].
  split; [exact Hsl|]. split; [exact Hnl|].
  destruct (PlayerMore.load_then_play (map (clickAction t0) clicks)
              playerOptions videoPath clock0 clock Hne' Hs Hloop Hplay)
    as (_ & _ & A3 & A4 & A5 & _ & A7).
  cbn zeta in A3, A4, A5, A7.
  rewrite (PlayerFacts.sortByTimestamp_sorted _ Hsl) in A4, A7.
  auto.
Qed.

Lemma recorded_clicks_replay_in_order_witness :
  Recorder.getActionLog
    (after
       (forEach (fun c => handleDOMClick (fst c) (snd c))
          [("button"%string, 150); ("link"%string, 400)]
          (after (Recorder.start posix "rec/session.json" 100
                    (Recording.recorderOn Recording.emptyDisk)))))
  = [mkAction "click" (150 - 100) "button";
     mkAction "click" (400 - 100) "link"].
Proof.
  assert (A1 : ~ 100 == 0) by discriminate.
  assert (A2 : [("button"%string, 150); ("link"%string, 400)] <> [])
    by discriminate.
  assert (A3 : Forall (fun c : string * Q => 100 <= snd c)
                 [("button"%string, 150); ("link"%string, 400)])
    by (repeat constructor; discriminate).
  assert (A4 : StronglySorted
                 (fun c1 c2 : string * Q => snd c1 <= snd c2)
                 [("button"%string, 150); ("link"%string, 400)])
    by (repeat constructor; discriminate).
  assert (A5 : 0 < Player.playbackSpeed Player.defaultOptions)
    by reflexivity.
  assert (A6 : Player.loop Player.defaultOptions = false) by reflexivity.
  assert (A7 : Pass.playable
                 (if Player.autoPlay Player.defaultOptions
                  then Player.still 0 else Scenario.ticking 1000 1001)
                 (Player.playbackSpeed Player.defaultOptions)
                 (map (clickAction 100)
                    [("button"%string, 150); ("link"%string, 400)])).
  { vm_compute. split; [discriminate|].
    repeat constructor; discriminate. }
  pose proof (recorded_clicks_replay_in_order posix
                Recorder.defaultRecorderOptions Recording.emptyDisk
                "rec/session.json" 100 _ Player.defaultOptions false
                (Player.still 0) (Scenario.ticking 1000 1001)
                A1 A2 A3 A4 A5 A6 A7) as H.
  cbn zeta in H. destruct H as (_ & H & _). exact H.
Defined.

(** *** Clicks after [stop] *)

Lemma stop_returned_idle (w w' : EventStreamWriter)
  (v : option StopResult) :
  stop w = Returned v w' -> isWriting w' = false.
Proof.
  unfold stop, saveActionLog, writeFile, emitError, emit, try_catch, bind,
    this, assign, ret, throw.
  cbv beta iota.
  repeat (assigned; cbv beta iota; branch); assigned;
    intro H; inversion H; subst; assigned;
    repeat match goal with
           | H : negb _ = true |- _ => apply negb_true_iff in H
           end;
    congruence.
Qed.

(** X24.  Nothing is recorded after [stop].  Once the recorder's [stop]
    has returned, its writer is not writing.  [stop] detaches neither the
    DOM listener nor [handleDOMClick], and the handler does not look at
    [isCollecting]: a click that reaches it is still emitted by the
    collector as an ['action'], with the time since the start as its
    timestamp, but the writer ignores it and the log stays as [stop]
    returned it. *)
Theorem clicks_after_stop_are_dropped (now now' : Q) (data : string)
  (r r' : Recorder.ActionTrackingRecorder) (res : Recorder.Result) :
  Recorder.isRecording r = true ->
  Recorder.stop now r = Returned res r' ->
  let o := handleDOMClick data now' r' in
  threw o = None
  /\ Recorder.writer (after o) = Recorder.writer r'
  /\ Recorder.getActionLog (after o) = Recorder.getActionLog r'
  /\ Collector.emitted (Recorder.collector (after o))
     = Collector.emitted (Recorder.collector r')
         ++ [("action"%string,
              Collector.getElapsedTime now' (Recorder.collector r'))].
Proof.
  intros Hrec Hstop. cbn zeta.
  assert (Hw : isWriting (Recorder.writer r') = false).
  { unfold Recorder.stop in Hstop. unfold bind at 1 in Hstop.
    cbn [this] in Hstop. rewrite Hrec in Hstop. cbn [negb] in Hstop.
    unfold bind at 1 in Hstop. cbn [assign] in Hstop.
    unfold bind at 1 in Hstop.
    destruct (Recorder.onCollector (Collector.stop now)
                (Recorder.set_isRecording false r)) as [[] r1|e r1];
      [|discriminate Hstop].
    unfold bind at 1 in Hstop. unfold Recorder.onWriter at 1 in Hstop.
    destruct (stop (Recorder.writer r1)) as [v w1|e w1] eqn:E;
      [|discriminate Hstop].
    unfold bind, assign, ret in Hstop. inversion Hstop. recorded.
    exact (stop_returned_idle _ _ _ E). }
  assert (E :
    handleDOMClick data now' r'
    = Returned tt
        (Recorder.set_writer (Recorder.writer r')
           (Recorder.set_collector
              (Collector.mkCollector
                 (Collector.startTimestamp (Recorder.collector r'))
                 (Collector.isCollecting (Recorder.collector r'))
                 (Collector.emitted (Recorder.collector r')
                    ++ [("action"%string,
                         Collector.getElapsedTime now'
                           (Recorder.collector r'))]))
              r'))).
  { unfold handleDOMClick. unfold bind at 1. cbn [this].
    unfold bind at 1. unfold Recorder.onCollector at 1. unfold assign at 1.
    unfold Recorder.onWriter. recorded.
    rewrite recordAction_idle by exact Hw. reflexivity. }
  rewrite E. unfold Recorder.getActionLog, getActionLog. recorded.
  cbn [Collector.emitted]. auto.
Qed.

Lemma clicks_after_stop_are_dropped_witness :
  Recorder.getActionLog
    (after
       (handleDOMClick "button" 500
          (after
             (Recorder.stop 400
                (after (Recorder.start posix "rec/session.json" 100
                          (Recording.recorderOn Recording.emptyDisk)))))))
  = Recorder.getActionLog
      (after
         (Recorder.stop 400
            (after (Recorder.start posix "rec/session.json" 100
                      (Recording.recorderOn Recording.emptyDisk))))).
Proof.
  assert (A1 : Recorder.isRecording
                 (after (Recorder.start posix "rec/session.json" 100
                           (Recording.recorderOn Recording.emptyDisk)))
               = true) by (vm_compute; reflexivity).
  assert (A2 : Recorder.stop 400
                 (after (Recorder.start posix "rec/session.json" 100
                           (Recording.recorderOn Recording.emptyDisk)))
               = Returned
                   (Recorder.Object (mkStopResult None None []))
                   (after
                      (Recorder.stop 400
                         (after (Recorder.start posix "rec/session.json" 100
                                   (Recording.recorderOn
                                      Recording.emptyDisk))))))
    by (vm_compute; reflexivity).
  pose proof (clicks_after_stop_are_dropped 400 500 "button" _ _ _ A1 A2)
    as H.
  cbn zeta in H. destruct H as (_ & _ & H & _). exact H.
Defined.

End SessionFacts.
